(** * go-wework-svc: callback authentication and message cipher

    A shallow embedding of the WeWork callback service
    (package [wework]: the message cipher, the domain service of
    internal/wework/service.go and the data model; package [handler]: the
    callback handler) together with the properties of its specification.

    Conventions of the embedding:
    - a Go [[]byte] is a [list byte], a Go [string] is a [string]
      (a sequence of 8-bit characters), [string(b)] and [[]byte(s)] are
      [string_of_list_byte] and [list_byte_of_string];
    - a Go [int] is a [Z] (the 64-bit range is never left by the values that
      occur), [uint32] arithmetic is written with its wrap-around;
    - a Go function returning [(T, error)] returns a [result T]; a run-time
      panic is the third constructor of [result];
    - logging, the calls on the [Crypto] interface and the goroutine started
      by the service are recorded as a list of [event]s;
    - the functions of the Go standard library that the service calls
      (encoding/base64, crypto/aes, crypto/cipher, crypto/sha1,
      encoding/binary) are written out after their standards and checked
      on the test vectors of these; the decoder of encoding/xml is a
      parameter. *)

From Stdlib Require Import ZArith NArith List String Ascii Strings.Byte Bool Lia.
From Stdlib Require Import DecimalString Sorting.Sorted Sorting.Permutation Btauto.
Import ListNotations.

Local Open Scope string_scope.
Local Open Scope list_scope.
Local Open Scope Z_scope.

(* ================================================================== *)
(** * Go values: lengths, bytes, errors, results *)

Definition len {A : Type} (l : list A) : Z := Z.of_nat (List.length l).

Definition slen (s : string) : Z := Z.of_nat (String.length s).

(** [byte(x)]: conversion of an integer to a byte keeps the low 8 bits. *)
Definition byte_of_Z (z : Z) : byte :=
  match Byte.of_N (Z.to_N (z mod 256)) with
  | Some b => b
  | None => x00
  end.

(** [int(b)] *)
Definition Z_of_byte (b : byte) : Z := Z.of_N (Byte.to_N b).

(** [uint32(x)] *)
Definition uint32 (z : Z) : Z := z mod 2 ^ 32.

(** [%d] of the fmt package. *)
Definition itoa (z : Z) : string := NilZero.string_of_int (Z.to_int z).

Definition sappend (a b : string) : string := String.append a b.
Infix "+s+" := sappend (at level 60, right associativity).

(** [strings.Contains(s, substr)] *)
Fixpoint strings_Contains (s substr : string) : bool :=
  String.prefix substr s ||
  match s with
  | EmptyString => false
  | String _ s' => strings_Contains s' substr
  end.

(** The values of Go's [error] interface that the service produces.
    [ErrInvalidSignature] is the package-level sentinel of package
    [wework]; it is compared by identity, so it has a constructor of its
    own. *)
Inductive error : Type :=
| ErrInvalidSignature
| Errorf (msg : string)                  (* fmt.Errorf without a %w verb *)
| Errorf_w (pre : string) (e : error)    (* fmt.Errorf(pre + "%w", e) *)
| CorruptInputError (pos : Z)            (* encoding/base64 *)
| KeySizeError (n : Z)                   (* crypto/aes *)
| LibError (msg : string).               (* an error of encoding/xml, io, crypto/rand *)

(** [err.Error()] *)
Fixpoint Error (e : error) : string :=
  match e with
  | ErrInvalidSignature => "invalid signature"
  | Errorf msg => msg
  | Errorf_w pre e' => pre +s+ Error e'
  | CorruptInputError pos => "illegal base64 data at input byte " +s+ itoa pos
  | KeySizeError n => "crypto/aes: invalid key size " +s+ itoa n
  | LibError msg => msg
  end.

(** [errors.Is(err, ErrInvalidSignature)]: the chain of [%w] wrappers is
    followed until the sentinel itself is met. *)
Fixpoint errors_Is_ErrInvalidSignature (e : error) : bool :=
  match e with
  | ErrInvalidSignature => true
  | Errorf_w _ e' => errors_Is_ErrInvalidSignature e'
  | _ => false
  end.

Inductive result (A : Type) : Type :=
| Ok (a : A)
| Err (e : error)
| Panic (msg : string).
Arguments Ok {A} a.
Arguments Err {A} e.
Arguments Panic {A} msg.

Definition bind {A B : Type} (r : result A) (k : A -> result B) : result B :=
  match r with
  | Ok a => k a
  | Err e => Err e
  | Panic m => Panic m
  end.

Notation "x <- r ;; k" := (bind r (fun x => k))
  (at level 61, r at next level, right associativity).

(** [if err != nil { return nil, fmt.Errorf(pre + "%w", err) }] *)
Definition wrap_err {A : Type} (pre : string) (r : result A) : result A :=
  match r with
  | Err e => Err (Errorf_w pre e)
  | other => other
  end.

(** A slice expression [s[lo:hi]] on the backing array [s]: it panics unless
    [0 <= lo <= hi <= len(s)]. *)
Definition subslice (s : list byte) (lo hi : Z) : result (list byte) :=
  if (0 <=? lo) && (lo <=? hi) && (hi <=? len s)
  then Ok (firstn (Z.to_nat (hi - lo)) (skipn (Z.to_nat lo) s))
  else Panic ("slice bounds out of range [" +s+ itoa lo +s+ ":" +s+ itoa hi +s+ "]").

(* ================================================================== *)
(** * PKCS#7 padding (package wework) *)

Definition aes_BlockSize : Z := 16.

(** [pkcs7Pad] *)
Definition pkcs7Pad (data : list byte) (blockSize : Z) : list byte :=
  let padding := blockSize - Z.rem (len data) blockSize in
  let padBytes := repeat (byte_of_Z padding) (Z.to_nat padding) in
  data ++ padBytes.

(** The loop of [pkcs7Unpad]: [tail] is [data[i:]]; the result is the first
    position whose byte is not [p]. *)
Fixpoint check_padding (tail : list byte) (i : Z) (p : byte) : option Z :=
  match tail with
  | [] => None
  | b :: tl => if Byte.eqb b p then check_padding tl (i + 1) p else Some i
  end.

(** [pkcs7Unpad] *)
Definition pkcs7Unpad (data : list byte) : result (list byte) :=
  if len data =? 0 then Err (Errorf "empty data")
  else
    let padding := Z_of_byte (last data x00) in
    if (padding =? 0) || (padding >? aes_BlockSize) then
      Err (Errorf ("invalid padding value: " +s+ itoa padding))
    else if padding >? len data then
      Err (Errorf ("padding " +s+ itoa padding +s+ " exceeds data length "
                   +s+ itoa (len data)))
    else
      match check_padding (skipn (Z.to_nat (len data - padding)) data)
                          (len data - padding) (byte_of_Z padding) with
      | Some i => Err (Errorf ("invalid padding byte at position " +s+ itoa i))
      | None => Ok (firstn (Z.to_nat (len data - padding)) data)
      end.

(* ================================================================== *)
(** * encoding/base64, [StdEncoding] (RFC 4648 alphabet, padded)

    The library functions the service calls, as the Go documentation
    describes them: [EncodeToString] and [DecodeString], in which carriage
    returns and line feeds are skipped, padding is required and the unused
    bits of the last quantum are not checked. *)

Module base64.

Definition encodeStd : list byte :=
  list_byte_of_string
    "ABCDEFGHIJKLMNOPQRSTUVWXYZabcdefghijklmnopqrstuvwxyz0123456789+/".

Definition padChar : byte := "=".

(** The character of a 6-bit value. *)
Definition enc (v : Z) : byte := nth (Z.to_nat v) encodeStd x00.

(** [decodeMap]: the 6-bit value of a character of the alphabet. *)
Definition decodeMap (c : byte) : option Z :=
  let n := Z_of_byte c in
  if (65 <=? n) && (n <=? 90) then Some (n - 65)
  else if (97 <=? n) && (n <=? 122) then Some (n - 71)
  else if (48 <=? n) && (n <=? 57) then Some (n + 4)
  else if n =? 43 then Some 62
  else if n =? 47 then Some 63
  else None.

Definition quantum3 (a b c : byte) : Z :=
  Z_of_byte a * 65536 + Z_of_byte b * 256 + Z_of_byte c.

Fixpoint encode (src : list byte) : list byte :=
  match src with
  | [] => []
  | [a] =>
      let v := quantum3 a x00 x00 in
      [enc (v / 262144); enc (v / 4096 mod 64); padChar; padChar]
  | [a; b] =>
      let v := quantum3 a b x00 in
      [enc (v / 262144); enc (v / 4096 mod 64); enc (v / 64 mod 64); padChar]
  | a :: b :: c :: rest =>
      let v := quantum3 a b c in
      enc (v / 262144) :: enc (v / 4096 mod 64) :: enc (v / 64 mod 64)
        :: enc (v mod 64) :: encode rest
  end.

Definition EncodeToString (src : list byte) : string :=
  string_of_list_byte (encode src).

Definition is_newline (c : byte) : bool :=
  Byte.eqb c x0a || Byte.eqb c x0d.

Fixpoint skip_newlines (src : list byte) (si : Z) : list byte * Z :=
  match src with
  | c :: tl => if is_newline c then skip_newlines tl (si + 1) else (src, si)
  | [] => ([], si)
  end.

(** The value of the quantum whose 6-bit digits are [dbuf] (missing digits
    are zero). *)
Definition quantum4 (dbuf : list Z) : Z :=
  nth 0 dbuf 0 * 262144 + nth 1 dbuf 0 * 4096 + nth 2 dbuf 0 * 64 + nth 3 dbuf 0.

(** After the padding of a quantum only line breaks may follow. *)
Definition after_padding (tl : list byte) (si : Z) (out : list byte)
  : result (list byte) :=
  match skip_newlines tl si with
  | ([], _) => Ok out
  | (_ :: _, si') => Err (CorruptInputError si')
  end.

(** [decode src si dbuf]: [src] is the input from position [si] on and
    [dbuf] holds the digits of the current quantum read so far. *)
Fixpoint decode (src : list byte) (si : Z) (dbuf : list Z) : result (list byte) :=
  match src with
  | [] =>
      match dbuf with
      | [] => Ok []
      | _ => Err (CorruptInputError (si - len dbuf))
      end
  | c :: tl =>
      match decodeMap c with
      | Some v =>
          let dbuf' := dbuf ++ [v] in
          if len dbuf' =? 4 then
            let q := quantum4 dbuf' in
            rest <- decode tl (si + 1) [] ;;
            Ok (byte_of_Z (q / 65536) :: byte_of_Z (q / 256) :: byte_of_Z q :: rest)
          else decode tl (si + 1) dbuf'
      | None =>
          if is_newline c then decode tl (si + 1) dbuf
          else if negb (Byte.eqb c padChar) then Err (CorruptInputError si)
          else
            let q := quantum4 dbuf in
            match dbuf with
            | [] | [_] => Err (CorruptInputError si)
            | [_; _] =>
                match skip_newlines tl (si + 1) with
                | ([], si') => Err (CorruptInputError si')
                | (c2 :: tl2, si') =>
                    if negb (Byte.eqb c2 padChar) then Err (CorruptInputError (si' - 1))
                    else after_padding tl2 (si' + 1) [byte_of_Z (q / 65536)]
                end
            | _ =>
                after_padding tl (si + 1)
                  [byte_of_Z (q / 65536); byte_of_Z (q / 256)]
            end
      end
  end.

Definition DecodeString (s : string) : result (list byte) :=
  decode (list_byte_of_string s) 0 [].

End base64.

(* ================================================================== *)
(** * crypto/aes and crypto/cipher: the block cipher and its CBC mode

    The AES block cipher of FIPS 197 (key sizes 16, 24 and 32 bytes) and the
    cipher-block-chaining mode, as the Go standard library provides them. *)

Module aes.

Definition byte_of_N (n : N) : byte :=
  match Byte.of_N n with
  | Some b => b
  | None => x00
  end.

Definition bxor (a b : byte) : byte :=
  byte_of_N (N.lxor (Byte.to_N a) (Byte.to_N b)).

(** The 256 bytes, in order. *)
Definition all_bytes : list byte :=
  map (fun n => byte_of_N (N.of_nat n)) (seq 0 256).

Definition sbox_table : list byte :=
  [
   x63; x7c; x77; x7b; xf2; x6b; x6f; xc5; x30; x01; x67; x2b; xfe; xd7; xab; x76;
   xca; x82; xc9; x7d; xfa; x59; x47; xf0; xad; xd4; xa2; xaf; x9c; xa4; x72; xc0;
   xb7; xfd; x93; x26; x36; x3f; xf7; xcc; x34; xa5; xe5; xf1; x71; xd8; x31; x15;
   x04; xc7; x23; xc3; x18; x96; x05; x9a; x07; x12; x80; xe2; xeb; x27; xb2; x75;
   x09; x83; x2c; x1a; x1b; x6e; x5a; xa0; x52; x3b; xd6; xb3; x29; xe3; x2f; x84;
   x53; xd1; x00; xed; x20; xfc; xb1; x5b; x6a; xcb; xbe; x39; x4a; x4c; x58; xcf;
   xd0; xef; xaa; xfb; x43; x4d; x33; x85; x45; xf9; x02; x7f; x50; x3c; x9f; xa8;
   x51; xa3; x40; x8f; x92; x9d; x38; xf5; xbc; xb6; xda; x21; x10; xff; xf3; xd2;
   xcd; x0c; x13; xec; x5f; x97; x44; x17; xc4; xa7; x7e; x3d; x64; x5d; x19; x73;
   x60; x81; x4f; xdc; x22; x2a; x90; x88; x46; xee; xb8; x14; xde; x5e; x0b; xdb;
   xe0; x32; x3a; x0a; x49; x06; x24; x5c; xc2; xd3; xac; x62; x91; x95; xe4; x79;
   xe7; xc8; x37; x6d; x8d; xd5; x4e; xa9; x6c; x56; xf4; xea; x65; x7a; xae; x08;
   xba; x78; x25; x2e; x1c; xa6; xb4; xc6; xe8; xdd; x74; x1f; x4b; xbd; x8b; x8a;
   x70; x3e; xb5; x66; x48; x03; xf6; x0e; x61; x35; x57; xb9; x86; xc1; x1d; x9e;
   xe1; xf8; x98; x11; x69; xd9; x8e; x94; x9b; x1e; x87; xe9; xce; x55; x28; xdf;
   x8c; xa1; x89; x0d; xbf; xe6; x42; x68; x41; x99; x2d; x0f; xb0; x54; xbb; x16
  ].

Definition inv_sbox_table : list byte :=
  [
   x52; x09; x6a; xd5; x30; x36; xa5; x38; xbf; x40; xa3; x9e; x81; xf3; xd7; xfb;
   x7c; xe3; x39; x82; x9b; x2f; xff; x87; x34; x8e; x43; x44; xc4; xde; xe9; xcb;
   x54; x7b; x94; x32; xa6; xc2; x23; x3d; xee; x4c; x95; x0b; x42; xfa; xc3; x4e;
   x08; x2e; xa1; x66; x28; xd9; x24; xb2; x76; x5b; xa2; x49; x6d; x8b; xd1; x25;
   x72; xf8; xf6; x64; x86; x68; x98; x16; xd4; xa4; x5c; xcc; x5d; x65; xb6; x92;
   x6c; x70; x48; x50; xfd; xed; xb9; xda; x5e; x15; x46; x57; xa7; x8d; x9d; x84;
   x90; xd8; xab; x00; x8c; xbc; xd3; x0a; xf7; xe4; x58; x05; xb8; xb3; x45; x06;
   xd0; x2c; x1e; x8f; xca; x3f; x0f; x02; xc1; xaf; xbd; x03; x01; x13; x8a; x6b;
   x3a; x91; x11; x41; x4f; x67; xdc; xea; x97; xf2; xcf; xce; xf0; xb4; xe6; x73;
   x96; xac; x74; x22; xe7; xad; x35; x85; xe2; xf9; x37; xe8; x1c; x75; xdf; x6e;
   x47; xf1; x1a; x71; x1d; x29; xc5; x89; x6f; xb7; x62; x0e; xaa; x18; xbe; x1b;
   xfc; x56; x3e; x4b; xc6; xd2; x79; x20; x9a; xdb; xc0; xfe; x78; xcd; x5a; xf4;
   x1f; xdd; xa8; x33; x88; x07; xc7; x31; xb1; x12; x10; x59; x27; x80; xec; x5f;
   x60; x51; x7f; xa9; x19; xb5; x4a; x0d; x2d; xe5; x7a; x9f; x93; xc9; x9c; xef;
   xa0; xe0; x3b; x4d; xae; x2a; xf5; xb0; xc8; xeb; xbb; x3c; x83; x53; x99; x61;
   x17; x2b; x04; x7e; xba; x77; xd6; x26; xe1; x69; x14; x63; x55; x21; x0c; x7d
  ].

Definition sbox (b : byte) : byte := nth (Byte.to_nat b) sbox_table x00.
Definition inv_sbox (b : byte) : byte := nth (Byte.to_nat b) inv_sbox_table x00.

(** Multiplication by [x] in GF(2^8) modulo [x^8 + x^4 + x^3 + x + 1]. *)
Definition xtime (b : byte) : byte :=
  let n := Byte.to_N b in
  byte_of_N (N.lxor ((2 * n) mod 256) (if (n <? 128)%N then 0 else 27)%N).

Definition mul2 (b : byte) : byte := xtime b.
Definition mul3 (b : byte) : byte := bxor (xtime b) b.
Definition mul9 (b : byte) : byte := bxor (xtime (xtime (xtime b))) b.
Definition mul11 (b : byte) : byte :=
  bxor (bxor (xtime (xtime (xtime b))) (xtime b)) b.
Definition mul13 (b : byte) : byte :=
  bxor (bxor (xtime (xtime (xtime b))) (xtime (xtime b))) b.
Definition mul14 (b : byte) : byte :=
  bxor (bxor (xtime (xtime (xtime b))) (xtime (xtime b))) (xtime b).

(** A word is a column of the state: four bytes. *)
Inductive word : Type := W (a b c d : byte).

(** The state: four columns. *)
Inductive state : Type := St (c0 c1 c2 c3 : word).

Definition word_eqb (u v : word) : bool :=
  let '(W a b c d) := u in
  let '(W a' b' c' d') := v in
  Byte.eqb a a' && Byte.eqb b b' && Byte.eqb c c' && Byte.eqb d d'.

Definition xor_word (u v : word) : word :=
  let '(W a b c d) := u in
  let '(W a' b' c' d') := v in
  W (bxor a a') (bxor b b') (bxor c c') (bxor d d').

Definition AddRoundKey (s rk : state) : state :=
  let '(St c0 c1 c2 c3) := s in
  let '(St k0 k1 k2 k3) := rk in
  St (xor_word c0 k0) (xor_word c1 k1) (xor_word c2 k2) (xor_word c3 k3).

Definition SubWord (u : word) : word :=
  let '(W a b c d) := u in W (sbox a) (sbox b) (sbox c) (sbox d).

Definition InvSubWord (u : word) : word :=
  let '(W a b c d) := u in W (inv_sbox a) (inv_sbox b) (inv_sbox c) (inv_sbox d).

Definition RotWord (u : word) : word :=
  let '(W a b c d) := u in W b c d a.

Definition SubBytes (s : state) : state :=
  let '(St c0 c1 c2 c3) := s in
  St (SubWord c0) (SubWord c1) (SubWord c2) (SubWord c3).

Definition InvSubBytes (s : state) : state :=
  let '(St c0 c1 c2 c3) := s in
  St (InvSubWord c0) (InvSubWord c1) (InvSubWord c2) (InvSubWord c3).

(** Row [r] of the state is rotated left by [r] columns. *)
Definition ShiftRows (s : state) : state :=
  let '(St (W a0 a1 a2 a3) (W b0 b1 b2 b3) (W c0 c1 c2 c3) (W d0 d1 d2 d3)) := s in
  St (W a0 b1 c2 d3) (W b0 c1 d2 a3) (W c0 d1 a2 b3) (W d0 a1 b2 c3).

Definition InvShiftRows (s : state) : state :=
  let '(St (W a0 a1 a2 a3) (W b0 b1 b2 b3) (W c0 c1 c2 c3) (W d0 d1 d2 d3)) := s in
  St (W a0 d1 c2 b3) (W b0 a1 d2 c3) (W c0 b1 a2 d3) (W d0 c1 b2 a3).

Definition MixColumn (u : word) : word :=
  let '(W a b c d) := u in
  W (bxor (bxor (bxor (mul2 a) (mul3 b)) c) d)
    (bxor (bxor (bxor a (mul2 b)) (mul3 c)) d)
    (bxor (bxor (bxor a b) (mul2 c)) (mul3 d))
    (bxor (bxor (bxor (mul3 a) b) c) (mul2 d)).

Definition InvMixColumn (u : word) : word :=
  let '(W a b c d) := u in
  W (bxor (bxor (bxor (mul14 a) (mul11 b)) (mul13 c)) (mul9 d))
    (bxor (bxor (bxor (mul9 a) (mul14 b)) (mul11 c)) (mul13 d))
    (bxor (bxor (bxor (mul13 a) (mul9 b)) (mul14 c)) (mul11 d))
    (bxor (bxor (bxor (mul11 a) (mul13 b)) (mul9 c)) (mul14 d)).

Definition MixColumns (s : state) : state :=
  let '(St c0 c1 c2 c3) := s in
  St (MixColumn c0) (MixColumn c1) (MixColumn c2) (MixColumn c3).

Definition InvMixColumns (s : state) : state :=
  let '(St c0 c1 c2 c3) := s in
  St (InvMixColumn c0) (InvMixColumn c1) (InvMixColumn c2) (InvMixColumn c3).

(** ** Key expansion *)

Definition W0 : word := W x00 x00 x00 x00.

Fixpoint words_of_bytes (l : list byte) : list word :=
  match l with
  | a :: b :: c :: d :: rest => W a b c d :: words_of_bytes rest
  | _ => []
  end.

Fixpoint states_of_words (l : list word) : list state :=
  match l with
  | a :: b :: c :: d :: rest => St a b c d :: states_of_words rest
  | _ => []
  end.

Definition Rcon (i : nat) : word :=
  W (nth i [x00; x01; x02; x04; x08; x10; x20; x40; x80; x1b; x36] x00) x00 x00 x00.

(** [expand fuel Nk i w]: [w] holds the words [0 .. i-1] of the key schedule;
    [fuel] more words are appended. *)
Fixpoint expand (fuel Nk i : nat) (w : list word) : list word :=
  match fuel with
  | O => w
  | S fuel' =>
      let prev := nth (i - 1) w W0 in
      let temp :=
        if (i mod Nk =? 0)%nat then xor_word (SubWord (RotWord prev)) (Rcon (i / Nk))
        else if (6 <? Nk)%nat && (i mod Nk =? 4)%nat then SubWord prev
        else prev in
      expand fuel' Nk (S i) (w ++ [xor_word (nth (i - Nk) w W0) temp])
  end.

(** The round keys [0 .. Nr] of a key of [4 * Nk] bytes, [Nr = Nk + 6]. *)
Definition KeyExpansion (key : list byte) : list state :=
  let Nk := (List.length key / 4)%nat in
  states_of_words (expand (4 * (Nk + 7) - Nk) Nk Nk (words_of_bytes key)).

(** ** The cipher and its inverse *)

Definition round (s rk : state) : state :=
  AddRoundKey (MixColumns (ShiftRows (SubBytes s))) rk.

Definition final_round (s rk : state) : state :=
  AddRoundKey (ShiftRows (SubBytes s)) rk.

Fixpoint rounds (s : state) (rks : list state) : state :=
  match rks with
  | [] => s
  | [rk] => final_round s rk
  | rk :: tl => rounds (round s rk) tl
  end.

Definition Cipher (rks : list state) (s : state) : state :=
  match rks with
  | [] => s
  | rk0 :: tl => rounds (AddRoundKey s rk0) tl
  end.

Definition inv_round (s rk : state) : state :=
  InvSubBytes (InvShiftRows (InvMixColumns (AddRoundKey s rk))).

Definition inv_final_round (s rk : state) : state :=
  InvSubBytes (InvShiftRows (AddRoundKey s rk)).

(** The rounds of the inverse cipher: the round keys are used from the last
    one back to the first. *)
Fixpoint inv_rounds (s : state) (rks : list state) : state :=
  match rks with
  | [] => s
  | [rk] => inv_final_round s rk
  | rk :: tl => inv_round (inv_rounds s tl) rk
  end.

Definition InvCipher (rks : list state) (s : state) : state :=
  match rks with
  | [] => s
  | rk0 :: tl => AddRoundKey (inv_rounds s tl) rk0
  end.

Definition bytes_of_word (u : word) : list byte :=
  let '(W a b c d) := u in [a; b; c; d].

Definition bytes_of_state (s : state) : list byte :=
  let '(St c0 c1 c2 c3) := s in
  bytes_of_word c0 ++ bytes_of_word c1 ++ bytes_of_word c2 ++ bytes_of_word c3.

(** The state made of the first 16 bytes of [l] (zero where [l] is short). *)
Definition state_of_bytes (l : list byte) : state :=
  let b i := nth i l x00 in
  St (W (b 0%nat) (b 1%nat) (b 2%nat) (b 3%nat))
     (W (b 4%nat) (b 5%nat) (b 6%nat) (b 7%nat))
     (W (b 8%nat) (b 9%nat) (b 10%nat) (b 11%nat))
     (W (b 12%nat) (b 13%nat) (b 14%nat) (b 15%nat)).

(** [aes.NewCipher]: the cipher.Block of a key is represented by its round
    keys. *)
Definition NewCipher (key : list byte) : result (list state) :=
  if (len key =? 16) || (len key =? 24) || (len key =? 32)
  then Ok (KeyExpansion key)
  else Err (KeySizeError (len key)).

(** [Block.Encrypt] and [Block.Decrypt] on one block of 16 bytes. *)
Definition Encrypt (block : list state) (src : list byte) : list byte :=
  bytes_of_state (Cipher block (state_of_bytes src)).

Definition Decrypt (block : list state) (src : list byte) : list byte :=
  bytes_of_state (InvCipher block (state_of_bytes src)).

End aes.

Module cipher.

(** The blocks of a buffer (a trailing partial block is not a block). *)
Fixpoint split_blocks (src : list byte) : list aes.state :=
  match src with
  | b0 :: b1 :: b2 :: b3 :: b4 :: b5 :: b6 :: b7 :: b8 :: b9 :: b10 :: b11
       :: b12 :: b13 :: b14 :: b15 :: rest =>
      aes.St (aes.W b0 b1 b2 b3) (aes.W b4 b5 b6 b7) (aes.W b8 b9 b10 b11)
             (aes.W b12 b13 b14 b15) :: split_blocks rest
  | _ => []
  end.

Definition join_blocks (l : list aes.state) : list byte :=
  flat_map aes.bytes_of_state l.

(** XOR of two blocks ([subtle.XORBytes]). *)
Definition xor_block (a b : aes.state) : aes.state := aes.AddRoundKey a b.

Fixpoint cbc_encrypt (block : list aes.state) (prev : aes.state)
    (src : list aes.state) : list aes.state :=
  match src with
  | [] => []
  | p :: tl =>
      let c := aes.Cipher block (xor_block p prev) in
      c :: cbc_encrypt block c tl
  end.

Fixpoint cbc_decrypt (block : list aes.state) (prev : aes.state)
    (src : list aes.state) : list aes.state :=
  match src with
  | [] => []
  | c :: tl => xor_block (aes.InvCipher block c) prev :: cbc_decrypt block c tl
  end.

(** A [cipher.BlockMode]: the block cipher and the initialization vector. *)
Record BlockMode : Type := { mode_block : list aes.state; mode_iv : list byte }.

(** [cipher.NewCBCEncrypter] and [cipher.NewCBCDecrypter] *)
Definition NewCBCEncrypter (block : list aes.state) (iv : list byte)
  : result BlockMode :=
  if len iv =? aes_BlockSize then Ok {| mode_block := block; mode_iv := iv |}
  else Panic "cipher.NewCBCEncrypter: IV length must equal block size".

Definition NewCBCDecrypter (block : list aes.state) (iv : list byte)
  : result BlockMode :=
  if len iv =? aes_BlockSize then Ok {| mode_block := block; mode_iv := iv |}
  else Panic "cipher.NewCBCDecrypter: IV length must equal block size".

(** [mode.CryptBlocks(dst, src)] with [dst] a fresh buffer of [len(src)]
    bytes; the result is the content of [dst]. *)
Definition CryptBlocks_encrypt (mode : BlockMode) (src : list byte)
  : result (list byte) :=
  if Z.rem (len src) aes_BlockSize =? 0 then
    Ok (join_blocks (cbc_encrypt (mode_block mode)
                       (aes.state_of_bytes (mode_iv mode)) (split_blocks src)))
  else Panic "crypto/cipher: input not full blocks".

Definition CryptBlocks_decrypt (mode : BlockMode) (src : list byte)
  : result (list byte) :=
  if Z.rem (len src) aes_BlockSize =? 0 then
    Ok (join_blocks (cbc_decrypt (mode_block mode)
                       (aes.state_of_bytes (mode_iv mode)) (split_blocks src)))
  else Panic "crypto/cipher: input not full blocks".

End cipher.

(* ================================================================== *)
(** * encoding/binary: big-endian 32-bit values *)

Definition BigEndian_Uint32 (b : list byte) : Z :=
  Z_of_byte (nth 0 b x00) * 16777216 + Z_of_byte (nth 1 b x00) * 65536
  + Z_of_byte (nth 2 b x00) * 256 + Z_of_byte (nth 3 b x00).

Definition BigEndian_PutUint32 (v : Z) : list byte :=
  [byte_of_Z (v / 16777216); byte_of_Z (v / 65536); byte_of_Z (v / 256); byte_of_Z v].

(* ================================================================== *)
(** * The message cipher (package wework) *)

Record cryptoImpl : Type := {
  token : string;
  aesKey : list byte;
  corpID : string
}.

(** [NewCrypto] *)
Definition NewCrypto (token encodingAESKey corpID : string) : result cryptoImpl :=
  aesKey <- wrap_err "decode encoding_aes_key: "
              (base64.DecodeString (encodingAESKey +s+ "=")) ;;
  if negb (len aesKey =? 32) then
    Err (Errorf ("invalid aes key length: got " +s+ itoa (len aesKey) +s+ ", want 32"))
  else Ok {| token := token; aesKey := aesKey; corpID := corpID |}.

(** [cryptoImpl.Decrypt].  [decrypted] is the buffer [CryptBlocks] fills;
    [plaintext], the result of [pkcs7Unpad], is a prefix of it that shares
    its backing array, so the slice expression [plaintext[20 : 20+msgLen]]
    is checked against the capacity, the length of [decrypted]. *)
Definition Decrypt (c : cryptoImpl) (encrypted : string) : result (list byte) :=
  ciphertext <- wrap_err "base64 decode: " (base64.DecodeString encrypted) ;;
  if (len ciphertext =? 0) || negb (Z.rem (len ciphertext) aes_BlockSize =? 0) then
    Err (Errorf ("ciphertext length " +s+ itoa (len ciphertext)
                 +s+ " is not a multiple of block size " +s+ itoa aes_BlockSize))
  else
    block <- wrap_err "new aes cipher: " (aes.NewCipher (aesKey c)) ;;
    iv <- subslice (aesKey c) 0 aes_BlockSize ;;
    mode <- cipher.NewCBCDecrypter block iv ;;
    decrypted <- cipher.CryptBlocks_decrypt mode ciphertext ;;
    plaintext <- wrap_err "pkcs7 unpad: " (pkcs7Unpad decrypted) ;;
    if len plaintext <? 20 then
      Err (Errorf ("plaintext too short: " +s+ itoa (len plaintext) +s+ " bytes"))
    else
      lenField <- subslice plaintext 16 20 ;;
      let msgLen := BigEndian_Uint32 lenField in
      if uint32 (len plaintext) <? uint32 (20 + msgLen) then
        Err (Errorf ("invalid msg length: " +s+ itoa msgLen
                     +s+ ", plaintext length: " +s+ itoa (len plaintext)))
      else
        msg <- subslice decrypted 20 (uint32 (20 + msgLen)) ;;
        tail <- subslice plaintext (uint32 (20 + msgLen)) (len plaintext) ;;
        let got := string_of_list_byte tail in
        if negb (String.eqb got (corpID c)) then
          Err (Errorf ("corp_id mismatch: got " +s+ got +s+ ", want " +s+ corpID c))
        else Ok msg.

(** [cryptoImpl.Encrypt].  [rand_Reader] is the outcome of
    [io.ReadFull(rand.Reader, randomBytes)]: the 16 bytes read, or the error
    of the reader. *)
Definition Encrypt (c : cryptoImpl) (rand_Reader : result (list byte))
    (plaintext : list byte) : result string :=
  randomBytes <- wrap_err "generate random bytes: " rand_Reader ;;
  let msgLen := BigEndian_PutUint32 (uint32 (len plaintext)) in
  let buf := randomBytes ++ msgLen ++ plaintext ++ list_byte_of_string (corpID c) in
  let padded := pkcs7Pad buf aes_BlockSize in
  block <- wrap_err "new aes cipher: " (aes.NewCipher (aesKey c)) ;;
  iv <- subslice (aesKey c) 0 aes_BlockSize ;;
  mode <- cipher.NewCBCEncrypter block iv ;;
  ciphertext <- cipher.CryptBlocks_encrypt mode padded ;;
  Ok (base64.EncodeToString ciphertext).

(* ================================================================== *)
(** * crypto/sha1 (FIPS 180-4) *)

Module sha1.

Definition add32 (a b : Z) : Z := (a + b) mod 2 ^ 32.

Definition rotl32 (n x : Z) : Z :=
  Z.lor (Z.shiftl x n mod 2 ^ 32) (Z.shiftr x (32 - n)).

Definition not32 (x : Z) : Z := Z.lxor x 4294967295.

Definition f (t : nat) (b c d : Z) : Z :=
  if (t <? 20)%nat then Z.lor (Z.land b c) (Z.land (not32 b) d)
  else if (t <? 40)%nat then Z.lxor b (Z.lxor c d)
  else if (t <? 60)%nat then Z.lor (Z.land b c) (Z.lor (Z.land b d) (Z.land c d))
  else Z.lxor b (Z.lxor c d).

Definition K (t : nat) : Z :=
  if (t <? 20)%nat then 1518500249
  else if (t <? 40)%nat then 1859775393
  else if (t <? 60)%nat then 2400959708
  else 3395469782.

(** The big-endian bytes of the [n] low bytes of [v]. *)
Fixpoint be_bytes (n : nat) (v : Z) : list byte :=
  match n with
  | O => []
  | S n' => be_bytes n' (v / 256) ++ [byte_of_Z v]
  end.

Fixpoint be_words (l : list byte) : list Z :=
  match l with
  | a :: b :: c :: d :: rest => BigEndian_Uint32 [a; b; c; d] :: be_words rest
  | _ => []
  end.

(** The message followed by the bit 1, zeros, and its length in bits on
    64 bits: a multiple of 64 bytes. *)
Definition pad (msg : list byte) : list byte :=
  let l := len msg in
  let zeros := (55 - l) mod 64 in
  msg ++ [x80] ++ repeat x00 (Z.to_nat zeros) ++ be_bytes 8 (8 * l).

(** The message schedule: [fuel] words are appended to [w]. *)
Fixpoint schedule (fuel : nat) (w : list Z) : list Z :=
  match fuel with
  | O => w
  | S fuel' =>
      let t := List.length w in
      let x := Z.lxor (Z.lxor (nth (t - 3) w 0) (nth (t - 8) w 0))
                      (Z.lxor (nth (t - 14) w 0) (nth (t - 16) w 0)) in
      schedule fuel' (w ++ [rotl32 1 x])
  end.

Definition digest : Type := (Z * Z * Z * Z * Z)%type.

Fixpoint steps (w : list Z) (t : nat) (st : digest) : digest :=
  match w with
  | [] => st
  | wt :: w' =>
      let '(a, b, c, d, e) := st in
      let temp := add32 (add32 (add32 (add32 (rotl32 5 a) (f t b c d)) e) wt) (K t) in
      steps w' (S t) (temp, a, rotl32 30 b, c, d)
  end.

Definition block (h : digest) (chunk : list byte) : digest :=
  let '(h0, h1, h2, h3, h4) := h in
  let '(a, b, c, d, e) := steps (schedule 64 (be_words chunk)) 0 h in
  (add32 h0 a, add32 h1 b, add32 h2 c, add32 h3 d, add32 h4 e).

Fixpoint blocks (n : nat) (h : digest) (data : list byte) : digest :=
  match n with
  | O => h
  | S n' => blocks n' (block h (firstn 64 data)) (skipn 64 data)
  end.

Definition init : digest :=
  (1732584193, 4023233417, 2562383102, 271733878, 3285377520).

(** [sha1.Sum]: the 20 bytes of the digest. *)
Definition Sum (data : list byte) : list byte :=
  let p := pad data in
  let '(h0, h1, h2, h3, h4) := blocks (List.length p / 64) init p in
  be_bytes 4 h0 ++ be_bytes 4 h1 ++ be_bytes 4 h2 ++ be_bytes 4 h3 ++ be_bytes 4 h4.

End sha1.

(** [fmt.Sprintf("%x", b)] of a byte array: two lowercase hexadecimal digits
    per byte. *)
Definition hex_digit (upper : bool) (n : Z) : byte :=
  nth (Z.to_nat n)
    (list_byte_of_string (if upper then "0123456789ABCDEF" else "0123456789abcdef"))
    x00.

Definition hex_bytes (upper : bool) (b : list byte) : list byte :=
  flat_map (fun x => [hex_digit upper (Z_of_byte x / 16);
                      hex_digit upper (Z_of_byte x mod 16)]) b.

Definition Sprintf_x (b : list byte) : string := string_of_list_byte (hex_bytes false b).

(** [fmt.Sprintf("%X", b)], the uppercase rendering. *)
Definition Sprintf_X (b : list byte) : string := string_of_list_byte (hex_bytes true b).

(** [sort.Strings] on a short slice is an insertion sort; strings are
    compared as byte sequences. *)
Fixpoint insert (x : string) (l : list string) : list string :=
  match l with
  | [] => [x]
  | y :: tl => if String.ltb x y then x :: y :: tl else y :: insert x tl
  end.

Definition sort_Strings (l : list string) : list string :=
  fold_left (fun acc x => insert x acc) l [].

(** [strings.Join(l, sep)] *)
Definition strings_Join (l : list string) (sep : string) : string :=
  String.concat sep l.

(** [cryptoImpl.VerifySignature] *)
Definition VerifySignature (c : cryptoImpl)
    (signature timestamp nonce msgEncrypt : string) : bool :=
  let params := sort_Strings [token c; timestamp; nonce; msgEncrypt] in
  let raw := strings_Join params "" in
  let hash := sha1.Sum (list_byte_of_string raw) in
  let computed := Sprintf_x hash in
  String.eqb computed signature.

(* ================================================================== *)
(** * The data model (packages wework and ai) *)

Module ai.

Record ChatRequest : Type := {
  UserID : string;
  Content : string;
  Source : string;
  GroupID : string
}.

Record ChatResponse : Type := { Reply : string }.

(** The interface [ai.Service]: the outcome of [SendMessage] on a request. *)
Definition Service : Type := ChatRequest -> result ChatResponse.

End ai.

Record CallbackQuery : Type := {
  MsgSignature : string;
  Timestamp : string;
  Nonce : string;
  Echostr : string
}.

Module EncryptedBody.
Record t : Type := {
  ToUserName : string;
  AgentID : string;
  Encrypt : string
}.
End EncryptedBody.

Module Message.
Record t : Type := {
  ToUserName : string;
  FromUserName : string;
  CreateTime : Z;
  MsgType : string;
  Content : string;
  MsgID : string;
  AgentID : Z
}.
End Message.

Definition MsgTypeText : string := "text".
Definition MsgTypeImage : string := "image".
Definition MsgTypeEvent : string := "event".

(** The interface [Crypto]. *)
Record Crypto : Type := {
  Crypto_VerifySignature : string -> string -> string -> string -> bool;
  Crypto_Decrypt : string -> result (list byte);
  Crypto_Encrypt : result (list byte) -> list byte -> result string
}.

(** [*cryptoImpl] implements [Crypto]. *)
Definition Crypto_of_cryptoImpl (c : cryptoImpl) : Crypto := {|
  Crypto_VerifySignature := VerifySignature c;
  Crypto_Decrypt := Decrypt c;
  Crypto_Encrypt := Encrypt c
|}.

(* ================================================================== *)
(** * Observable effects *)

(** What a request does besides computing its answer: the calls on the two
    collaborator interfaces and the log records are [action]s; an [event] of
    a request is an action of its own or the start of a goroutine, with the
    actions the goroutine performs. *)
Inductive action : Type :=
| CallVerifySignature (signature timestamp nonce msgEncrypt : string)
| CallDecrypt (encrypted : string)
| CallSendMessage (req : ai.ChatRequest)
| Log (level msg : string) (attrs : list (string * string)).

Inductive event : Type :=
| Do (a : action)
| Go (goroutine : list action).

(** A computation with effects: its trace and its outcome. *)
Definition io (A : Type) : Type := (list event * result A)%type.

Definition io_ret {A : Type} (a : A) : io A := ([], Ok a).

Definition io_bind {A B : Type} (m : io A) (k : A -> io B) : io B :=
  match m with
  | (tr, Ok a) => let (tr', r) := k a in (tr ++ tr', r)
  | (tr, Err e) => (tr, Err e)
  | (tr, Panic p) => (tr, Panic p)
  end.

Notation "x <~ m ;; k" := (io_bind m (fun x => k))
  (at level 61, m at next level, right associativity).
Notation "m ;;; k" := (io_bind m (fun _ => k))
  (at level 61, right associativity).

Definition tell (a : action) : io unit := ([Do a], Ok tt).
Definition spawn (goroutine : list action) : io unit := ([Go goroutine], Ok tt).
Definition fail {A : Type} (e : error) : io A := ([], Err e).
Definition lift {A : Type} (r : result A) : io A := ([], r).

Definition actions_of (e : event) : list action :=
  match e with
  | Do a => [a]
  | Go g => g
  end.

(** The actions of a trace, those of its goroutines included. *)
Definition all_actions (tr : list event) : list action := flat_map actions_of tr.

(** The requests handed to [SendMessage]. *)
Definition sent_request (a : action) : list ai.ChatRequest :=
  match a with
  | CallSendMessage req => [req]
  | _ => []
  end.

Definition sent_requests (tr : list event) : list ai.ChatRequest :=
  flat_map sent_request (all_actions tr).

(** The inputs on which [Decrypt] was called. *)
Definition decrypt_call (a : action) : list string :=
  match a with
  | CallDecrypt enc => [enc]
  | _ => []
  end.

Definition decrypt_calls (tr : list event) : list string :=
  flat_map decrypt_call (all_actions tr).

(* ================================================================== *)
(** * The domain service (service.go) and the HTTP handler (package handler) *)

Record serviceImpl : Type := {
  crypto : Crypto;
  aiSvc : ai.Service
}.

(** [containsMention] *)
Definition containsMention (content : string) : bool :=
  strings_Contains content "@".

(** [serviceImpl.forwardToAI]: what the goroutine does. *)
Definition forwardToAI (s : serviceImpl) (msg : Message.t) : list action :=
  let req := {| ai.UserID := Message.FromUserName msg;
                ai.Content := Message.Content msg;
                ai.Source := "wework";
                ai.GroupID := "" |} in
  CallSendMessage req ::
  match aiSvc s req with
  | Err err =>
      [Log "ERROR" "failed to forward message to AI"
           [("user_id", Message.FromUserName msg); ("error", Error err)]]
  | Ok _ =>
      [Log "INFO" "message forwarded to AI"
           [("msg_id", Message.MsgID msg); ("from_user", Message.FromUserName msg)]]
  | Panic _ => []
  end.

(** [serviceImpl.VerifyURL] *)
Definition VerifyURL (s : serviceImpl) (q : CallbackQuery) : io string :=
  tell (CallVerifySignature (MsgSignature q) (Timestamp q) (Nonce q) (Echostr q)) ;;;
  if negb (Crypto_VerifySignature (crypto s)
             (MsgSignature q) (Timestamp q) (Nonce q) (Echostr q))
  then fail ErrInvalidSignature
  else
    tell (CallDecrypt (Echostr q)) ;;;
    plaintext <~ lift (wrap_err "decrypt echostr: "
                         (Crypto_Decrypt (crypto s) (Echostr q))) ;;
    io_ret (string_of_list_byte plaintext).

Section Service.

(** [xml.Unmarshal] into an [EncryptedBody] and into a [Message]: the
    decoder of encoding/xml is a parameter of the development. *)
Variable xml_Unmarshal_EncryptedBody : list byte -> result EncryptedBody.t.
Variable xml_Unmarshal_Message : list byte -> result Message.t.

(** [serviceImpl.HandleCallback] *)
Definition HandleCallback (s : serviceImpl) (q : CallbackQuery) (body : list byte)
  : io unit :=
  encBody <~ lift (wrap_err "unmarshal encrypted body: "
                     (xml_Unmarshal_EncryptedBody body)) ;;
  tell (CallVerifySignature (MsgSignature q) (Timestamp q) (Nonce q)
          (EncryptedBody.Encrypt encBody)) ;;;
  if negb (Crypto_VerifySignature (crypto s)
             (MsgSignature q) (Timestamp q) (Nonce q) (EncryptedBody.Encrypt encBody))
  then
    tell (Log "WARN" "signature verification failed"
            [("timestamp", Timestamp q); ("nonce", Nonce q)]) ;;;
    fail ErrInvalidSignature
  else
    tell (CallDecrypt (EncryptedBody.Encrypt encBody)) ;;;
    plaintext <~
      match Crypto_Decrypt (crypto s) (EncryptedBody.Encrypt encBody) with
      | Err err =>
          tell (Log "ERROR" "failed to decrypt message" [("error", Error err)]) ;;;
          fail (Errorf_w "decrypt message: " err)
      | other => lift other
      end ;;
    msg <~ lift (wrap_err "unmarshal message: " (xml_Unmarshal_Message plaintext)) ;;
    if negb (String.eqb (Message.MsgType msg) MsgTypeText) then io_ret tt
    else if negb (containsMention (Message.Content msg)) then io_ret tt
    else
      spawn (forwardToAI s msg) ;;;
      io_ret tt.

(** An HTTP request as the handler reads it: the method, the query
    parameters ([r.URL.Query().Get]) and the outcome of reading the body. *)
Record Request : Type := {
  Method : string;
  Query : string -> string;
  Body : result (list byte)
}.

(** What the handler leaves in the [http.ResponseWriter]; a panic that
    escapes the handler aborts the request without a response. *)
Inductive Response : Type :=
| Respond (status : Z) (body : string)
| Aborted (panic : string).

Definition StatusOK : Z := 200.
Definition StatusBadRequest : Z := 400.
Definition StatusForbidden : Z := 403.
Definition StatusMethodNotAllowed : Z := 405.
Definition StatusInternalServerError : Z := 500.

(** [http.Error(w, msg, code)] *)
Definition http_Error (msg : string) (code : Z) : Response :=
  Respond code (msg +s+ String "010"%char EmptyString).

(** [CallbackHandler.handleVerifyURL] *)
Definition handleVerifyURL (svc : serviceImpl) (r : Request)
  : list event * Response :=
  let q := {| MsgSignature := Query r "msg_signature";
              Timestamp := Query r "timestamp";
              Nonce := Query r "nonce";
              Echostr := Query r "echostr" |} in
  match VerifyURL svc q with
  | (tr, Err err) =>
      if errors_Is_ErrInvalidSignature err then
        (tr ++ [Do (Log "WARN" "URL verification signature failed"
                      [("timestamp", Timestamp q); ("nonce", Nonce q)])],
         http_Error "forbidden" StatusForbidden)
      else
        (tr ++ [Do (Log "ERROR" "URL verification failed" [("error", Error err)])],
         http_Error "internal server error" StatusInternalServerError)
  | (tr, Ok plaintext) => (tr, Respond StatusOK plaintext)
  | (tr, Panic p) => (tr, Aborted p)
  end.

(** [CallbackHandler.handleCallback] *)
Definition handleCallback (svc : serviceImpl) (r : Request)
  : list event * Response :=
  match Body r with
  | Err err =>
      ([Do (Log "ERROR" "failed to read request body" [("error", Error err)])],
       http_Error "internal server error" StatusInternalServerError)
  | Panic p => ([], Aborted p)
  | Ok body =>
      let q := {| MsgSignature := Query r "msg_signature";
                  Timestamp := Query r "timestamp";
                  Nonce := Query r "nonce";
                  Echostr := "" |} in
      match HandleCallback svc q body with
      | (tr, Err err) =>
          if strings_Contains (Error err) "unmarshal" then
            (tr ++ [Do (Log "WARN" "callback XML parse failed" [("error", Error err)])],
             http_Error "bad request" StatusBadRequest)
          else if errors_Is_ErrInvalidSignature err then
            (tr ++ [Do (Log "WARN" "callback signature failed"
                          [("timestamp", Timestamp q); ("nonce", Nonce q)])],
             http_Error "forbidden" StatusForbidden)
          else
            (tr ++ [Do (Log "ERROR" "callback processing failed" [("error", Error err)])],
             http_Error "internal server error" StatusInternalServerError)
      | (tr, Ok _) => (tr, Respond StatusOK "success")
      | (tr, Panic p) => (tr, Aborted p)
      end
  end.

(** [CallbackHandler.ServeHTTP] *)
Definition ServeHTTP (svc : serviceImpl) (r : Request) : list event * Response :=
  if String.eqb (Method r) "GET" then handleVerifyURL svc r
  else if String.eqb (Method r) "POST" then handleCallback svc r
  else ([], http_Error "method not allowed" StatusMethodNotAllowed).

End Service.

(* ================================================================== *)
(** * Notions of the specification *)

(** The padding length a buffer announces: its last byte. *)
Definition announced_padding (data : list byte) : Z := Z_of_byte (last data x00).

(** The defects of a padded buffer, in the words of the specification: the
    last byte [p] is 0, or greater than 16, or greater than the length of
    the buffer, or one of the last [p] bytes differs from [p]. *)
Definition bad_padding (data : list byte) : Prop :=
  let p := announced_padding data in
  p = 0 \/ 16 < p \/ len data < p \/
  exists i, len data - p <= i < len data /\
            nth (Z.to_nat i) data x00 <> byte_of_Z p.

(** The steps of [Decrypt] that follow the block decryption (padding
    removal, length field, tenant identifier), on the buffer [decrypted]
    that [CryptBlocks] has filled. *)
Definition unpad_and_parse (c : cryptoImpl) (decrypted : list byte)
  : result (list byte) :=
  plaintext <- wrap_err "pkcs7 unpad: " (pkcs7Unpad decrypted) ;;
  if len plaintext <? 20 then
    Err (Errorf ("plaintext too short: " +s+ itoa (len plaintext) +s+ " bytes"))
  else
    lenField <- subslice plaintext 16 20 ;;
    let msgLen := BigEndian_Uint32 lenField in
    if uint32 (len plaintext) <? uint32 (20 + msgLen) then
      Err (Errorf ("invalid msg length: " +s+ itoa msgLen
                   +s+ ", plaintext length: " +s+ itoa (len plaintext)))
    else
      msg <- subslice decrypted 20 (uint32 (20 + msgLen)) ;;
      tail <- subslice plaintext (uint32 (20 + msgLen)) (len plaintext) ;;
      let got := string_of_list_byte tail in
      if negb (String.eqb got (corpID c)) then
        Err (Errorf ("corp_id mismatch: got " +s+ got +s+ ", want " +s+ corpID c))
      else Ok msg.

(** The wire payload that [Encrypt] assembles before padding. *)
Definition WirePayload (randomBytes plaintext : list byte) (corpID : string)
  : list byte :=
  randomBytes ++ BigEndian_PutUint32 (uint32 (len plaintext)) ++ plaintext
    ++ list_byte_of_string corpID.

(** The key material the configuration admits: a key of 32 bytes. *)
Definition valid_key (c : cryptoImpl) : Prop := len (aesKey c) = 32.

(** The block mode [Encrypt] and [Decrypt] build from a valid key: the
    initialization vector is the first block of the key. *)
Definition mode_of (c : cryptoImpl) : cipher.BlockMode :=
  {| cipher.mode_block := aes.KeyExpansion (aesKey c);
     cipher.mode_iv := firstn 16 (aesKey c) |}.

(** Sample key material: the key of the FIPS 197 examples (bytes [00] to
    [1f]) and a tenant identifier. *)
Definition sample_key : list byte :=
  map (fun n => aes.byte_of_N (N.of_nat n)) (seq 0 32).

Definition sample_crypto : cryptoImpl :=
  {| token := "QDG6eK"; aesKey := sample_key; corpID := "wwcorpid0001" |}.

(** Sixteen bytes standing for the output of the random source: the letters
    [A] to [P]. *)
Definition sample_random : list byte := list_byte_of_string "ABCDEFGHIJKLMNOP".

(** A plaintext of 4 GiB: [2^32] zero bytes. *)
Definition plaintext_4GiB : list byte := repeat x00 (Z.to_nat 4294967296).

(** The length field of a decrypted payload: the big-endian value of its
    bytes 16 to 19. *)
Definition declared_length (plaintext : list byte) : Z :=
  BigEndian_Uint32 (firstn 4 (skipn 16 plaintext)).

(** The ciphertext (under [sample_crypto]) of the 32-byte payload made of
    [sample_random], the length field [ff ff ff ff] and the tenant
    identifier [wwcorpid0001]. *)
Definition ciphertext_length_ffffffff : string :=
  "vyx3HuuV3UaeH6CffeASrxlMmK4WASygLHgqjGIkUsQ7kZ224uY4bm2m8AqAubrd".

(** Lexicographic order on byte strings: a proper prefix comes first, and
    otherwise the first differing byte decides. *)
Inductive lex_le : list byte -> list byte -> Prop :=
| lex_le_nil (l : list byte) : lex_le [] l
| lex_le_lt (a b : byte) (l1 l2 : list byte) :
    Z_of_byte a < Z_of_byte b -> lex_le (a :: l1) (b :: l2)
| lex_le_eq (a : byte) (l1 l2 : list byte) :
    lex_le l1 l2 -> lex_le (a :: l1) (a :: l2).

Definition string_le (s t : string) : Prop :=
  lex_le (list_byte_of_string s) (list_byte_of_string t).

(** The digest of the specification: the SHA-1 hash of the four strings
    concatenated, without separator, in lexicographic byte order. *)
Definition reference_digest (tok timestamp nonce msgEncrypt : string)
    (digest : list byte) : Prop :=
  exists sorted : list string,
    Permutation sorted [tok; timestamp; nonce; msgEncrypt] /\
    StronglySorted string_le sorted /\
    digest = sha1.Sum (list_byte_of_string (fold_right String.append "" sorted)).

(** The signature of the specification: the lowercase hexadecimal rendering
    of that digest. *)
Definition reference_signature (tok timestamp nonce msgEncrypt signature : string)
  : Prop :=
  exists digest,
    reference_digest tok timestamp nonce msgEncrypt digest /\
    signature = string_of_list_byte (hex_bytes false digest).

(* ================================================================== *)
(** * Sample requests

    Key material, messages and requests on which the theorems are
    instantiated.  The ciphertexts are those of AES-256-CBC under
    [sample_crypto] with the random prefix [sample_random]. *)

Definition sample_timestamp : string := "1409659813".
Definition sample_nonce : string := "1372623149".

(** A text message and its XML form. *)
Definition sample_message (content : string) : Message.t :=
  {| Message.ToUserName := "wwcorpid0001";
     Message.FromUserName := "zhangsan";
     Message.CreateTime := 1409659813;
     Message.MsgType := "text";
     Message.Content := content;
     Message.MsgID := "4561255354251345929";
     Message.AgentID := 218 |}.

Definition sample_message_xml (content : string) : string :=
  "<xml><ToUserName><![CDATA[wwcorpid0001]]></ToUserName>" +s+
  "<FromUserName><![CDATA[zhangsan]]></FromUserName>" +s+
  "<CreateTime>1409659813</CreateTime><MsgType><![CDATA[text]]></MsgType>" +s+
  "<Content><![CDATA[" +s+ content +s+ "]]></Content>" +s+
  "<MsgId>4561255354251345929</MsgId><AgentID>218</AgentID></xml>".

Definition sample_mention : string := "@assistant please help".

(** The ciphertext of [sample_message_xml sample_mention]. *)
Definition ciphertext_mention : string :=
    "vyx3HuuV3UaeH6CffeASrxrDg3RclY1ZfvgD3tskqbEY9ETOTOI5yPcMWi/E+OaR4MavPE" +s+
    "c/rP0uaXxQZpv/vTuJqT8Sir2mKkD8BWAen/iMMVYw5wuoyxA8G5kVmOXtZK20ynCLMz+R" +s+
    "tKkdlU8xFNhheCCbgPnan+XNwQQmZ1JyPIBVxGq1UTnDEpLKHlobl8HFMTS7m5mg4COaKX" +s+
    "maUKtKz78KS5asO/vE/WpYv6UEasZwySmjGpRfzdmQFN6o8+6y/dDmzyajqrIjZraibToz" +s+
    "7sRHuaoJKMmviLgQq1EW5z0SRswCtbmsL2OhROf3ucgJE7lg6TsMJUQwHZZGfw/lbbWBk+" +s+
    "59YHQPaFqxiZz9dp6D22+lL29Sj0AcEsl4FjtA6lN8ARoy5j2LDhdb9vmtwW9nEKujk/Iw" +s+
    "nNdCGCWmrmTg83DIvfi6f3U1SJJh".

(** The ciphertext of [sample_message_xml "hello"]. *)
Definition ciphertext_plain : string :=
    "vyx3HuuV3UaeH6CffeASr2neF8DVVkrrxGCzVUOsihU9RHrYIuhtKIvKoZRcA8Inq/qJlN" +s+
    "E4WRkfjQtkIpam3q+2vTHE2wF/RKGPD+kwRCk1dbKSBEto3l7qvcH1hS5sTiUCxYMFr3oa" +s+
    "Hl5YjriD4puIuLtabqkUxhyNNuJAV4LiOxBH3yKIs4qRxjS67O9/8i1hC0B9wK/AknYKsz" +s+
    "0toInv46bYfOhbA9oX3YVKdq5fMVP/qytOX7U+KOllIKxQ2wrjK+2id5fIddD5k1MSb61o" +s+
    "S+tIThH27TW/+hjPQUEm5aSL0fqjPB7XGKAJMhFw3NhmIq5QKOESNZ1IiEw1SWOh1T9g6U" +s+
    "IX5qBOAVQlgkZEOoLooxALzG1rGOZ4PLNZS6xobSyD6Avcq9YJm9D01Q==".

(** The ciphertext of the message [hello] itself. *)
Definition ciphertext_hello : string :=
  "vyx3HuuV3UaeH6CffeASr7+oy/l2mwf7GQSHyNGJBVlB3vZAOJwtq7mc8GTOkjZD".

(** The ciphertext of the echo string [1234567890]. *)
Definition ciphertext_echostr : string :=
  "vyx3HuuV3UaeH6CffeASryegTTbTW5ytXLEi17te+tHyPidB2/Up1LcYbjPjtEqk".

(** The ciphertext of a payload whose message is [hello] and whose trailing
    tenant identifier is the given one. *)
Definition ciphertext_tenant_unmarshal : string :=
  "vyx3HuuV3UaeH6CffeASr8YTDXgcYIYcqiTT91uU52Q7wSD3ry3Yer99EjZOLyI3".
Definition ciphertext_tenant_A : string :=
  "vyx3HuuV3UaeH6CffeASr+Pqmc2Jac10roTfDm8uSR8W17l4pwEg29uG1Wdfchir".
Definition ciphertext_tenant_B : string :=
  "vyx3HuuV3UaeH6CffeASr+Pqmc2Jac10roTfDm8uSR8dYMqr8R0LLszGh4f2Wyok".

(** The signature the platform computes for a ciphertext. *)
Definition sample_signature (msgEncrypt : string) : string :=
  Sprintf_x (sha1.Sum (list_byte_of_string
    (strings_Join (sort_Strings [token sample_crypto; sample_timestamp;
                                 sample_nonce; msgEncrypt]) ""))).

Definition sample_query (signature echostr : string) (name : string) : string :=
  if String.eqb name "msg_signature" then signature
  else if String.eqb name "timestamp" then sample_timestamp
  else if String.eqb name "nonce" then sample_nonce
  else if String.eqb name "echostr" then echostr
  else "".

(** The envelope of a ciphertext and its XML form. *)
Definition sample_envelope (msgEncrypt : string) : EncryptedBody.t :=
  {| EncryptedBody.ToUserName := "wwcorpid0001";
     EncryptedBody.AgentID := "218";
     EncryptedBody.Encrypt := msgEncrypt |}.

Definition sample_envelope_xml (msgEncrypt : string) : string :=
  "<xml><ToUserName><![CDATA[wwcorpid0001]]></ToUserName>" +s+
  "<AgentID><![CDATA[218]]></AgentID>" +s+
  "<Encrypt><![CDATA[" +s+ msgEncrypt +s+ "]]></Encrypt></xml>".

(** A correctly signed POST callback carrying a ciphertext, and a GET
    verification request carrying an echo string. *)
Definition sample_post (signature msgEncrypt : string) : Request :=
  {| Method := "POST";
     Query := sample_query signature "";
     Body := Ok (list_byte_of_string (sample_envelope_xml msgEncrypt)) |}.

Definition sample_get (signature echostr : string) : Request :=
  {| Method := "GET";
     Query := sample_query signature echostr;
     Body := Ok [] |}.

(** What [xml.Unmarshal] returns on the sample documents (and an error on
    every other input). *)
Definition sample_Unmarshal_EncryptedBody (msgEncrypt : string) (body : list byte)
  : result EncryptedBody.t :=
  if String.eqb (string_of_list_byte body) (sample_envelope_xml msgEncrypt)
  then Ok (sample_envelope msgEncrypt)
  else Err (LibError "EOF").

Definition sample_Unmarshal_Message (content : string) (plaintext : list byte)
  : result Message.t :=
  if String.eqb (string_of_list_byte plaintext) (sample_message_xml content)
  then Ok (sample_message content)
  else Err (LibError "EOF").

Definition sample_service : serviceImpl :=
  {| crypto := Crypto_of_cryptoImpl sample_crypto;
     aiSvc := fun _ => Ok {| ai.Reply := "ok" |} |}.

(** The first steps of [Decrypt], up to the block decryption: the buffer
    that [CryptBlocks] fills. *)
Definition decrypted_buffer (c : cryptoImpl) (encrypted : string)
  : result (list byte) :=
  ciphertext <- wrap_err "base64 decode: " (base64.DecodeString encrypted) ;;
  if (len ciphertext =? 0) || negb (Z.rem (len ciphertext) aes_BlockSize =? 0) then
    Err (Errorf ("ciphertext length " +s+ itoa (len ciphertext)
                 +s+ " is not a multiple of block size " +s+ itoa aes_BlockSize))
  else
    block <- wrap_err "new aes cipher: " (aes.NewCipher (aesKey c)) ;;
    iv <- subslice (aesKey c) 0 aes_BlockSize ;;
    mode <- cipher.NewCBCDecrypter block iv ;;
    cipher.CryptBlocks_decrypt mode ciphertext.

(** Where the message body of a decrypted buffer ends: at [20 + L] when the
    padding is valid and the declared length [L] fits in the plaintext; a
    buffer without these has no message body (the end is its start, 20). *)
Definition message_body_end (decrypted : list byte) : Z :=
  match pkcs7Unpad decrypted with
  | Ok plaintext =>
      if 20 + declared_length plaintext <=? len plaintext
      then 20 + declared_length plaintext
      else 20
  | _ => 20
  end.

(** Two decrypted buffers of the same length that differ at most in the
    random prefix (bytes 0 to 15) and in the message body (bytes 20 to
    [20 + L - 1]). *)
Definition same_outside_prefix_and_body (d1 d2 : list byte) : Prop :=
  len d1 = len d2 /\
  forall i : nat,
    16 <= Z.of_nat i < 20 \/ message_body_end d1 <= Z.of_nat i < len d1 ->
    nth i d1 x00 = nth i d2 x00.

(** A second cipher instance: another key and another token, the same
    tenant identifier. *)
Definition other_key : list byte :=
  map (fun n => aes.byte_of_N (N.of_nat (n + 64))) (seq 0 32).

Definition other_crypto : cryptoImpl :=
  {| token := "other"; aesKey := other_key; corpID := "wwcorpid0001" |}.

(** Under [other_crypto], the ciphertext of the payload with random prefix
    [0123456789abcdef], message [world] and tenant identifier
    [top-secret-A]. *)
Definition ciphertext_other_tenant_A : string :=
  "YTSU39bLiiA4bCXl0wSuNkMhEjjOEZrR3+MFI+P58l/a1A9Py85sbJb4aT2tkwtF".

(** The padded payload with the given prefix, message and trailing
    identifier. *)
Definition padded_payload (prefix : string) (msg : string) (tenant : string)
  : list byte :=
  pkcs7Pad (WirePayload (list_byte_of_string prefix) (list_byte_of_string msg) tenant)
    aes_BlockSize.

(** The byte whose only set bit is bit [k]. *)
Definition bit_mask (k : nat) : byte := byte_of_Z (2 ^ Z.of_nat k).

(** [flip_bit l i k]: the buffer [l] with bit [k] of its byte [i] flipped. *)
Definition flip_bit (l : list byte) (i k : nat) : list byte :=
  firstn i l ++
  match skipn i l with
  | b :: tl => aes.bxor b (bit_mask k) :: tl
  | [] => []
  end.


(** The bytes a base64 text stands for (empty when it is not valid). *)
Definition raw_bytes (encoded : string) : list byte :=
  match base64.DecodeString encoded with
  | Ok b => b
  | _ => []
  end.

(** The CBC decryption of a ciphertext of full blocks under the key of
    [c]. *)
Definition cbc_decrypted (c : cryptoImpl) (ciphertext : list byte) : list byte :=
  cipher.join_blocks
    (cipher.cbc_decrypt (aes.KeyExpansion (aesKey c))
       (aes.state_of_bytes (firstn 16 (aesKey c))) (cipher.split_blocks ciphertext)).


(* ================================================================== *)
(** * The configuration (package shared) *)

(** A Go [int] or [int64] result that may leave the 64-bit range: the
    value after wrap-around. *)
Definition int64 (z : Z) : Z := (z + 2 ^ 63) mod 2 ^ 64 - 2 ^ 63.

Module shared.

Record ServerConfig : Type := {
  Addr : string; ReadTimeout : Z; WriteTimeout : Z
}.

Record WeWorkConfig : Type := {
  CorpID : string; Token : string; EncodingAESKey : string; AgentID : Z
}.

Record AIConfig : Type := {
  BaseURL : string; Timeout : Z; Retry : Z
}.

Record LogConfig : Type := {
  Level : string; Format : string
}.

Record Config : Type := {
  Server : ServerConfig; WeWork : WeWorkConfig; AI : AIConfig; Log : LogConfig
}.

(** The character class [[a-zA-Z0-9]]. *)
Definition alphanumeric (ch : ascii) : bool :=
  let n := Z.of_N (N_of_ascii ch) in
  ((97 <=? n) && (n <=? 122)) || ((65 <=? n) && (n <=? 90))
  || ((48 <=? n) && (n <=? 57)).

(** [alphanumericRegex.MatchString], the expression [^[a-zA-Z0-9]+$]: the
    whole string is a non-empty sequence of characters of the class. *)
Definition alphanumericRegex_MatchString (s : string) : bool :=
  negb (String.eqb s "") && forallb alphanumeric (list_ascii_of_string s).

(** What [url.Parse] returns, as far as the validation reads it. *)
Record URL : Type := { Scheme : string; Host : string }.

Section Validate.

(** [net.SplitHostPort] and [url.Parse] are parameters. *)
Variable net_SplitHostPort : string -> result (string * string).
Variable url_Parse : string -> result URL.

(** [validateAddr] *)
Definition validateAddr (addr : string) : result unit :=
  if String.eqb addr "" then Err (Errorf "must not be empty")
  else
    _ <- wrap_err "invalid address format: " (net_SplitHostPort addr) ;;
    Ok tt.

(** [validateBaseURL] *)
Definition validateBaseURL (rawURL : string) : result unit :=
  if String.eqb rawURL "" then Err (Errorf "must not be empty")
  else
    u <- wrap_err "invalid URL: " (url_Parse rawURL) ;;
    if String.eqb (Scheme u) "" || String.eqb (Host u) "" then
      Err (Errorf "must include scheme and host")
    else Ok tt.

(** [Config.validate] *)
Definition validate (c : Config) : result unit :=
  _ <- wrap_err "server.addr: " (validateAddr (Addr (Server c))) ;;
  if String.eqb (CorpID (WeWork c)) "" then
    Err (Errorf "wework.corp_id: must not be empty")
  else if String.eqb (Token (WeWork c)) "" then
    Err (Errorf "wework.token: must not be empty")
  else if slen (Token (WeWork c)) >? 32 then
    Err (Errorf ("wework.token: must be at most 32 characters, got "
                 +s+ itoa (slen (Token (WeWork c)))))
  else if negb (alphanumericRegex_MatchString (Token (WeWork c))) then
    Err (Errorf "wework.token: must contain only alphanumeric characters")
  else if negb (slen (EncodingAESKey (WeWork c)) =? 43) then
    Err (Errorf ("wework.encoding_aes_key: must be exactly 43 characters, got "
                 +s+ itoa (slen (EncodingAESKey (WeWork c)))))
  else if negb (alphanumericRegex_MatchString (EncodingAESKey (WeWork c))) then
    Err (Errorf "wework.encoding_aes_key: must contain only alphanumeric characters")
  else
    _ <- wrap_err "ai.base_url: " (validateBaseURL (BaseURL (AI c))) ;;
    Ok tt.

(** [LoadConfig]: [os.ReadFile] and [yaml.Unmarshal] are parameters. *)
Variable os_ReadFile : string -> result (list byte).
Variable yaml_Unmarshal : list byte -> result Config.

Definition LoadConfig (path : string) : result Config :=
  data <- wrap_err "read config file: " (os_ReadFile path) ;;
  cfg <- wrap_err "parse config file: " (yaml_Unmarshal data) ;;
  _ <- validate cfg ;;
  Ok cfg.

End Validate.

End shared.

(* ================================================================== *)
(** * The AI client (package client) *)

Module client.

Record AIClient : Type := {
  baseURL : string;
  httpTimeout : Z;
  retry : Z
}.

(** [NewAIClient] *)
Definition NewAIClient (cfg : shared.AIConfig) : AIClient :=
  {| baseURL := shared.BaseURL cfg;
     httpTimeout := shared.Timeout cfg;
     retry := shared.Retry cfg |}.

(** What the client does to the outside: a call of [doRequest] (the number
    of the attempt, from 0), the [select] on [ctx.Done()] and
    [time.After(delay)] ([delay] in nanoseconds), a log record. *)
Inductive step : Type :=
| DoRequest (attempt : Z)
| Select (delay : Z)
| LogRecord (level msg : string) (attrs : list (string * string)).

(** The outside of the client: [json.Marshal], [http.NewRequestWithContext]
    on a URL, [httpClient.Do] at the attempt of the given number (the status
    code and what can be read of the body of the response), the JSON
    decoder of the response and, for the wait that follows an attempt,
    whether the context is done first (then with [ctx.Err()]). *)
Record World : Type := {
  json_Marshal : ai.ChatRequest -> result (list byte);
  http_NewRequest : string -> result unit;
  http_Do : Z -> string -> list byte -> result (Z * list byte);
  json_Decode : list byte -> result ai.ChatResponse;
  ctx_Done : Z -> option error
}.

Section Client.

Variable w : World.
Variable c : AIClient.

(** [AIClient.doRequest], at the attempt [i]. *)
Definition doRequest (i : Z) (body : list byte) : result ai.ChatResponse :=
  _ <- wrap_err "create request: " (http_NewRequest w (baseURL c +s+ "/chat")) ;;
  resp <- wrap_err "execute request: " (http_Do w i (baseURL c +s+ "/chat") body) ;;
  let (StatusCode, respBody) := resp in
  if negb (StatusCode =? StatusOK) then
    Err (Errorf ("unexpected status " +s+ itoa StatusCode +s+ ": "
                 +s+ string_of_list_byte respBody))
  else wrap_err "decode response: " (json_Decode w respBody).

(** [time.Duration(500<<uint(i)) * time.Millisecond], in nanoseconds. *)
Definition delay (i : Z) : Z := int64 (int64 (Z.shiftl 500 i) * 1000000).

(** The loop [for i := range attempts] of [SendMessage], from the iteration
    [i] on, with [n] iterations left: it ends with a [return] (left) or
    falls through with [lastErr] (right). *)
Fixpoint attempts_from (body : list byte) (n : nat) (i : Z) (lastErr : option error)
  : list step * (result ai.ChatResponse + option error) :=
  match n with
  | O => ([], inr lastErr)
  | S n' =>
      match doRequest i body with
      | Ok resp => ([DoRequest i], inl (Ok resp))
      | Panic p => ([DoRequest i], inl (Panic p))
      | Err err =>
          if i <? retry c then
            match ctx_Done w i with
            | Some ctxErr => ([DoRequest i; Select (delay i)], inl (Err ctxErr))
            | None =>
                let (tr, r) := attempts_from body n' (i + 1) (Some err) in
                (DoRequest i :: Select (delay i) :: tr, r)
            end
          else
            let (tr, r) := attempts_from body n' (i + 1) (Some err) in
            (DoRequest i :: tr, r)
      end
  end.

(** [AIClient.SendMessage].  When the loop has not run, [lastErr] is nil and
    the verb [%w] renders it as [%!w(<nil>)]. *)
Definition SendMessage (req : ai.ChatRequest) : list step * result ai.ChatResponse :=
  match json_Marshal w req with
  | Err err => ([], Err (Errorf_w "marshal chat request: " err))
  | Panic p => ([], Panic p)
  | Ok body =>
      let attempts := int64 (retry c + 1) in
      match attempts_from body (Z.to_nat attempts) 0 None with
      | (tr, inl r) => (tr, r)
      | (tr, inr lastErr) =>
          (tr ++ [LogRecord "ERROR" "all retries failed for AI request"
                    [("user_id", ai.UserID req); ("attempts", itoa attempts);
                     ("error", match lastErr with
                               | Some err => Error err
                               | None => "<nil>"
                               end)]],
           Err (match lastErr with
                | Some err =>
                    Errorf_w ("send message after " +s+ itoa attempts +s+ " attempts: ") err
                | None =>
                    Errorf ("send message after " +s+ itoa attempts
                            +s+ " attempts: %!w(<nil>)")
                end))
      end
  end.

End Client.

(** The attempts of a trace and its waits. *)
Definition requests (tr : list step) : list Z :=
  flat_map (fun s => match s with DoRequest i => [i] | _ => [] end) tr.

Definition waits (tr : list step) : list Z :=
  flat_map (fun s => match s with Select d => [d] | _ => [] end) tr.

(** The trace of [k] failed attempts, each followed by its wait, from the
    attempt [i] on. *)
Fixpoint failed_attempts (k : nat) (i : Z) : list step :=
  match k with
  | O => []
  | S k' => DoRequest i :: Select (delay i) :: failed_attempts k' (i + 1)
  end.

End client.

(* ================================================================== *)
(** * The assembly of the application (package bootstrap) *)

Module bootstrap.

(** What [NewApp] assembles: the cipher and the client of the domain
    service behind the callback handler, and the settings of the server. *)
Record App : Type := {
  app_crypto : cryptoImpl;
  app_client : client.AIClient;
  server_Addr : string;
  server_ReadTimeout : Z;
  server_WriteTimeout : Z
}.

(** [NewApp] *)
Definition NewApp (cfg : shared.Config) : result App :=
  crypto <- wrap_err "init crypto: "
              (NewCrypto (shared.Token (shared.WeWork cfg))
                         (shared.EncodingAESKey (shared.WeWork cfg))
                         (shared.CorpID (shared.WeWork cfg))) ;;
  let aiClient := client.NewAIClient (shared.AI cfg) in
  Ok {| app_crypto := crypto;
        app_client := aiClient;
        server_Addr := shared.Addr (shared.Server cfg);
        server_ReadTimeout := shared.ReadTimeout (shared.Server cfg);
        server_WriteTimeout := shared.WriteTimeout (shared.Server cfg) |}.

(** [NewApp] gives its one logger to the client and to the domain service,
    and the client to the domain service as its [ai.Service].  What the
    goroutine of [forwardToAI] does then is made of the actions of the
    domain service and, during the call of [SendMessage], of the steps of
    the client, its log records on the same logger among them. *)
Inductive step : Type :=
| Svc (a : action)
| Cli (s : client.step).

(** [serviceImpl.forwardToAI] of the service that [NewApp] wires: the call
    of [SendMessage] runs the client. *)
Definition forwardToAI_wired (w : client.World) (app : App) (msg : Message.t)
  : list step :=
  let req := {| ai.UserID := Message.FromUserName msg;
                ai.Content := Message.Content msg;
                ai.Source := "wework";
                ai.GroupID := "" |} in
  let (tr, r) := client.SendMessage w (app_client app) req in
  Svc (CallSendMessage req) :: map Cli tr ++
  match r with
  | Err err =>
      [Svc (Log "ERROR" "failed to forward message to AI"
              [("user_id", Message.FromUserName msg); ("error", Error err)])]
  | Ok _ =>
      [Svc (Log "INFO" "message forwarded to AI"
              [("msg_id", Message.MsgID msg);
               ("from_user", Message.FromUserName msg)])]
  | Panic _ => []
  end.

(** The records the logger receives, from the domain service and from the
    client, in order: level, message, attributes. *)
Definition logged (tr : list step)
  : list (string * string * list (string * string)) :=
  flat_map (fun s => match s with
                     | Svc (Log level msg attrs) => [(level, msg, attrs)]
                     | Cli (client.LogRecord level msg attrs) => [(level, msg, attrs)]
                     | _ => []
                     end) tr.

(** The actions of the domain service alone. *)
Definition service_actions (tr : list step) : list action :=
  flat_map (fun s => match s with Svc a => [a] | Cli _ => [] end) tr.

End bootstrap.

(* ================================================================== *)
(** * Notions of the further properties *)

(** The errors of [Decrypt], by the step that raises them. *)
Inductive decrypt_error (c : cryptoImpl) : error -> Prop :=
| de_base64 (pos : Z) :
    decrypt_error c (Errorf_w "base64 decode: " (CorruptInputError pos))
| de_blocks (n : Z) :
    decrypt_error c
      (Errorf ("ciphertext length " +s+ itoa n
               +s+ " is not a multiple of block size " +s+ itoa aes_BlockSize))
| de_key :
    decrypt_error c (Errorf_w "new aes cipher: " (KeySizeError (len (aesKey c))))
| de_empty :
    decrypt_error c (Errorf_w "pkcs7 unpad: " (Errorf "empty data"))
| de_pad_value (p : Z) :
    decrypt_error c
      (Errorf_w "pkcs7 unpad: " (Errorf ("invalid padding value: " +s+ itoa p)))
| de_pad_exceeds (p n : Z) :
    decrypt_error c
      (Errorf_w "pkcs7 unpad: "
         (Errorf ("padding " +s+ itoa p +s+ " exceeds data length " +s+ itoa n)))
| de_pad_byte (i : Z) :
    decrypt_error c
      (Errorf_w "pkcs7 unpad: "
         (Errorf ("invalid padding byte at position " +s+ itoa i)))
| de_short (n : Z) :
    decrypt_error c (Errorf ("plaintext too short: " +s+ itoa n +s+ " bytes"))
| de_length (l n : Z) :
    decrypt_error c
      (Errorf ("invalid msg length: " +s+ itoa l
               +s+ ", plaintext length: " +s+ itoa n))
| de_tenant (got : string) :
    got <> corpID c ->
    decrypt_error c
      (Errorf ("corp_id mismatch: got " +s+ got +s+ ", want " +s+ corpID c)).

(** The query of a request, as both handlers read it. *)
Definition signature_checked (svc : serviceImpl) (r : Request) (msgEncrypt : string)
  : bool :=
  Crypto_VerifySignature (crypto svc) (Query r "msg_signature")
    (Query r "timestamp") (Query r "nonce") msgEncrypt.

(** The status of a response (0 for a request that was aborted). *)
Definition status_of (resp : Response) : Z :=
  match resp with
  | Respond status _ => status
  | Aborted _ => 0
  end.

(** A client that retries twice, and three outsides of it: the service
    answers 503 twice and then 200; it always answers 503; it answers 503
    and the context is done during the first wait. *)
Definition sample_client : client.AIClient :=
  {| client.baseURL := "http://ai.local"; client.httpTimeout := 30;
     client.retry := 2 |}.

Definition sample_chat : ai.ChatRequest :=
  {| ai.UserID := "zhangsan"; ai.Content := "@assistant please help";
     ai.Source := "wework"; ai.GroupID := "" |}.

Definition sample_world (failures : Z) (done : option error) : client.World :=
  {| client.json_Marshal := fun _ => Ok (list_byte_of_string "{}");
     client.http_NewRequest := fun _ => Ok tt;
     client.http_Do := fun i _ _ =>
       if i <? failures then Ok (503, list_byte_of_string "busy")
       else Ok (200, list_byte_of_string "{}");
     client.json_Decode := fun _ => Ok {| ai.Reply := "hi" |};
     client.ctx_Done := fun _ => done |}.





(* ================================================================== *)
(** * The AES cipher is a permutation of the blocks *)

Module aes_facts.
Import aes.

Lemma nth_all_bytes (b : byte) : nth (Byte.to_nat b) all_bytes x00 = b.
Proof. destruct b; reflexivity. Qed.

Lemma all_bytes_In (b : byte) : In b all_bytes.
Proof.
  rewrite <- (nth_all_bytes b). apply nth_In.
  apply Nat.ltb_lt. destruct b; reflexivity.
Qed.

Lemma forall_byte (P : byte -> bool) :
  forallb P all_bytes = true -> forall b, P b = true.
Proof.
  intros H b. rewrite forallb_forall in H. apply H, all_bytes_In.
Qed.

Lemma forall_byte2 (P : byte -> byte -> bool) :
  forallb (fun a => forallb (P a) all_bytes) all_bytes = true ->
  forall a b, P a b = true.
Proof.
  intros H a b.
  apply (forall_byte (P a)). revert a. apply forall_byte. exact H.
Qed.

Lemma to_N_inj (a b : byte) : Byte.to_N a = Byte.to_N b -> a = b.
Proof.
  intros H. assert (E : Some a = Some b).
  { rewrite <- (Byte.of_to_N a), <- (Byte.of_to_N b), H. reflexivity. }
  now inversion E.
Qed.

Lemma to_N_bxor (a b : byte) :
  Byte.to_N (bxor a b) = N.lxor (Byte.to_N a) (Byte.to_N b).
Proof.
  apply N.eqb_eq. revert a b.
  apply (forall_byte2 (fun a b => (Byte.to_N (bxor a b) =? N.lxor (Byte.to_N a) (Byte.to_N b))%N)).
  vm_compute. reflexivity.
Qed.

Ltac bxor_solve :=
  apply to_N_inj; rewrite ?to_N_bxor; apply N.bits_inj; intro;
  rewrite ?N.lxor_spec; btauto.

Lemma bxor_comm a b : bxor a b = bxor b a.
Proof. bxor_solve. Qed.


Lemma bxor_cancel a b : bxor (bxor a b) b = a.
Proof. bxor_solve. Qed.

Lemma bxor_0_r a : bxor a x00 = a.
Proof. apply Byte.byte_dec_bl. revert a. apply forall_byte. vm_compute. reflexivity. Qed.

Lemma bxor_0_l a : bxor x00 a = a.
Proof. rewrite bxor_comm. apply bxor_0_r. Qed.

Lemma inv_sbox_sbox b : inv_sbox (sbox b) = b.
Proof. apply Byte.byte_dec_bl. revert b. apply forall_byte. vm_compute. reflexivity. Qed.

Lemma sbox_inv_sbox b : sbox (inv_sbox b) = b.
Proof. apply Byte.byte_dec_bl. revert b. apply forall_byte. vm_compute. reflexivity. Qed.

Lemma xtime_xor a b : xtime (bxor a b) = bxor (xtime a) (xtime b).
Proof.
  apply Byte.byte_dec_bl. revert a b.
  apply (forall_byte2 (fun a b => Byte.eqb (xtime (bxor a b)) (bxor (xtime a) (xtime b)))).
  vm_compute. reflexivity.
Qed.


Lemma mul2_xor a b : mul2 (bxor a b) = bxor (mul2 a) (mul2 b).
Proof. apply xtime_xor. Qed.

Lemma mul3_xor a b : mul3 (bxor a b) = bxor (mul3 a) (mul3 b).
Proof. unfold mul3. rewrite xtime_xor. bxor_solve. Qed.

Lemma mul9_xor a b : mul9 (bxor a b) = bxor (mul9 a) (mul9 b).
Proof. unfold mul9. rewrite !xtime_xor. bxor_solve. Qed.

Lemma mul11_xor a b : mul11 (bxor a b) = bxor (mul11 a) (mul11 b).
Proof. unfold mul11. rewrite !xtime_xor. bxor_solve. Qed.

Lemma mul13_xor a b : mul13 (bxor a b) = bxor (mul13 a) (mul13 b).
Proof. unfold mul13. rewrite !xtime_xor. bxor_solve. Qed.

Lemma mul14_xor a b : mul14 (bxor a b) = bxor (mul14 a) (mul14 b).
Proof. unfold mul14. rewrite !xtime_xor. bxor_solve. Qed.

Lemma bxor_interchange a a' b b' c c' d d' :
  bxor (bxor (bxor (bxor a a') (bxor b b')) (bxor c c')) (bxor d d') =
  bxor (bxor (bxor (bxor a b) c) d) (bxor (bxor (bxor a' b') c') d').
Proof. bxor_solve. Qed.

Lemma MixColumn_xor u v :
  MixColumn (xor_word u v) = xor_word (MixColumn u) (MixColumn v).
Proof.
  destruct u, v; unfold MixColumn, xor_word.
  rewrite !mul2_xor, !mul3_xor.
  f_equal; apply bxor_interchange.
Qed.

Lemma InvMixColumn_xor u v :
  InvMixColumn (xor_word u v) = xor_word (InvMixColumn u) (InvMixColumn v).
Proof.
  destruct u, v; unfold InvMixColumn, xor_word.
  rewrite !mul9_xor, !mul11_xor, !mul13_xor, !mul14_xor.
  f_equal; apply bxor_interchange.
Qed.

Lemma word_eqb_eq u v : word_eqb u v = true -> u = v.
Proof.
  destruct u, v; simpl. rewrite !andb_true_iff.
  intros [[[H1 H2] H3] H4].
  apply Byte.byte_dec_bl in H1, H2, H3, H4. now subst.
Qed.

(** The four single-byte columns span the words. *)
Lemma word_split a b c d :
  W a b c d =
  xor_word (W a x00 x00 x00)
    (xor_word (W x00 b x00 x00) (xor_word (W x00 x00 c x00) (W x00 x00 x00 d))).
Proof. simpl. now rewrite !bxor_0_r, !bxor_0_l. Qed.

Ltac by_bytes :=
  match goal with
  | |- forall a : byte, ?u = ?v =>
      let H := fresh in
      intro a; apply word_eqb_eq; revert a;
      apply forall_byte; vm_compute; reflexivity
  end.

Lemma InvMix_Mix_0 : forall a, InvMixColumn (MixColumn (W a x00 x00 x00)) = W a x00 x00 x00.
Proof. by_bytes. Qed.
Lemma InvMix_Mix_1 : forall a, InvMixColumn (MixColumn (W x00 a x00 x00)) = W x00 a x00 x00.
Proof. by_bytes. Qed.
Lemma InvMix_Mix_2 : forall a, InvMixColumn (MixColumn (W x00 x00 a x00)) = W x00 x00 a x00.
Proof. by_bytes. Qed.
Lemma InvMix_Mix_3 : forall a, InvMixColumn (MixColumn (W x00 x00 x00 a)) = W x00 x00 x00 a.
Proof. by_bytes. Qed.
Lemma Mix_InvMix_0 : forall a, MixColumn (InvMixColumn (W a x00 x00 x00)) = W a x00 x00 x00.
Proof. by_bytes. Qed.
Lemma Mix_InvMix_1 : forall a, MixColumn (InvMixColumn (W x00 a x00 x00)) = W x00 a x00 x00.
Proof. by_bytes. Qed.
Lemma Mix_InvMix_2 : forall a, MixColumn (InvMixColumn (W x00 x00 a x00)) = W x00 x00 a x00.
Proof. by_bytes. Qed.
Lemma Mix_InvMix_3 : forall a, MixColumn (InvMixColumn (W x00 x00 x00 a)) = W x00 x00 x00 a.
Proof. by_bytes. Qed.

Lemma InvMixColumn_MixColumn u : InvMixColumn (MixColumn u) = u.
Proof.
  destruct u as [a b c d]. rewrite (word_split a b c d).
  rewrite !MixColumn_xor, !InvMixColumn_xor.
  now rewrite InvMix_Mix_0, InvMix_Mix_1, InvMix_Mix_2, InvMix_Mix_3.
Qed.

Lemma MixColumn_InvMixColumn u : MixColumn (InvMixColumn u) = u.
Proof.
  destruct u as [a b c d]. rewrite (word_split a b c d).
  rewrite !InvMixColumn_xor, !MixColumn_xor.
  now rewrite Mix_InvMix_0, Mix_InvMix_1, Mix_InvMix_2, Mix_InvMix_3.
Qed.

Lemma InvMixColumns_MixColumns s : InvMixColumns (MixColumns s) = s.
Proof. destruct s; simpl. now rewrite !InvMixColumn_MixColumn. Qed.

Lemma MixColumns_InvMixColumns s : MixColumns (InvMixColumns s) = s.
Proof. destruct s; simpl. now rewrite !MixColumn_InvMixColumn. Qed.

Lemma InvShiftRows_ShiftRows s : InvShiftRows (ShiftRows s) = s.
Proof. destruct s as [[] [] [] []]; reflexivity. Qed.

Lemma ShiftRows_InvShiftRows s : ShiftRows (InvShiftRows s) = s.
Proof. destruct s as [[] [] [] []]; reflexivity. Qed.

Lemma InvSubBytes_SubBytes s : InvSubBytes (SubBytes s) = s.
Proof. destruct s as [[] [] [] []]; simpl. now rewrite !inv_sbox_sbox. Qed.

Lemma SubBytes_InvSubBytes s : SubBytes (InvSubBytes s) = s.
Proof. destruct s as [[] [] [] []]; simpl. now rewrite !sbox_inv_sbox. Qed.

Lemma xor_word_cancel u k : xor_word (xor_word u k) k = u.
Proof. destruct u, k; simpl. now rewrite !bxor_cancel. Qed.

Lemma AddRoundKey_cancel s rk : AddRoundKey (AddRoundKey s rk) rk = s.
Proof. destruct s, rk; simpl. now rewrite !xor_word_cancel. Qed.

Lemma inv_round_round s rk : inv_round (round s rk) rk = s.
Proof.
  unfold inv_round, round.
  now rewrite AddRoundKey_cancel, InvMixColumns_MixColumns,
    InvShiftRows_ShiftRows, InvSubBytes_SubBytes.
Qed.

Lemma round_inv_round s rk : round (inv_round s rk) rk = s.
Proof.
  unfold inv_round, round.
  now rewrite SubBytes_InvSubBytes, ShiftRows_InvShiftRows,
    MixColumns_InvMixColumns, AddRoundKey_cancel.
Qed.

Lemma inv_final_round_final_round s rk : inv_final_round (final_round s rk) rk = s.
Proof.
  unfold inv_final_round, final_round.
  now rewrite AddRoundKey_cancel, InvShiftRows_ShiftRows, InvSubBytes_SubBytes.
Qed.

Lemma final_round_inv_final_round s rk : final_round (inv_final_round s rk) rk = s.
Proof.
  unfold inv_final_round, final_round.
  now rewrite SubBytes_InvSubBytes, ShiftRows_InvShiftRows, AddRoundKey_cancel.
Qed.

Lemma inv_rounds_rounds rks : forall s, inv_rounds (rounds s rks) rks = s.
Proof.
  induction rks as [|rk tl IH]; intros s; [reflexivity|].
  destruct tl as [|rk' tl].
  - apply inv_final_round_final_round.
  - change (inv_round (inv_rounds (rounds (round s rk) (rk' :: tl)) (rk' :: tl)) rk = s).
    rewrite IH. apply inv_round_round.
Qed.

Lemma rounds_inv_rounds rks : forall s, rounds (inv_rounds s rks) rks = s.
Proof.
  induction rks as [|rk tl IH]; intros s; [reflexivity|].
  destruct tl as [|rk' tl].
  - apply final_round_inv_final_round.
  - change (rounds (round (inv_round (inv_rounds s (rk' :: tl)) rk) rk) (rk' :: tl) = s).
    rewrite round_inv_round. apply IH.
Qed.

(** The inverse cipher undoes the cipher, whatever the round keys. *)
Lemma InvCipher_Cipher rks s : InvCipher rks (Cipher rks s) = s.
Proof.
  destruct rks as [|rk0 tl]; [reflexivity|]. simpl.
  rewrite inv_rounds_rounds. apply AddRoundKey_cancel.
Qed.

Lemma Cipher_InvCipher rks s : Cipher rks (InvCipher rks s) = s.
Proof.
  destruct rks as [|rk0 tl]; [reflexivity|]. simpl.
  rewrite AddRoundKey_cancel. apply rounds_inv_rounds.
Qed.

End aes_facts.
(* ================================================================== *)
(** * Bytes, lengths and slices *)

Lemma len_nonneg {A : Type} (l : list A) : 0 <= len l.
Proof. unfold len. lia. Qed.

Lemma len_app {A : Type} (l1 l2 : list A) : len (l1 ++ l2) = len l1 + len l2.
Proof. unfold len. rewrite length_app. lia. Qed.

Lemma len_cons {A : Type} (x : A) (l : list A) : len (x :: l) = 1 + len l.
Proof. unfold len. simpl List.length. lia. Qed.

Lemma len_repeat {A : Type} (x : A) (n : nat) : len (repeat x n) = Z.of_nat n.
Proof. unfold len. now rewrite repeat_length. Qed.

Lemma len_firstn_le {A : Type} (n : Z) (l : list A) :
  0 <= n <= len l -> len (firstn (Z.to_nat n) l) = n.
Proof. unfold len. intros H. rewrite length_firstn. lia. Qed.

Lemma len_skipn {A : Type} (n : Z) (l : list A) :
  0 <= n <= len l -> len (skipn (Z.to_nat n) l) = len l - n.
Proof. unfold len. intros H. rewrite length_skipn. lia. Qed.

Lemma len_list_byte_of_string (s : string) : len (list_byte_of_string s) = slen s.
Proof.
  unfold len, slen, list_byte_of_string. rewrite length_map. f_equal.
  induction s as [|a s IH]; simpl; congruence.
Qed.

Lemma Z_of_byte_range (b : byte) : 0 <= Z_of_byte b < 256.
Proof.
  unfold Z_of_byte. pose proof (Byte.to_N_bounded b). lia.
Qed.

Lemma byte_of_Z_of_byte (b : byte) : byte_of_Z (Z_of_byte b) = b.
Proof.
  unfold byte_of_Z. pose proof (Z_of_byte_range b).
  rewrite Z.mod_small by assumption. unfold Z_of_byte.
  now rewrite N2Z.id, Byte.of_to_N.
Qed.

Lemma Z_of_byte_of_Z (z : Z) : Z_of_byte (byte_of_Z z) = z mod 256.
Proof.
  unfold byte_of_Z, Z_of_byte.
  pose proof (Z.mod_pos_bound z 256 ltac:(lia)) as Hz.
  destruct (Byte.of_N (Z.to_N (z mod 256))) as [b|] eqn:E.
  - apply Byte.to_of_N in E. rewrite E. lia.
  - apply Byte.of_N_None_iff in E. lia.
Qed.

Lemma Z_of_byte_of_Z_small (z : Z) : 0 <= z < 256 -> Z_of_byte (byte_of_Z z) = z.
Proof. intros H. rewrite Z_of_byte_of_Z. now apply Z.mod_small. Qed.

Lemma byte_of_Z_mod (z : Z) : byte_of_Z (z mod 256) = byte_of_Z z.
Proof. unfold byte_of_Z. now rewrite Z.mod_mod by lia. Qed.


Lemma rem_16 (z : Z) : 0 <= z -> Z.rem z aes_BlockSize = z mod 16.
Proof. intros H. apply Z.rem_mod_nonneg; unfold aes_BlockSize; lia. Qed.

Lemma subslice_ok (s : list byte) (lo hi : Z) :
  0 <= lo <= hi -> hi <= len s ->
  subslice s lo hi = Ok (firstn (Z.to_nat (hi - lo)) (skipn (Z.to_nat lo) s)).
Proof.
  intros H1 H2. unfold subslice.
  replace (0 <=? lo) with true by (symmetry; apply Z.leb_le; lia).
  replace (lo <=? hi) with true by (symmetry; apply Z.leb_le; lia).
  replace (hi <=? len s) with true by (symmetry; apply Z.leb_le; lia).
  reflexivity.
Qed.

Lemma subslice_inverted (s : list byte) (lo hi : Z) :
  hi < lo -> exists m, subslice s lo hi = Panic m.
Proof.
  intros H. unfold subslice.
  replace (lo <=? hi) with false by (symmetry; apply Z.leb_gt; lia).
  rewrite andb_false_r. simpl. eauto.
Qed.

(* ================================================================== *)
(** * PKCS#7 padding *)

(** The padding length chosen by [pkcs7Pad] for blocks of 16 bytes. *)
Lemma pad_length_range (data : list byte) :
  1 <= aes_BlockSize - Z.rem (len data) aes_BlockSize <= 16.
Proof.
  rewrite rem_16 by apply len_nonneg. unfold aes_BlockSize.
  pose proof (Z.mod_pos_bound (len data) 16 ltac:(lia)). lia.
Qed.

Lemma len_pkcs7Pad (data : list byte) :
  len (pkcs7Pad data aes_BlockSize) =
  len data + (aes_BlockSize - Z.rem (len data) aes_BlockSize).
Proof.
  unfold pkcs7Pad. rewrite len_app, len_repeat.
  pose proof (pad_length_range data). lia.
Qed.

Lemma pkcs7Pad_full_blocks (data : list byte) :
  Z.rem (len (pkcs7Pad data aes_BlockSize)) aes_BlockSize = 0.
Proof.
  rewrite len_pkcs7Pad.
  pose proof (pad_length_range data) as Hp. pose proof (len_nonneg data) as Hl.
  rewrite (rem_16 (len data)) in * by assumption.
  rewrite rem_16 by lia. unfold aes_BlockSize in *.
  pose proof (Z.div_mod (len data) 16 ltac:(lia)) as Hd.
  replace (len data + (16 - len data mod 16)) with ((len data / 16 + 1) * 16) by lia.
  apply Z.mod_mul. lia.
Qed.

Lemma check_padding_repeat (p : byte) (n : nat) (i : Z) :
  check_padding (repeat p n) i p = None.
Proof.
  revert i. induction n as [|n IH]; intros i; simpl; [reflexivity|].
  rewrite (Byte.byte_dec_lb (eq_refl p)). apply IH.
Qed.

Lemma last_app_repeat {A : Type} (l : list A) (x d : A) (n : nat) :
  (0 < n)%nat -> last (l ++ repeat x n) d = x.
Proof.
  intros Hn. destruct n as [|n]; [lia|].
  replace (repeat x (S n)) with (repeat x n ++ [x]).
  - rewrite app_assoc. apply last_last.
  - change [x] with (repeat x 1). rewrite <- repeat_app. f_equal. lia.
Qed.

(** Unpadding undoes padding. *)
Lemma pkcs7Unpad_pkcs7Pad (data : list byte) :
  pkcs7Unpad (pkcs7Pad data aes_BlockSize) = Ok data.
Proof.
  pose proof (pad_length_range data) as Hp.
  pose proof (len_pkcs7Pad data) as Hlen.
  pose proof (len_nonneg data) as Hl.
  unfold pkcs7Unpad. rewrite Hlen.
  set (p := aes_BlockSize - Z.rem (len data) aes_BlockSize) in *.
  assert (Hlast : last (pkcs7Pad data aes_BlockSize) x00 = byte_of_Z p).
  { unfold pkcs7Pad. fold p. apply last_app_repeat. lia. }
  rewrite Hlast, Z_of_byte_of_Z_small by lia.
  replace (len data + p =? 0) with false by (symmetry; apply Z.eqb_neq; lia).
  replace (p =? 0) with false by (symmetry; apply Z.eqb_neq; lia).
  replace (p >? aes_BlockSize) with false
    by (symmetry; rewrite Z.gtb_ltb; apply Z.ltb_ge; unfold aes_BlockSize; lia).
  replace (p >? len data + p) with false
    by (symmetry; rewrite Z.gtb_ltb; apply Z.ltb_ge; lia).
  cbn [orb].
  replace (len data + p - p) with (len data) by lia.
  unfold pkcs7Pad. fold p. unfold len. rewrite Nat2Z.id.
  rewrite skipn_app, skipn_all, Nat.sub_diag, skipn_O. cbn [app].
  rewrite check_padding_repeat.
  rewrite firstn_app, firstn_all, Nat.sub_diag, firstn_O, app_nil_r. reflexivity.
Qed.

Lemma check_padding_Some (tail : list byte) (p : byte) :
  forall i j, check_padding tail i p = Some j ->
  i <= j < i + len tail /\ nth (Z.to_nat (j - i)) tail x00 <> p.
Proof.
  induction tail as [|b tl IH]; intros i j H; simpl in H; [discriminate|].
  rewrite len_cons. destruct (Byte.eqb b p) eqn:E.
  - apply IH in H. destruct H as [Hr Hn]. split; [lia|].
    replace (Z.to_nat (j - i)) with (S (Z.to_nat (j - (i + 1)))) by lia.
    exact Hn.
  - inversion H; subst j. pose proof (len_nonneg tl). split; [lia|].
    rewrite Z.sub_diag. simpl. now apply Byte.eqb_false.
Qed.

Lemma check_padding_None (tail : list byte) (p : byte) :
  forall i, check_padding tail i p = None ->
  forall n, (n < List.length tail)%nat -> nth n tail x00 = p.
Proof.
  induction tail as [|b tl IH]; intros i H n Hn; simpl in *; [lia|].
  destruct (Byte.eqb b p) eqn:E; [|discriminate].
  destruct n as [|n].
  - now apply Byte.byte_dec_bl.
  - apply (IH _ H). lia.
Qed.

(** C6.  Padding validation: [pkcs7Unpad] returns an error exactly on the
    buffers whose last byte [p] is 0, or greater than 16, or greater than
    the length of the buffer, or whose last [p] bytes are not all equal to
    [p]; on every other buffer it returns the buffer without its last [p]
    bytes.  (The empty buffer, which has no last byte, is rejected too: its
    announced padding counts as 0.) *)
Theorem pkcs7Unpad_validation (data : list byte) :
  (bad_padding data /\ exists msg, pkcs7Unpad data = Err (Errorf msg)) \/
  (~ bad_padding data /\
   exists out pad, data = out ++ pad /\ len pad = announced_padding data /\
                   pkcs7Unpad data = Ok out).
Proof.
  unfold pkcs7Unpad, bad_padding. fold (announced_padding data).
  set (p := announced_padding data).
  pose proof (len_nonneg data) as Hl.
  destruct (len data =? 0) eqn:E0.
  { left. apply Z.eqb_eq in E0. split; [|eauto].
    destruct data as [|b tl]; [|rewrite len_cons in E0; pose proof (len_nonneg tl); lia].
    left. reflexivity. }
  apply Z.eqb_neq in E0.
  destruct ((p =? 0) || (p >? aes_BlockSize)) eqn:E1.
  { left. split; [|eauto]. apply orb_true_iff in E1.
    destruct E1 as [E1|E1]; [left; now apply Z.eqb_eq|].
    right; left. rewrite Z.gtb_ltb in E1. apply Z.ltb_lt in E1.
    unfold aes_BlockSize in E1. lia. }
  apply orb_false_iff in E1. destruct E1 as [E1 E2].
  apply Z.eqb_neq in E1. rewrite Z.gtb_ltb in E2. apply Z.ltb_ge in E2.
  unfold aes_BlockSize in E2.
  pose proof (Z_of_byte_range (last data x00)) as Hp. fold (announced_padding data) in Hp.
  fold p in Hp.
  destruct (p >? len data) eqn:E3.
  { left. split; [|eauto]. rewrite Z.gtb_ltb in E3. apply Z.ltb_lt in E3. tauto. }
  rewrite Z.gtb_ltb in E3. apply Z.ltb_ge in E3.
  destruct (check_padding _ _ _) as [j|] eqn:E4.
  - left. split; [|eauto]. right; right; right.
    apply check_padding_Some in E4. destruct E4 as [Hj Hn].
    rewrite len_skipn in Hj by lia.
    exists j. split; [lia|].
    rewrite nth_skipn in Hn.
    replace (Z.to_nat (len data - p) + Z.to_nat (j - (len data - p)))%nat
      with (Z.to_nat j) in Hn by lia.
    exact Hn.
  - right. split.
    + intros [H|[H|[H|[i [Hi Hn]]]]]; try lia.
      apply Hn.
      pose proof (check_padding_None _ _ _ E4 (Z.to_nat (i - (len data - p)))) as Hc.
      rewrite nth_skipn in Hc.
      replace (Z.to_nat (len data - p) + Z.to_nat (i - (len data - p)))%nat
        with (Z.to_nat i) in Hc by lia.
      apply Hc. rewrite length_skipn. unfold len in *. lia.
    + exists (firstn (Z.to_nat (len data - p)) data),
             (skipn (Z.to_nat (len data - p)) data).
      split; [now rewrite firstn_skipn|]. split; [|reflexivity].
      rewrite len_skipn by lia. lia.
Qed.

(* ================================================================== *)
(** * base64: decoding undoes encoding *)

Module base64_facts.
Import base64.

Lemma decodeMap_enc (v : Z) : 0 <= v < 64 -> decodeMap (enc v) = Some v.
Proof.
  intros Hv. rewrite <- (Z2Nat.id v) by lia.
  assert (Hn : (Z.to_nat v < 64)%nat) by lia.
  revert Hn. generalize (Z.to_nat v) as n. clear Hv. intros n Hn.
  do 64 (destruct n as [|n]; [reflexivity|]). lia.
Qed.

Lemma decode_digit (c : byte) (v : Z) (tl : list byte) (si : Z) (dbuf : list Z) :
  decodeMap c = Some v ->
  decode (c :: tl) si dbuf =
  if len (dbuf ++ [v]) =? 4 then
    rest <- decode tl (si + 1) [] ;;
    Ok (byte_of_Z (quantum4 (dbuf ++ [v]) / 65536)
        :: byte_of_Z (quantum4 (dbuf ++ [v]) / 256)
        :: byte_of_Z (quantum4 (dbuf ++ [v])) :: rest)
  else decode tl (si + 1) (dbuf ++ [v]).
Proof. intros H. cbn [decode]. rewrite H. reflexivity. Qed.

Lemma quantum3_range (a b c : byte) : 0 <= quantum3 a b c < 16777216.
Proof.
  unfold quantum3.
  pose proof (Z_of_byte_range a). pose proof (Z_of_byte_range b).
  pose proof (Z_of_byte_range c). lia.
Qed.

Lemma quantum4_digits (v : Z) :
  0 <= v < 16777216 ->
  quantum4 [v / 262144; v / 4096 mod 64; v / 64 mod 64; v mod 64] = v.
Proof. intros H. unfold quantum4. cbn [nth]. Z.div_mod_to_equations. lia. Qed.

Lemma quantum3_bytes (a b c : byte) :
  byte_of_Z (quantum3 a b c / 65536) = a /\
  byte_of_Z (quantum3 a b c / 256) = b /\
  byte_of_Z (quantum3 a b c) = c.
Proof.
  pose proof (Z_of_byte_range a). pose proof (Z_of_byte_range b).
  pose proof (Z_of_byte_range c). unfold quantum3. repeat split.
  - rewrite <- (byte_of_Z_of_byte a) at 2. f_equal. Z.div_mod_to_equations. lia.
  - rewrite <- (byte_of_Z_of_byte b) at 2. rewrite <- byte_of_Z_mod. f_equal.
    Z.div_mod_to_equations. lia.
  - rewrite <- (byte_of_Z_of_byte c) at 2. rewrite <- byte_of_Z_mod. f_equal.
    Z.div_mod_to_equations. lia.
Qed.

Lemma digits_range (v : Z) :
  0 <= v < 16777216 ->
  0 <= v / 262144 < 64 /\ 0 <= v / 4096 mod 64 < 64 /\
  0 <= v / 64 mod 64 < 64 /\ 0 <= v mod 64 < 64.
Proof. intros H. Z.div_mod_to_equations. lia. Qed.

Lemma quantum4_two (v : Z) :
  0 <= v < 16777216 ->
  quantum4 [v / 262144; v / 4096 mod 64] / 65536 = v / 65536.
Proof. intros H. unfold quantum4. cbn [nth]. Z.div_mod_to_equations. lia. Qed.

Lemma quantum4_three (v : Z) :
  0 <= v < 16777216 ->
  quantum4 [v / 262144; v / 4096 mod 64; v / 64 mod 64] / 65536 = v / 65536 /\
  quantum4 [v / 262144; v / 4096 mod 64; v / 64 mod 64] / 256 = v / 256.
Proof. intros H. unfold quantum4. cbn [nth]. Z.div_mod_to_equations. lia. Qed.

Lemma decode_pad_two (d0 d1 si : Z) :
  decode [padChar; padChar] si [d0; d1] = Ok [byte_of_Z (quantum4 [d0; d1] / 65536)].
Proof. reflexivity. Qed.

Lemma decode_pad_three (d0 d1 d2 si : Z) :
  decode [padChar] si [d0; d1; d2] =
  Ok [byte_of_Z (quantum4 [d0; d1; d2] / 65536); byte_of_Z (quantum4 [d0; d1; d2] / 256)].
Proof. reflexivity. Qed.

(** Lists, three elements at a time. *)
Lemma list_ind3 {A : Type} (P : list A -> Prop) :
  P [] -> (forall a, P [a]) -> (forall a b, P [a; b]) ->
  (forall a b c l, P l -> P (a :: b :: c :: l)) ->
  forall l, P l.
Proof.
  intros H0 H1 H2 H3.
  assert (H : forall l, P l /\ (forall a, P (a :: l)) /\ (forall a b, P (a :: b :: l))).
  { induction l as [|x l [IH0 [IH1 IH2]]]; repeat split; auto. }
  intros l. apply H.
Qed.

Ltac decode_step D :=
  rewrite (decode_digit _ _ _ _ _ (decodeMap_enc _ D));
  cbn [app len List.length Z.of_nat Pos.of_succ_nat Pos.succ Z.eqb Pos.eqb].

Lemma decode_encode (src : list byte) :
  forall si, decode (encode src) si [] = Ok src.
Proof.
  induction src as [|a|a b|a b c rest IH] using list_ind3; intros si.
  - reflexivity.
  - cbn [encode].
    pose proof (quantum3_range a x00 x00) as Hr.
    pose proof (digits_range _ Hr) as [D0 [D1 _]].
    decode_step D0. decode_step D1.
    rewrite decode_pad_two, (quantum4_two _ Hr).
    destruct (quantum3_bytes a x00 x00) as [Ha _]. now rewrite Ha.
  - cbn [encode].
    pose proof (quantum3_range a b x00) as Hr.
    pose proof (digits_range _ Hr) as [D0 [D1 [D2 _]]].
    decode_step D0. decode_step D1. decode_step D2.
    rewrite decode_pad_three.
    destruct (quantum4_three _ Hr) as [E1 E2]. rewrite E1, E2.
    destruct (quantum3_bytes a b x00) as [Ha [Hb _]]. now rewrite Ha, Hb.
  - cbn [encode].
    pose proof (quantum3_range a b c) as Hr.
    pose proof (digits_range _ Hr) as [D0 [D1 [D2 D3]]].
    decode_step D0. decode_step D1. decode_step D2. decode_step D3.
    rewrite IH. cbn [bind]. rewrite (quantum4_digits _ Hr).
    destruct (quantum3_bytes a b c) as [Ha [Hb Hc]]. now rewrite Ha, Hb, Hc.
Qed.

Lemma DecodeString_EncodeToString (src : list byte) :
  DecodeString (EncodeToString src) = Ok src.
Proof.
  unfold DecodeString, EncodeToString.
  rewrite list_byte_of_string_of_list_byte. apply decode_encode.
Qed.

End base64_facts.

(* ================================================================== *)
(** * CBC mode: decryption undoes encryption *)

Module cipher_facts.
Import aes aes_facts cipher.

Lemma state_of_bytes_of_state (s : state) : state_of_bytes (bytes_of_state s) = s.
Proof. destruct s as [[] [] [] []]. reflexivity. Qed.

Lemma split_join (l : list state) : split_blocks (join_blocks l) = l.
Proof.
  unfold join_blocks. induction l as [|s l IH]; [reflexivity|].
  destruct s as [[] [] [] []]. cbn. now rewrite IH.
Qed.

Lemma join_split_n (n : nat) :
  forall src, List.length src = (16 * n)%nat -> join_blocks (split_blocks src) = src.
Proof.
  unfold join_blocks. induction n as [|n IH]; intros src H.
  - destruct src; [reflexivity|discriminate].
  - do 16 (destruct src as [|? src]; [simpl in H; lia|]).
    cbn. do 16 f_equal. apply IH. simpl in H. lia.
Qed.

Lemma join_split (src : list byte) :
  Z.rem (len src) aes_BlockSize = 0 -> join_blocks (split_blocks src) = src.
Proof.
  intros H. rewrite rem_16 in H by apply len_nonneg.
  apply (join_split_n (Z.to_nat (len src / 16))).
  unfold len in *. Z.div_mod_to_equations. lia.
Qed.

Lemma len_join_blocks (l : list state) : len (join_blocks l) = 16 * len l.
Proof.
  unfold join_blocks, len. induction l as [|s l IH]; [reflexivity|].
  cbn [flat_map]. rewrite length_app. destruct s as [[] [] [] []].
  cbn [bytes_of_state bytes_of_word app List.length]. lia.
Qed.

Lemma length_cbc_encrypt block (src : list state) :
  forall prev, List.length (cbc_encrypt block prev src) = List.length src.
Proof. induction src as [|p tl IH]; intros prev; simpl; auto. Qed.

Lemma length_cbc_decrypt block (src : list state) :
  forall prev, List.length (cbc_decrypt block prev src) = List.length src.
Proof. induction src as [|p tl IH]; intros prev; simpl; auto. Qed.

Lemma cbc_decrypt_encrypt block (src : list state) :
  forall prev, cbc_decrypt block prev (cbc_encrypt block prev src) = src.
Proof.
  induction src as [|p tl IH]; intros prev; [reflexivity|].
  cbn [cbc_encrypt cbc_decrypt]. rewrite IH. f_equal.
  unfold xor_block. rewrite InvCipher_Cipher. apply AddRoundKey_cancel.
Qed.

Lemma len_split_blocks (src : list byte) :
  Z.rem (len src) aes_BlockSize = 0 -> 16 * len (split_blocks src) = len src.
Proof.
  intros H. rewrite <- (join_split src H) at 2. now rewrite len_join_blocks.
Qed.

(** The ciphertext has the length of the plaintext. *)
Lemma CryptBlocks_encrypt_ok (mode : BlockMode) (src : list byte) :
  Z.rem (len src) aes_BlockSize = 0 ->
  exists dst, CryptBlocks_encrypt mode src = Ok dst /\ len dst = len src /\
              CryptBlocks_decrypt mode dst = Ok src.
Proof.
  intros H. unfold CryptBlocks_encrypt. rewrite H. cbn [Z.eqb].
  eexists. split; [reflexivity|].
  assert (L : len (join_blocks (cbc_encrypt (mode_block mode)
                (state_of_bytes (mode_iv mode)) (split_blocks src))) = len src).
  { rewrite len_join_blocks. unfold len at 1. rewrite length_cbc_encrypt.
    fold (len (split_blocks src)). now apply len_split_blocks. }
  split; [exact L|].
  unfold CryptBlocks_decrypt. rewrite L, H. cbn [Z.eqb].
  now rewrite split_join, cbc_decrypt_encrypt, join_split.
Qed.

End cipher_facts.

(* ================================================================== *)
(** * The message cipher: [Decrypt] after [Encrypt] *)

Lemma firstn_app_exact {A : Type} (n : nat) (l1 l2 : list A) :
  List.length l1 = n -> firstn n (l1 ++ l2) = l1.
Proof.
  intros H. rewrite firstn_app, H, Nat.sub_diag, firstn_O, app_nil_r.
  rewrite <- H. apply firstn_all.
Qed.

Lemma skipn_app_exact {A : Type} (n : nat) (l1 l2 : list A) :
  List.length l1 = n -> skipn n (l1 ++ l2) = l2.
Proof.
  intros H. rewrite skipn_app, H, Nat.sub_diag, skipn_O.
  rewrite <- H, skipn_all. reflexivity.
Qed.

Lemma uint32_small (z : Z) : 0 <= z < 4294967296 -> uint32 z = z.
Proof. intros H. unfold uint32. apply Z.mod_small. lia. Qed.

Lemma uint32_range (z : Z) : 0 <= uint32 z < 4294967296.
Proof. unfold uint32. apply Z.mod_pos_bound. lia. Qed.

Lemma BigEndian_Uint32_PutUint32 (v : Z) :
  0 <= v < 4294967296 -> BigEndian_Uint32 (BigEndian_PutUint32 v) = v.
Proof.
  intros H. unfold BigEndian_Uint32, BigEndian_PutUint32. cbn [nth].
  rewrite !Z_of_byte_of_Z. Z.div_mod_to_equations. lia.
Qed.

Lemma BigEndian_Uint32_range (b : list byte) : 0 <= BigEndian_Uint32 b < 4294967296.
Proof.
  unfold BigEndian_Uint32.
  pose proof (Z_of_byte_range (nth 0 b x00)). pose proof (Z_of_byte_range (nth 1 b x00)).
  pose proof (Z_of_byte_range (nth 2 b x00)). pose proof (Z_of_byte_range (nth 3 b x00)).
  lia.
Qed.

Lemma len_PutUint32 (v : Z) : List.length (BigEndian_PutUint32 v) = 4%nat.
Proof. reflexivity. Qed.

(** [Decrypt] is the block decryption followed by [unpad_and_parse]. *)
Lemma Decrypt_unfold (c : cryptoImpl) (encrypted : string) :
  Decrypt c encrypted =
  (ciphertext <- wrap_err "base64 decode: " (base64.DecodeString encrypted) ;;
   if (len ciphertext =? 0) || negb (Z.rem (len ciphertext) aes_BlockSize =? 0) then
     Err (Errorf ("ciphertext length " +s+ itoa (len ciphertext)
                  +s+ " is not a multiple of block size " +s+ itoa aes_BlockSize))
   else
     block <- wrap_err "new aes cipher: " (aes.NewCipher (aesKey c)) ;;
     iv <- subslice (aesKey c) 0 aes_BlockSize ;;
     mode <- cipher.NewCBCDecrypter block iv ;;
     decrypted <- cipher.CryptBlocks_decrypt mode ciphertext ;;
     unpad_and_parse c decrypted).
Proof. reflexivity. Qed.

Lemma NewCipher_valid (c : cryptoImpl) :
  valid_key c -> aes.NewCipher (aesKey c) = Ok (aes.KeyExpansion (aesKey c)).
Proof. unfold valid_key, aes.NewCipher. intros ->. reflexivity. Qed.

Lemma iv_valid (c : cryptoImpl) :
  valid_key c -> subslice (aesKey c) 0 aes_BlockSize = Ok (firstn 16 (aesKey c)).
Proof.
  unfold valid_key. intros H. rewrite subslice_ok by (unfold aes_BlockSize; lia).
  reflexivity.
Qed.

Lemma len_iv (c : cryptoImpl) : valid_key c -> len (firstn 16 (aesKey c)) = 16.
Proof.
  unfold valid_key. intros H. change 16%nat with (Z.to_nat 16).
  apply len_firstn_le. lia.
Qed.

(** On a ciphertext of full blocks [Decrypt] is the CBC decryption followed
    by [unpad_and_parse]. *)
Lemma Decrypt_encoded (c : cryptoImpl) (ciphertext decrypted : list byte) :
  valid_key c -> 0 < len ciphertext ->
  cipher.CryptBlocks_decrypt (mode_of c) ciphertext = Ok decrypted ->
  Decrypt c (base64.EncodeToString ciphertext) = unpad_and_parse c decrypted.
Proof.
  intros Hk Hpos Hd. rewrite Decrypt_unfold.
  rewrite base64_facts.DecodeString_EncodeToString. cbn [wrap_err bind].
  assert (Hrem : Z.rem (len ciphertext) aes_BlockSize = 0).
  { unfold cipher.CryptBlocks_decrypt in Hd.
    destruct (Z.rem (len ciphertext) aes_BlockSize =? 0) eqn:E; [|discriminate].
    now apply Z.eqb_eq. }
  replace (len ciphertext =? 0) with false by (symmetry; apply Z.eqb_neq; lia).
  rewrite Hrem. cbn [Z.eqb negb orb].
  rewrite (NewCipher_valid c Hk). cbn [wrap_err bind].
  rewrite (iv_valid c Hk). cbn [bind].
  unfold cipher.NewCBCDecrypter. rewrite (len_iv c Hk). cbn [Z.eqb Pos.eqb aes_BlockSize bind].
  fold (mode_of c). rewrite Hd. reflexivity.
Qed.

(** [Encrypt] succeeds, and [Decrypt] on its result is [unpad_and_parse] on
    the padded wire payload. *)
Lemma Decrypt_Encrypt_payload (c : cryptoImpl) (randomBytes plaintext : list byte) :
  valid_key c ->
  exists encrypted,
    Encrypt c (Ok randomBytes) plaintext = Ok encrypted /\
    Decrypt c encrypted =
    unpad_and_parse c
      (pkcs7Pad (WirePayload randomBytes plaintext (corpID c)) aes_BlockSize).
Proof.
  intros Hk. unfold Encrypt. cbn [wrap_err bind].
  rewrite (NewCipher_valid c Hk). cbn [wrap_err bind].
  rewrite (iv_valid c Hk). cbn [bind].
  unfold cipher.NewCBCEncrypter. rewrite (len_iv c Hk). cbn [Z.eqb Pos.eqb aes_BlockSize bind].
  fold (mode_of c). fold (WirePayload randomBytes plaintext (corpID c)).
  set (padded := pkcs7Pad (WirePayload randomBytes plaintext (corpID c)) aes_BlockSize).
  destruct (cipher_facts.CryptBlocks_encrypt_ok (mode_of c) padded
              (pkcs7Pad_full_blocks _)) as [ct [He [Hl Hd]]].
  rewrite He. cbn [bind]. eexists. split; [reflexivity|].
  apply Decrypt_encoded; [assumption| |assumption].
  rewrite Hl. unfold padded. rewrite len_pkcs7Pad.
  pose proof (pad_length_range (WirePayload randomBytes plaintext (corpID c))).
  pose proof (len_nonneg (WirePayload randomBytes plaintext (corpID c))). lia.
Qed.

Lemma len_WirePayload (randomBytes plaintext : list byte) (corp : string) :
  len (WirePayload randomBytes plaintext corp) =
  len randomBytes + 4 + len plaintext + slen corp.
Proof.
  unfold WirePayload. rewrite !len_app, len_list_byte_of_string.
  unfold len at 2. rewrite len_PutUint32. lia.
Qed.

(** What the parsing steps see in a padded wire payload whose random prefix
    has 16 bytes: the length field is [uint32 (len plaintext)], and the rest
    is cut there. *)
Lemma unpad_and_parse_payload (c : cryptoImpl) (randomBytes plaintext : list byte) :
  len randomBytes = 16 ->
  let payload := WirePayload randomBytes plaintext (corpID c) in
  let hi := uint32 (20 + uint32 (len plaintext)) in
  unpad_and_parse c (pkcs7Pad payload aes_BlockSize) =
  if uint32 (len payload) <? hi then
    Err (Errorf ("invalid msg length: " +s+ itoa (uint32 (len plaintext))
                 +s+ ", plaintext length: " +s+ itoa (len payload)))
  else
    msg <- subslice (pkcs7Pad payload aes_BlockSize) 20 hi ;;
    tail <- subslice payload hi (len payload) ;;
    let got := string_of_list_byte tail in
    if negb (String.eqb got (corpID c)) then
      Err (Errorf ("corp_id mismatch: got " +s+ got +s+ ", want " +s+ corpID c))
    else Ok msg.
Proof.
  intros Hr payload hi. unfold unpad_and_parse.
  rewrite pkcs7Unpad_pkcs7Pad. cbn [wrap_err bind].
  pose proof (len_WirePayload randomBytes plaintext (corpID c)) as Hlen.
  fold payload in Hlen.
  pose proof (len_nonneg plaintext). unfold slen in Hlen.
  replace (len payload <? 20) with false by (symmetry; apply Z.ltb_ge; lia).
  rewrite subslice_ok by lia. cbn [bind].
  assert (Hf : firstn (Z.to_nat (20 - 16)) (skipn (Z.to_nat 16) payload)
               = BigEndian_PutUint32 (uint32 (len plaintext))).
  { unfold payload, WirePayload.
    rewrite skipn_app_exact by (unfold len in Hr; lia).
    now rewrite firstn_app_exact by reflexivity. }
  rewrite Hf, BigEndian_Uint32_PutUint32 by apply uint32_range.
  reflexivity.
Qed.

Lemma string_of_list_byte_length (l : list byte) :
  String.length (string_of_list_byte l) = List.length l.
Proof.
  unfold string_of_list_byte.
  induction l as [|b l IH]; simpl; congruence.
Qed.

Lemma slen_string_of_list_byte (l : list byte) : slen (string_of_list_byte l) = len l.
Proof. unfold slen, len. now rewrite string_of_list_byte_length. Qed.

(** C1 (amended).  Round trip: for every 32-byte key, every tenant
    identifier, every 16 random bytes and every plaintext such that the wire
    payload (20 bytes of header, the plaintext, the tenant identifier) is
    shorter than [2^32] bytes, [Encrypt] succeeds and [Decrypt] returns exactly
    the plaintext on its result. *)
Theorem Decrypt_Encrypt_roundtrip (c : cryptoImpl) (randomBytes plaintext : list byte) :
  valid_key c -> len randomBytes = 16 ->
  20 + len plaintext + slen (corpID c) < 4294967296 ->
  exists encrypted,
    Encrypt c (Ok randomBytes) plaintext = Ok encrypted /\
    Decrypt c encrypted = Ok plaintext.
Proof.
  intros Hk Hr Hsmall.
  destruct (Decrypt_Encrypt_payload c randomBytes plaintext Hk) as [enc [He Hd]].
  exists enc. split; [exact He|]. rewrite Hd.
  rewrite (unpad_and_parse_payload c randomBytes plaintext Hr).
  pose proof (len_WirePayload randomBytes plaintext (corpID c)) as Hlen.
  pose proof (len_nonneg plaintext) as Hp.
  assert (Hc : 0 <= slen (corpID c)) by (unfold slen; lia).
  set (payload := WirePayload randomBytes plaintext (corpID c)) in *.
  rewrite (uint32_small (len plaintext)) by lia.
  rewrite (uint32_small (20 + len plaintext)) by lia.
  rewrite (uint32_small (len payload)) by lia.
  replace (len payload <? 20 + len plaintext) with false
    by (symmetry; apply Z.ltb_ge; lia).
  pose proof (pad_length_range payload) as Hpad.
  rewrite subslice_ok by (rewrite ?len_pkcs7Pad; lia). cbn [bind].
  rewrite subslice_ok by lia. cbn [bind].
  assert (Hmsg : firstn (Z.to_nat (20 + len plaintext - 20))
                   (skipn (Z.to_nat 20) (pkcs7Pad payload aes_BlockSize)) = plaintext).
  { unfold pkcs7Pad, payload, WirePayload.
    rewrite (app_assoc randomBytes), <- !app_assoc, (app_assoc randomBytes).
    rewrite skipn_app_exact
      by (rewrite length_app, len_PutUint32; unfold len in Hr; lia).
    apply firstn_app_exact. unfold len. lia. }
  replace (len payload - (20 + len plaintext)) with (slen (corpID c)) by lia.
  assert (Htail : firstn (Z.to_nat (slen (corpID c)))
                    (skipn (Z.to_nat (20 + len plaintext)) payload)
                  = list_byte_of_string (corpID c)).
  { unfold payload, WirePayload.
    rewrite (app_assoc randomBytes), (app_assoc (randomBytes ++ _)).
    rewrite skipn_app_exact
      by (rewrite !length_app, len_PutUint32; unfold len in *; lia).
    apply firstn_all2. pose proof (len_list_byte_of_string (corpID c)).
    unfold len, slen in *. lia. }
  rewrite Hmsg, Htail, string_of_list_byte_of_string, String.eqb_refl.
  reflexivity.
Qed.

(** A plaintext of exactly [2^32] bytes is encrypted with a length field of
    zero, and [Decrypt] then takes the whole plaintext for a part of the
    tenant identifier. *)
Lemma Decrypt_Encrypt_4GiB (c : cryptoImpl) (randomBytes plaintext : list byte) :
  valid_key c -> len randomBytes = 16 -> len plaintext = 4294967296 ->
  slen (corpID c) < 4294967296 - 20 ->
  exists encrypted,
    Encrypt c (Ok randomBytes) plaintext = Ok encrypted /\
    Decrypt c encrypted =
    Err (Errorf ("corp_id mismatch: got "
                 +s+ string_of_list_byte (plaintext ++ list_byte_of_string (corpID c))
                 +s+ ", want " +s+ corpID c)).
Proof.
  intros Hk Hr Hbig Hc.
  destruct (Decrypt_Encrypt_payload c randomBytes plaintext Hk) as [enc [He Hd]].
  exists enc. split; [exact He|]. rewrite Hd.
  rewrite (unpad_and_parse_payload c randomBytes plaintext Hr).
  pose proof (len_WirePayload randomBytes plaintext (corpID c)) as Hlen.
  assert (Hc0 : 0 <= slen (corpID c)) by (unfold slen; lia).
  set (payload := WirePayload randomBytes plaintext (corpID c)) in *.
  rewrite Hbig.
  change (uint32 4294967296) with 0. change (uint32 (20 + 0)) with 20.
  assert (Hu : uint32 (len payload) = 20 + slen (corpID c)).
  { unfold uint32. rewrite Hlen, Hr. change (2 ^ 32) with 4294967296.
    Z.div_mod_to_equations. lia. }
  rewrite Hu.
  replace (20 + slen (corpID c) <? 20) with false by (symmetry; apply Z.ltb_ge; lia).
  pose proof (pad_length_range payload) as Hpad.
  rewrite subslice_ok by (rewrite ?len_pkcs7Pad; lia). cbn [bind].
  rewrite subslice_ok by lia. cbn [bind].
  replace (len payload - 20) with (len plaintext + slen (corpID c)) by lia.
  assert (Htail : firstn (Z.to_nat (len plaintext + slen (corpID c)))
                    (skipn (Z.to_nat 20) payload)
                  = plaintext ++ list_byte_of_string (corpID c)).
  { unfold payload, WirePayload. rewrite (app_assoc randomBytes).
    rewrite skipn_app_exact
      by (rewrite length_app, len_PutUint32; unfold len in Hr; lia).
    apply firstn_all2. rewrite length_app.
    pose proof (len_list_byte_of_string (corpID c)).
    unfold len, slen in *. lia. }
  rewrite Htail.
  destruct (String.eqb _ (corpID c)) eqn:E; [|reflexivity].
  apply String.eqb_eq in E. apply (f_equal slen) in E.
  rewrite slen_string_of_list_byte, len_app, len_list_byte_of_string in E. lia.
Qed.

Lemma valid_sample_key : valid_key sample_crypto.
Proof. reflexivity. Qed.

(** C1, witness of the amended theorem: the plaintext [hello]. *)
Lemma Decrypt_Encrypt_roundtrip_witness :
  exists encrypted,
    Encrypt sample_crypto (Ok sample_random) (list_byte_of_string "hello") = Ok encrypted /\
    Decrypt sample_crypto encrypted = Ok (list_byte_of_string "hello").
Proof.
  apply (Decrypt_Encrypt_roundtrip sample_crypto sample_random (list_byte_of_string "hello")).
  - reflexivity.
  - reflexivity.
  - vm_compute. reflexivity.
Defined.

(** C1 as stated fails: the 4 GiB plaintext is encrypted, and [Decrypt]
    rejects the result with a tenant-mismatch error. *)
Lemma roundtrip_fails_at_4GiB :
  exists encrypted e,
    Encrypt sample_crypto (Ok sample_random) plaintext_4GiB = Ok encrypted /\
    Decrypt sample_crypto encrypted = Err e.
Proof.
  destruct (Decrypt_Encrypt_4GiB sample_crypto sample_random plaintext_4GiB)
    as [enc [He Hd]].
  - reflexivity.
  - reflexivity.
  - unfold plaintext_4GiB. rewrite len_repeat. apply Z2Nat.id. lia.
  - vm_compute. reflexivity.
  - exists enc. eexists. split; [exact He|exact Hd].
Qed.

(* ================================================================== *)
(** * The length field *)

(** The length check of [Decrypt] adds in 32 bits: a declared length of at
    least [2^32 - 20] passes it, and the slice expression that follows
    panics. *)
Lemma length_field_wraparound (c : cryptoImpl) (decrypted plaintext : list byte) :
  pkcs7Unpad decrypted = Ok plaintext ->
  20 <= len plaintext < 4294967296 ->
  4294967296 - 20 <= declared_length plaintext ->
  unpad_and_parse c decrypted =
  Panic ("slice bounds out of range [20:"
         +s+ itoa (20 + declared_length plaintext - 4294967296) +s+ "]").
Proof.
  intros Hu Hlen Hbig. unfold unpad_and_parse. rewrite Hu. cbn [wrap_err bind].
  replace (len plaintext <? 20) with false by (symmetry; apply Z.ltb_ge; lia).
  rewrite subslice_ok by lia. cbn [bind].
  change (Z.to_nat (20 - 16)) with 4%nat. change (Z.to_nat 16) with 16%nat.
  fold (declared_length plaintext).
  pose proof (BigEndian_Uint32_range (firstn 4 (skipn 16 plaintext))) as Hr.
  fold (declared_length plaintext) in Hr.
  assert (Hw : uint32 (20 + declared_length plaintext)
               = 20 + declared_length plaintext - 4294967296).
  { unfold uint32. change (2 ^ 32) with 4294967296. Z.div_mod_to_equations. lia. }
  rewrite Hw, uint32_small by lia.
  replace (len plaintext <? 20 + declared_length plaintext - 4294967296)
    with false by (symmetry; apply Z.ltb_ge; lia).
  unfold subslice.
  replace (20 <=? 20 + declared_length plaintext - 4294967296)
    with false by (symmetry; apply Z.leb_gt; lia).
  reflexivity.
Qed.

(** Below that bound the check is exact: a declared length that exceeds the
    plaintext is rejected with the length-mismatch error. *)
Lemma length_field_checked (c : cryptoImpl) (decrypted plaintext : list byte) :
  pkcs7Unpad decrypted = Ok plaintext ->
  20 <= len plaintext < 4294967296 ->
  declared_length plaintext < 4294967296 - 20 ->
  len plaintext < 20 + declared_length plaintext ->
  unpad_and_parse c decrypted =
  Err (Errorf ("invalid msg length: " +s+ itoa (declared_length plaintext)
               +s+ ", plaintext length: " +s+ itoa (len plaintext))).
Proof.
  intros Hu Hlen Hsmall Hexceeds. unfold unpad_and_parse. rewrite Hu. cbn [wrap_err bind].
  replace (len plaintext <? 20) with false by (symmetry; apply Z.ltb_ge; lia).
  rewrite subslice_ok by lia. cbn [bind].
  change (Z.to_nat (20 - 16)) with 4%nat. change (Z.to_nat 16) with 16%nat.
  fold (declared_length plaintext).
  pose proof (BigEndian_Uint32_range (firstn 4 (skipn 16 plaintext))) as Hr.
  fold (declared_length plaintext) in Hr.
  rewrite !uint32_small by lia.
  replace (len plaintext <? 20 + declared_length plaintext)
    with true by (symmetry; apply Z.ltb_lt; lia).
  reflexivity.
Qed.

(** C3.  The specification requires a length-mismatch error whenever [20 + L]
    exceeds the length of the plaintext, and no panic.  On the ciphertext
    of a payload of 32 bytes whose length field is [ff ff ff ff],
    [20 + L = 4294967315] exceeds 32, and [Decrypt] panics: the sum wraps to
    19, the check passes and the slice [plaintext[20:19]] is out of range. *)
Theorem Decrypt_panics_on_length_wraparound :
  Decrypt sample_crypto ciphertext_length_ffffffff =
  Panic "slice bounds out of range [20:19]".
Proof. vm_compute. reflexivity. Qed.

(* ================================================================== *)
(** * Signature verification *)

Lemma Z_of_byte_of_ascii (a : ascii) : Z_of_byte (byte_of_ascii a) = Z.of_N (N_of_ascii a).
Proof.
  unfold Z_of_byte. f_equal. apply Byte.to_of_N. symmetry.
  apply byte_of_ascii_via_N.
Qed.

Lemma list_byte_of_String (a : ascii) (s : string) :
  list_byte_of_string (String a s) = byte_of_ascii a :: list_byte_of_string s.
Proof. reflexivity. Qed.

Lemma byte_of_ascii_inj (a b : ascii) : byte_of_ascii a = byte_of_ascii b -> a = b.
Proof.
  intros H. rewrite <- (ascii_of_byte_of_ascii a), <- (ascii_of_byte_of_ascii b).
  now f_equal.
Qed.

(** The order of [sort.Strings] is the lexicographic order on bytes. *)
Lemma leb_string_le (s t : string) : String.leb s t = true <-> string_le s t.
Proof.
  unfold string_le, String.leb. revert t.
  induction s as [|a s IH]; intros [|b t]; cbn [String.compare].
  - split; [constructor|reflexivity].
  - split; [constructor|reflexivity].
  - split; [discriminate|]. rewrite list_byte_of_String. intros H. inversion H.
  - rewrite !list_byte_of_String. unfold Ascii.compare.
    destruct (N.compare_spec (N_of_ascii a) (N_of_ascii b)) as [E|L|G].
    + assert (a = b) by
        (rewrite <- (ascii_N_embedding a), <- (ascii_N_embedding b); now f_equal).
      subst b. rewrite IH. split; intros H.
      * now apply lex_le_eq.
      * inversion H; subst; [lia|assumption].
    + split; [intros _|reflexivity]. apply lex_le_lt.
      rewrite !Z_of_byte_of_ascii. lia.
    + split; [discriminate|]. intros H. inversion H; subst.
      * rewrite !Z_of_byte_of_ascii in *. lia.
      * match goal with E : byte_of_ascii _ = byte_of_ascii _ |- _ =>
          apply byte_of_ascii_inj in E; subst end. lia.
Qed.

Lemma lex_le_refl (l : list byte) : lex_le l l.
Proof. induction l; constructor; assumption. Qed.

Lemma lex_le_trans (l1 l2 l3 : list byte) : lex_le l1 l2 -> lex_le l2 l3 -> lex_le l1 l3.
Proof.
  intros H. revert l3. induction H as [l|a b l1 l2 Hab|a l1 l2 H IH]; intros l3 H3.
  - constructor.
  - inversion H3; subst.
    + apply lex_le_lt. lia.
    + now apply lex_le_lt.
  - inversion H3; subst.
    + now apply lex_le_lt.
    + apply lex_le_eq. now apply IH.
Qed.

Lemma lex_le_antisym (l1 l2 : list byte) : lex_le l1 l2 -> lex_le l2 l1 -> l1 = l2.
Proof.
  intros H. induction H as [l|a b l1 l2 Hab|a l1 l2 H IH]; intros H'.
  - now inversion H'.
  - inversion H'; subst; lia.
  - inversion H'; subst; [lia|]. f_equal. now apply IH.
Qed.

Lemma string_le_trans (s t u : string) : string_le s t -> string_le t u -> string_le s u.
Proof. apply lex_le_trans. Qed.

Lemma string_le_antisym (s t : string) : string_le s t -> string_le t s -> s = t.
Proof.
  intros H1 H2. pose proof (lex_le_antisym _ _ H1 H2) as E.
  rewrite <- (string_of_list_byte_of_string s), <- (string_of_list_byte_of_string t).
  now f_equal.
Qed.

Lemma ltb_false_le (x y : string) : String.ltb x y = false -> string_le y x.
Proof.
  intros H. apply leb_string_le. unfold String.ltb, String.leb in *.
  rewrite String.compare_antisym. destruct (String.compare x y); try reflexivity.
  discriminate.
Qed.

Lemma ltb_true_le (x y : string) : String.ltb x y = true -> string_le x y.
Proof.
  intros H. apply leb_string_le. unfold String.ltb, String.leb in *.
  destruct (String.compare x y); try reflexivity. discriminate.
Qed.

Lemma insert_perm (x : string) (l : list string) : Permutation (insert x l) (x :: l).
Proof.
  induction l as [|y tl IH]; cbn [insert]; [reflexivity|].
  destruct (String.ltb x y); [reflexivity|].
  rewrite IH. apply perm_swap.
Qed.

Lemma insert_sorted (x : string) (l : list string) :
  StronglySorted string_le l -> StronglySorted string_le (insert x l).
Proof.
  induction l as [|y tl IH]; intros H; cbn [insert].
  - repeat constructor.
  - inversion H as [|? ? Htl Hy]; subst.
    destruct (String.ltb x y) eqn:E.
    + constructor; [assumption|]. constructor.
      * now apply ltb_true_le.
      * apply ltb_true_le in E. revert Hy. apply Forall_impl.
        intros z Hz. now apply (string_le_trans x y z).
    + constructor; [now apply IH|].
      apply (Permutation_Forall (x := x :: tl)).
      * symmetry. apply insert_perm.
      * constructor; [now apply ltb_false_le|assumption].
Qed.

Lemma sort_Strings_from (l acc : list string) :
  StronglySorted string_le acc ->
  StronglySorted string_le (fold_left (fun acc x => insert x acc) l acc) /\
  Permutation (fold_left (fun acc x => insert x acc) l acc) (acc ++ l).
Proof.
  revert acc. induction l as [|x tl IH]; intros acc H; cbn [fold_left].
  - rewrite app_nil_r. split; [assumption|reflexivity].
  - destruct (IH (insert x acc) (insert_sorted x acc H)) as [Hs Hp].
    split; [assumption|]. rewrite Hp, insert_perm.
    now rewrite <- Permutation_middle.
Qed.

Lemma sort_Strings_sorted (l : list string) : StronglySorted string_le (sort_Strings l).
Proof. apply (sort_Strings_from l []). constructor. Qed.

Lemma sort_Strings_perm (l : list string) : Permutation (sort_Strings l) l.
Proof. apply (sort_Strings_from l []). constructor. Qed.

(** A list has one sorted arrangement. *)
Lemma sorted_unique (l1 l2 : list string) :
  StronglySorted string_le l1 -> StronglySorted string_le l2 ->
  Permutation l1 l2 -> l1 = l2.
Proof.
  revert l2. induction l1 as [|a l1 IH]; intros l2 H1 H2 Hp.
  - apply Permutation_nil in Hp. now subst.
  - destruct l2 as [|b l2]; [symmetry in Hp; now apply Permutation_nil in Hp|].
    inversion H1 as [|? ? Hs1 Ha]; inversion H2 as [|? ? Hs2 Hb]; subst.
    assert (E : a = b).
    { assert (Hab : string_le a b).
      { assert (I : In b (a :: l1)) by
          (apply (Permutation_in (l := b :: l2)); [now symmetry|now left]).
        destruct I as [->|I]; [apply lex_le_refl|].
        rewrite Forall_forall in Ha. now apply Ha. }
      assert (Hba : string_le b a).
      { assert (I : In a (b :: l2)) by
          (apply (Permutation_in (l := a :: l1)); [assumption|now left]).
        destruct I as [->|I]; [apply lex_le_refl|].
        rewrite Forall_forall in Hb. now apply Hb. }
      now apply string_le_antisym. }
    subst b. f_equal. apply IH; try assumption.
    now apply Permutation_cons_inv in Hp.
Qed.

Lemma strings_Join_empty (l : list string) :
  strings_Join l "" = fold_right String.append "" l.
Proof.
  unfold strings_Join. induction l as [|x tl IH]; [reflexivity|].
  cbn [fold_right]. rewrite <- IH. destruct tl as [|y tl]; cbn [String.concat].
  - clear IH. induction x as [|a x IHx]; cbn; congruence.
  - reflexivity.
Qed.

(** [VerifySignature] computes the digest of the specification. *)
Lemma VerifySignature_digest (c : cryptoImpl) (timestamp nonce msgEncrypt : string)
    (digest : list byte) :
  reference_digest (token c) timestamp nonce msgEncrypt digest <->
  digest = sha1.Sum (list_byte_of_string
             (strings_Join (sort_Strings [token c; timestamp; nonce; msgEncrypt]) "")).
Proof.
  rewrite strings_Join_empty. split.
  - intros [sorted [Hp [Hs ->]]]. do 3 f_equal.
    apply sorted_unique; [assumption|apply sort_Strings_sorted|].
    rewrite Hp. symmetry. apply sort_Strings_perm.
  - intros ->. exists (sort_Strings [token c; timestamp; nonce; msgEncrypt]).
    split; [apply sort_Strings_perm|]. split; [apply sort_Strings_sorted|reflexivity].
Qed.

(** C4.  [VerifySignature] returns true exactly on the lowercase hexadecimal
    rendering of the SHA-1 digest of the four strings (token, timestamp,
    nonce, encrypted message) concatenated without separator in
    lexicographic byte order; the comparison is byte for byte: the uppercase
    rendering of that digest is rejected as soon as it is a different
    string.  (The function is a pure function of its arguments.) *)
Theorem VerifySignature_reference (c : cryptoImpl)
    (signature timestamp nonce msgEncrypt : string) :
  (VerifySignature c signature timestamp nonce msgEncrypt = true <->
   reference_signature (token c) timestamp nonce msgEncrypt signature) /\
  (forall digest,
     reference_digest (token c) timestamp nonce msgEncrypt digest ->
     Sprintf_X digest <> Sprintf_x digest ->
     VerifySignature c (Sprintf_X digest) timestamp nonce msgEncrypt = false).
Proof.
  split.
  - unfold VerifySignature, reference_signature. rewrite String.eqb_eq. split.
    + intros <-. eexists. split; [apply VerifySignature_digest|]; reflexivity.
    + intros [digest [Hd ->]]. apply VerifySignature_digest in Hd. now subst.
  - intros digest Hd Hne. apply VerifySignature_digest in Hd.
    unfold VerifySignature. rewrite <- Hd. apply String.eqb_neq.
    intros E. apply Hne. now symmetry.
Qed.

(* ================================================================== *)
(** * The callback protocol *)

Lemma containsMention_iff (content : string) :
  containsMention content = true <-> In "@"%char (list_ascii_of_string content).
Proof.
  unfold containsMention.
  induction content as [|a s IH]; cbn [strings_Contains list_ascii_of_string In].
  - cbn. split; [discriminate|tauto].
  - rewrite orb_true_iff, IH. cbn [String.prefix].
    destruct (ascii_dec "@" a) as [E|N].
    + subst a. destruct s; cbn [String.prefix]; tauto.
    + split; [intros [H|H]; [discriminate|now right]|].
      intros [H|H]; [congruence|now right].
Qed.

Lemma sent_requests_app (t1 t2 : list event) :
  sent_requests (t1 ++ t2) = sent_requests t1 ++ sent_requests t2.
Proof. unfold sent_requests, all_actions. now rewrite !flat_map_app. Qed.

Lemma decrypt_calls_app (t1 t2 : list event) :
  decrypt_calls (t1 ++ t2) = decrypt_calls t1 ++ decrypt_calls t2.
Proof. unfold decrypt_calls, all_actions. now rewrite !flat_map_app. Qed.

(** The request [forwardToAI] hands to the AI service. *)
Lemma sent_requests_forwardToAI (s : serviceImpl) (msg : Message.t) :
  sent_requests [Go (forwardToAI s msg)] =
  [{| ai.UserID := Message.FromUserName msg;
      ai.Content := Message.Content msg;
      ai.Source := "wework";
      ai.GroupID := "" |}].
Proof.
  unfold forwardToAI, sent_requests, all_actions. cbn [flat_map actions_of app].
  rewrite app_nil_r. cbn [flat_map sent_request app].
  destruct (aiSvc s _); reflexivity.
Qed.

(** C7.  Handshake signature gate: when the signature of a GET request does
    not verify, the handler answers 403 and [Decrypt] is not called; when it
    verifies, the call of [Decrypt] on the echo string comes right after the
    signature check, and it is the only one. *)
Theorem handshake_signature_gate (svc : serviceImpl) (r : Request) :
  let verified :=
    Crypto_VerifySignature (crypto svc) (Query r "msg_signature")
      (Query r "timestamp") (Query r "nonce") (Query r "echostr") in
  let check :=
    Do (CallVerifySignature (Query r "msg_signature") (Query r "timestamp")
          (Query r "nonce") (Query r "echostr")) in
  if verified then
    exists rest,
      fst (handleVerifyURL svc r) = check :: Do (CallDecrypt (Query r "echostr")) :: rest /\
      decrypt_calls rest = []
  else
    snd (handleVerifyURL svc r) = http_Error "forbidden" StatusForbidden /\
    decrypt_calls (fst (handleVerifyURL svc r)) = [].
Proof.
  cbv zeta. unfold handleVerifyURL, VerifyURL.
  cbn [MsgSignature Timestamp Nonce Echostr].
  destruct (Crypto_VerifySignature _ _ _ _ _) eqn:Hv; cbn [negb].
  - destruct (Crypto_Decrypt (crypto svc) (Query r "echostr")) as [pt|e|p];
      cbn; [|destruct (errors_Is_ErrInvalidSignature e)|]; eexists;
      (split; [reflexivity|reflexivity]).
  - cbn. split; reflexivity.
Qed.

(** The handshake on the sample requests: a wrong signature is answered 403
    without decryption, the right one 200 with the echo string. *)
Lemma handshake_rejected_sample :
  handleVerifyURL sample_service
    (sample_get (sample_signature ciphertext_hello) ciphertext_echostr) =
  ([Do (CallVerifySignature (sample_signature ciphertext_hello) sample_timestamp
          sample_nonce ciphertext_echostr);
    Do (Log "WARN" "URL verification signature failed"
          [("timestamp", sample_timestamp); ("nonce", sample_nonce)])],
   http_Error "forbidden" StatusForbidden).
Proof. vm_compute. reflexivity. Qed.

Lemma handshake_accepted_sample :
  snd (handleVerifyURL sample_service
         (sample_get (sample_signature ciphertext_echostr) ciphertext_echostr)) =
  Respond StatusOK "1234567890".
Proof. vm_compute. reflexivity. Qed.

Section Delivery.

Variable xml_Unmarshal_EncryptedBody : list byte -> result EncryptedBody.t.
Variable xml_Unmarshal_Message : list byte -> result Message.t.
Variable svc : serviceImpl.
Variable r : Request.

Let handle := handleCallback xml_Unmarshal_EncryptedBody xml_Unmarshal_Message svc r.

(** The delivery flow once the envelope is parsed, the signature verified,
    the ciphertext decrypted and the message parsed. *)
Lemma handleCallback_delivered (body plaintext : list byte)
    (encBody : EncryptedBody.t) (msg : Message.t) :
  Body r = Ok body ->
  xml_Unmarshal_EncryptedBody body = Ok encBody ->
  Crypto_VerifySignature (crypto svc) (Query r "msg_signature") (Query r "timestamp")
    (Query r "nonce") (EncryptedBody.Encrypt encBody) = true ->
  Crypto_Decrypt (crypto svc) (EncryptedBody.Encrypt encBody) = Ok plaintext ->
  xml_Unmarshal_Message plaintext = Ok msg ->
  handle =
  ([Do (CallVerifySignature (Query r "msg_signature") (Query r "timestamp")
          (Query r "nonce") (EncryptedBody.Encrypt encBody));
    Do (CallDecrypt (EncryptedBody.Encrypt encBody))]
   ++ (if String.eqb (Message.MsgType msg) MsgTypeText
          && containsMention (Message.Content msg)
       then [Go (forwardToAI svc msg)] else []),
   Respond StatusOK "success").
Proof.
  intros Hb He Hv Hd Hm. unfold handle, handleCallback, HandleCallback.
  rewrite Hb, He. cbn [wrap_err lift io_bind tell app MsgSignature Timestamp Nonce].
  rewrite Hv. cbn [negb]. rewrite Hd.
  cbn [wrap_err lift io_bind tell app]. rewrite Hm.
  cbn [wrap_err lift io_bind tell app].
  destruct (String.eqb (Message.MsgType msg) MsgTypeText); cbn [negb andb];
    [destruct (containsMention (Message.Content msg)); cbn [negb]|]; reflexivity.
Qed.

(** Every request that reaches the AI service comes from a callback that
    passed all the steps with a text message that contains [@], and is built
    from that message. *)
Lemma forward_inversion (req : ai.ChatRequest) :
  In req (sent_requests (fst handle)) ->
  exists body encBody plaintext msg,
    Body r = Ok body /\
    xml_Unmarshal_EncryptedBody body = Ok encBody /\
    Crypto_VerifySignature (crypto svc) (Query r "msg_signature") (Query r "timestamp")
      (Query r "nonce") (EncryptedBody.Encrypt encBody) = true /\
    Crypto_Decrypt (crypto svc) (EncryptedBody.Encrypt encBody) = Ok plaintext /\
    xml_Unmarshal_Message plaintext = Ok msg /\
    Message.MsgType msg = MsgTypeText /\
    containsMention (Message.Content msg) = true /\
    req = {| ai.UserID := Message.FromUserName msg;
             ai.Content := Message.Content msg;
             ai.Source := "wework";
             ai.GroupID := "" |}.
Proof.
  destruct (Body r) as [body|e|p] eqn:Hb;
    [|unfold handle, handleCallback; rewrite Hb; cbn; tauto ..].
  destruct (xml_Unmarshal_EncryptedBody body) as [encBody|e|p] eqn:He.
  2,3: unfold handle, handleCallback, HandleCallback; rewrite Hb, He;
       cbn [wrap_err lift io_bind tell app fst]; cbn; tauto.
  destruct (Crypto_VerifySignature (crypto svc) (Query r "msg_signature")
              (Query r "timestamp") (Query r "nonce") (EncryptedBody.Encrypt encBody))
    eqn:Hv.
  2: { unfold handle, handleCallback, HandleCallback. rewrite Hb, He.
       cbn [wrap_err lift io_bind tell app MsgSignature Timestamp Nonce].
       rewrite Hv. cbn. tauto. }
  destruct (Crypto_Decrypt (crypto svc) (EncryptedBody.Encrypt encBody))
    as [plaintext|e|p] eqn:Hd.
  2,3: unfold handle, handleCallback, HandleCallback; rewrite Hb, He;
       cbn [wrap_err lift io_bind tell app MsgSignature Timestamp Nonce];
       rewrite Hv; cbn [negb]; rewrite Hd.
  2: { cbn [wrap_err lift io_bind tell app fail Error].
       destruct (strings_Contains _ _); [|destruct (errors_Is_ErrInvalidSignature _)];
         cbn; tauto. }
  2: { cbn. tauto. }
  destruct (xml_Unmarshal_Message plaintext) as [msg|e|p] eqn:Hm.
  2,3: unfold handle, handleCallback, HandleCallback; rewrite Hb, He;
       cbn [wrap_err lift io_bind tell app MsgSignature Timestamp Nonce];
       rewrite Hv; cbn [negb]; rewrite Hd;
       cbn [wrap_err lift io_bind tell app]; rewrite Hm.
  2: { cbn [wrap_err lift io_bind tell app fail Error].
       destruct (strings_Contains _ _); [|destruct (errors_Is_ErrInvalidSignature _)];
         cbn; tauto. }
  2: { cbn. tauto. }
  rewrite (handleCallback_delivered body plaintext encBody msg Hb He Hv Hd Hm).
  cbn [fst]. rewrite sent_requests_app.
  destruct (String.eqb (Message.MsgType msg) MsgTypeText) eqn:Et; cbn [andb];
    [destruct (containsMention (Message.Content msg)) eqn:Ec|]; try (cbn; tauto).
  rewrite sent_requests_forwardToAI. cbn [sent_requests all_actions flat_map actions_of app In].
  intros [E|[]]. exists body, encBody, plaintext, msg.
  apply String.eqb_eq in Et. repeat split; auto.
Qed.

End Delivery.

(** [handleCallback] on a callback whose decryption fails: the status is
    chosen from the text of the error. *)
Lemma handleCallback_decrypt_failure
    (xml_Unmarshal_EncryptedBody : list byte -> result EncryptedBody.t)
    (xml_Unmarshal_Message : list byte -> result Message.t)
    (svc : serviceImpl) (r : Request) (body : list byte)
    (encBody : EncryptedBody.t) (err : error) :
  Body r = Ok body ->
  xml_Unmarshal_EncryptedBody body = Ok encBody ->
  Crypto_VerifySignature (crypto svc) (Query r "msg_signature") (Query r "timestamp")
    (Query r "nonce") (EncryptedBody.Encrypt encBody) = true ->
  Crypto_Decrypt (crypto svc) (EncryptedBody.Encrypt encBody) = Err err ->
  snd (handleCallback xml_Unmarshal_EncryptedBody xml_Unmarshal_Message svc r) =
  if strings_Contains ("decrypt message: " +s+ Error err) "unmarshal"
  then http_Error "bad request" StatusBadRequest
  else if errors_Is_ErrInvalidSignature err
       then http_Error "forbidden" StatusForbidden
       else http_Error "internal server error" StatusInternalServerError.
Proof.
  intros Hb He Hv Hd. unfold handleCallback, HandleCallback.
  rewrite Hb, He. cbn [wrap_err lift io_bind tell app MsgSignature Timestamp Nonce].
  rewrite Hv. cbn [negb]. rewrite Hd.
  cbn [wrap_err lift io_bind tell app fail Error errors_Is_ErrInvalidSignature].
  destruct (strings_Contains _ _); [reflexivity|].
  destruct (errors_Is_ErrInvalidSignature err); reflexivity.
Qed.

(** C5.  The specification requires status 500 whenever [Decrypt] fails.  On a
    correctly signed callback whose ciphertext decrypts to a payload with the
    trailing tenant identifier [unmarshal], [Decrypt] fails with the
    tenant-mismatch error, whose text quotes that identifier; the handler
    finds the word [unmarshal] in the text and answers 400. *)
Theorem decrypt_failure_answered_400
    (xml_Unmarshal_EncryptedBody : list byte -> result EncryptedBody.t)
    (xml_Unmarshal_Message : list byte -> result Message.t) :
  let r := sample_post (sample_signature ciphertext_tenant_unmarshal)
             ciphertext_tenant_unmarshal in
  xml_Unmarshal_EncryptedBody (list_byte_of_string
    (sample_envelope_xml ciphertext_tenant_unmarshal))
  = Ok (sample_envelope ciphertext_tenant_unmarshal) ->
  Decrypt sample_crypto ciphertext_tenant_unmarshal =
    Err (Errorf "corp_id mismatch: got unmarshal, want wwcorpid0001") /\
  snd (handleCallback xml_Unmarshal_EncryptedBody xml_Unmarshal_Message
         sample_service r)
  = http_Error "bad request" StatusBadRequest.
Proof.
  intros r He.
  assert (Hd : Decrypt sample_crypto ciphertext_tenant_unmarshal =
               Err (Errorf "corp_id mismatch: got unmarshal, want wwcorpid0001"))
    by (vm_compute; reflexivity).
  split; [exact Hd|].
  rewrite (handleCallback_decrypt_failure _ _ sample_service r _ _
             (Errorf "corp_id mismatch: got unmarshal, want wwcorpid0001") eq_refl He).
  - reflexivity.
  - vm_compute. reflexivity.
  - exact Hd.
Qed.

Lemma decrypt_failure_answered_400_witness :
  Decrypt sample_crypto ciphertext_tenant_unmarshal =
    Err (Errorf "corp_id mismatch: got unmarshal, want wwcorpid0001") /\
  snd (handleCallback (sample_Unmarshal_EncryptedBody ciphertext_tenant_unmarshal)
         (sample_Unmarshal_Message "hello") sample_service
         (sample_post (sample_signature ciphertext_tenant_unmarshal)
            ciphertext_tenant_unmarshal))
  = http_Error "bad request" StatusBadRequest.
Proof.
  apply (decrypt_failure_answered_400
           (sample_Unmarshal_EncryptedBody ciphertext_tenant_unmarshal)
           (sample_Unmarshal_Message "hello")).
  vm_compute. reflexivity.
Defined.

(** A decryption failure whose text does not contain the word is answered
    500. *)
Lemma decrypt_failure_answered_500_sample :
  snd (handleCallback (sample_Unmarshal_EncryptedBody ciphertext_tenant_A)
         (sample_Unmarshal_Message "hello") sample_service
         (sample_post (sample_signature ciphertext_tenant_A) ciphertext_tenant_A))
  = http_Error "internal server error" StatusInternalServerError.
Proof. vm_compute. reflexivity. Qed.

(** C9.  Ignored-message branch: a callback that passes parsing, signature
    verification and decryption is answered 200 [success]; if the type of
    the message is not [text], or its content does not contain the character
    [@], no goroutine is started and the AI service is not called; a request
    is forwarded only when the type is [text] and the content contains
    [@]. *)
Theorem ignored_message_branch
    (xml_Unmarshal_EncryptedBody : list byte -> result EncryptedBody.t)
    (xml_Unmarshal_Message : list byte -> result Message.t)
    (svc : serviceImpl) (r : Request) (body plaintext : list byte)
    (encBody : EncryptedBody.t) (msg : Message.t) :
  Body r = Ok body ->
  xml_Unmarshal_EncryptedBody body = Ok encBody ->
  Crypto_VerifySignature (crypto svc) (Query r "msg_signature") (Query r "timestamp")
    (Query r "nonce") (EncryptedBody.Encrypt encBody) = true ->
  Crypto_Decrypt (crypto svc) (EncryptedBody.Encrypt encBody) = Ok plaintext ->
  xml_Unmarshal_Message plaintext = Ok msg ->
  let out := handleCallback xml_Unmarshal_EncryptedBody xml_Unmarshal_Message svc r in
  snd out = Respond StatusOK "success" /\
  (Message.MsgType msg <> "text" \/
   ~ In "@"%char (list_ascii_of_string (Message.Content msg)) ->
   sent_requests (fst out) = [] /\ forall g, ~ In (Go g) (fst out)) /\
  (sent_requests (fst out) <> [] ->
   Message.MsgType msg = "text" /\
   In "@"%char (list_ascii_of_string (Message.Content msg))).
Proof.
  intros Hb He Hv Hd Hm out. unfold out.
  rewrite (handleCallback_delivered _ _ svc r body plaintext encBody msg Hb He Hv Hd Hm).
  cbn [fst snd]. split; [reflexivity|].
  pose proof (containsMention_iff (Message.Content msg)) as Hc.
  pose proof (String.eqb_spec (Message.MsgType msg) MsgTypeText) as Ht.
  change MsgTypeText with "text" in *.
  destruct (String.eqb (Message.MsgType msg) "text"); inversion Ht as [Et|Et];
    cbn [andb].
  - destruct (containsMention (Message.Content msg)).
    + split.
      * intros [H|H]; [contradiction|]. exfalso. apply H, Hc. reflexivity.
      * intros _. split; [assumption|]. now apply Hc.
    + split.
      * intros _. split; [reflexivity|]. intros g [H|[H|[]]]; discriminate.
      * intros H. now contradiction H.
  - split.
    + intros _. split; [reflexivity|]. intros g [H|[H|[]]]; discriminate.
    + intros H. now contradiction H.
Qed.

(** C9 on the sample callback whose message is the text [hello]. *)
Lemma ignored_message_branch_witness :
  let out := handleCallback (sample_Unmarshal_EncryptedBody ciphertext_plain)
               (sample_Unmarshal_Message "hello") sample_service
               (sample_post (sample_signature ciphertext_plain) ciphertext_plain) in
  snd out = Respond StatusOK "success" /\
  (Message.MsgType (sample_message "hello") <> "text" \/
   ~ In "@"%char (list_ascii_of_string (Message.Content (sample_message "hello"))) ->
   sent_requests (fst out) = [] /\ forall g, ~ In (Go g) (fst out)) /\
  (sent_requests (fst out) <> [] ->
   Message.MsgType (sample_message "hello") = "text" /\
   In "@"%char (list_ascii_of_string (Message.Content (sample_message "hello")))).
Proof.
  apply (ignored_message_branch
           (sample_Unmarshal_EncryptedBody ciphertext_plain)
           (sample_Unmarshal_Message "hello") sample_service
           (sample_post (sample_signature ciphertext_plain) ciphertext_plain)
           (list_byte_of_string (sample_envelope_xml ciphertext_plain))
           (list_byte_of_string (sample_message_xml "hello"))
           (sample_envelope ciphertext_plain) (sample_message "hello")).
  - reflexivity.
  - vm_compute. reflexivity.
  - vm_compute. reflexivity.
  - vm_compute. reflexivity.
  - vm_compute. reflexivity.
Defined.

(** C10.  Every request handed to the AI service comes from a decrypted
    message; its source is [wework], its user is the sender of the message,
    its content is the content of the message, and its group identifier is
    empty. *)
Theorem forward_request_fields
    (xml_Unmarshal_EncryptedBody : list byte -> result EncryptedBody.t)
    (xml_Unmarshal_Message : list byte -> result Message.t)
    (svc : serviceImpl) (r : Request) (req : ai.ChatRequest) :
  In req (sent_requests
            (fst (handleCallback xml_Unmarshal_EncryptedBody xml_Unmarshal_Message
                    svc r))) ->
  exists body encBody plaintext msg,
    Body r = Ok body /\
    xml_Unmarshal_EncryptedBody body = Ok encBody /\
    Crypto_Decrypt (crypto svc) (EncryptedBody.Encrypt encBody) = Ok plaintext /\
    xml_Unmarshal_Message plaintext = Ok msg /\
    ai.Source req = "wework" /\
    ai.UserID req = Message.FromUserName msg /\
    ai.Content req = Message.Content msg /\
    ai.GroupID req = "".
Proof.
  intros H. apply forward_inversion in H.
  destruct H as [body [encBody [plaintext [msg [Hb [He [_ [Hd [Hm [_ [_ ->]]]]]]]]]]].
  exists body, encBody, plaintext, msg. repeat split; assumption.
Qed.

(** C10 on the sample callback whose message mentions the assistant. *)
Lemma forward_request_fields_witness :
  exists body encBody plaintext msg,
    Body (sample_post (sample_signature ciphertext_mention) ciphertext_mention) = Ok body /\
    sample_Unmarshal_EncryptedBody ciphertext_mention body = Ok encBody /\
    Crypto_Decrypt (crypto sample_service) (EncryptedBody.Encrypt encBody) = Ok plaintext /\
    sample_Unmarshal_Message sample_mention plaintext = Ok msg /\
    ai.Source {| ai.UserID := "zhangsan"; ai.Content := sample_mention;
                 ai.Source := "wework"; ai.GroupID := "" |} = "wework" /\
    ai.UserID {| ai.UserID := "zhangsan"; ai.Content := sample_mention;
                 ai.Source := "wework"; ai.GroupID := "" |} = Message.FromUserName msg /\
    ai.Content {| ai.UserID := "zhangsan"; ai.Content := sample_mention;
                  ai.Source := "wework"; ai.GroupID := "" |} = Message.Content msg /\
    ai.GroupID {| ai.UserID := "zhangsan"; ai.Content := sample_mention;
                  ai.Source := "wework"; ai.GroupID := "" |} = "".
Proof.
  apply (forward_request_fields
           (sample_Unmarshal_EncryptedBody ciphertext_mention)
           (sample_Unmarshal_Message sample_mention) sample_service
           (sample_post (sample_signature ciphertext_mention) ciphertext_mention)).
  vm_compute. left. reflexivity.
Defined.

(* ================================================================== *)
(** * What the parsing steps read *)

Lemma last_as_nth {A : Type} (l : list A) (d : A) :
  last l d = nth (List.length l - 1) l d.
Proof.
  induction l as [|a l IH]; [reflexivity|].
  destruct l as [|b l]; [reflexivity|].
  change (last (a :: b :: l) d) with (last (b :: l) d). rewrite IH.
  cbn [List.length]. replace (S (S (List.length l)) - 1)%nat with (S (List.length l - 0)) by lia.
  reflexivity.
Qed.

(** Two lists that agree on the positions [a .. a + cnt - 1] have the same
    slice there. *)
Lemma slice_ext {A : Type} (d : A) (l1 l2 : list A) (a cnt : nat) :
  (a + cnt <= List.length l1)%nat -> (a + cnt <= List.length l2)%nat ->
  (forall i, (a <= i < a + cnt)%nat -> nth i l1 d = nth i l2 d) ->
  firstn cnt (skipn a l1) = firstn cnt (skipn a l2).
Proof.
  intros H1 H2 H. apply (nth_ext _ _ d d).
  - rewrite !length_firstn, !length_skipn. lia.
  - intros i Hi. rewrite length_firstn, length_skipn in Hi.
    rewrite !nth_firstn. destruct (i <? cnt)%nat eqn:E; [|reflexivity].
    apply Nat.ltb_lt in E. rewrite !nth_skipn. apply H. lia.
Qed.

Lemma skipn_ext {A : Type} (d : A) (l1 l2 : list A) (a : nat) :
  List.length l1 = List.length l2 ->
  (forall i, (a <= i < List.length l1)%nat -> nth i l1 d = nth i l2 d) ->
  skipn a l1 = skipn a l2.
Proof.
  intros Hl H. apply (nth_ext _ _ d d).
  - rewrite !length_skipn. lia.
  - intros i Hi. rewrite length_skipn in Hi. rewrite !nth_skipn. apply H. lia.
Qed.

Lemma check_padding_None_repeat (tail : list byte) (p : byte) (i : Z) :
  check_padding tail i p = None -> tail = repeat p (List.length tail).
Proof.
  intros H. apply Forall_eq_repeat. apply Forall_forall. intros x Hx.
  destruct (In_nth _ _ x00 Hx) as [n [Hn <-]].
  symmetry. now apply (check_padding_None tail p i H).
Qed.

(** A buffer that [pkcs7Unpad] accepts is the result followed by [p] bytes
    equal to [p], with [1 <= p <= 16]. *)
Lemma pkcs7Unpad_Ok_inv (data out : list byte) :
  pkcs7Unpad data = Ok out ->
  let p := announced_padding data in
  1 <= p <= 16 /\ p <= len data /\
  out = firstn (Z.to_nat (len data - p)) data /\
  data = out ++ repeat (byte_of_Z p) (Z.to_nat p).
Proof.
  unfold pkcs7Unpad. fold (announced_padding data).
  set (p := announced_padding data). intros H. cbv zeta.
  pose proof (Z_of_byte_range (last data x00)) as Hp.
  fold (announced_padding data) in Hp. fold p in Hp.
  destruct (len data =? 0); [discriminate|].
  destruct ((p =? 0) || (p >? aes_BlockSize)) eqn:E1; [discriminate|].
  apply orb_false_iff in E1. destruct E1 as [E1 E2].
  apply Z.eqb_neq in E1. rewrite Z.gtb_ltb in E2. apply Z.ltb_ge in E2.
  unfold aes_BlockSize in E2.
  destruct (p >? len data) eqn:E3; [discriminate|].
  rewrite Z.gtb_ltb in E3. apply Z.ltb_ge in E3.
  destruct (check_padding _ _ _) eqn:E4; [discriminate|].
  inversion H; subst out. repeat split; try lia.
  apply check_padding_None_repeat in E4.
  rewrite length_skipn in E4.
  replace (List.length data - Z.to_nat (len data - p))%nat with (Z.to_nat p) in E4
    by (unfold len in *; lia).
  rewrite <- E4. symmetry. apply firstn_skipn.
Qed.

(** Conversely, [p] bytes equal to [p] are removed. *)
Lemma pkcs7Unpad_app_repeat (out : list byte) (p : Z) :
  1 <= p <= 16 -> pkcs7Unpad (out ++ repeat (byte_of_Z p) (Z.to_nat p)) = Ok out.
Proof.
  intros Hp. pose proof (len_nonneg out) as Hl.
  unfold pkcs7Unpad. rewrite len_app, len_repeat, Z2Nat.id by lia.
  rewrite last_app_repeat by lia.
  rewrite Z_of_byte_of_Z_small by lia.
  replace (len out + p =? 0) with false by (symmetry; apply Z.eqb_neq; lia).
  replace (p =? 0) with false by (symmetry; apply Z.eqb_neq; lia).
  replace (p >? aes_BlockSize) with false
    by (symmetry; rewrite Z.gtb_ltb; apply Z.ltb_ge; unfold aes_BlockSize; lia).
  replace (p >? len out + p) with false
    by (symmetry; rewrite Z.gtb_ltb; apply Z.ltb_ge; lia).
  cbn [orb].
  replace (len out + p - p) with (len out) by lia.
  unfold len. rewrite Nat2Z.id.
  rewrite skipn_app, skipn_all, Nat.sub_diag, skipn_O. cbn [app].
  rewrite check_padding_repeat.
  rewrite firstn_app, firstn_all, Nat.sub_diag, firstn_O, app_nil_r. reflexivity.
Qed.

Lemma pkcs7Unpad_no_panic (data : list byte) (m : string) : pkcs7Unpad data <> Panic m.
Proof.
  unfold pkcs7Unpad.
  destruct (len data =? 0); [discriminate|].
  destruct (_ || _); [discriminate|].
  destruct (_ >? _); [discriminate|].
  destruct (check_padding _ _ _); discriminate.
Qed.

(** [pkcs7Unpad] reads the length of the buffer, its last byte [p] and its
    last [p] bytes, and nothing else. *)
Lemma pkcs7Unpad_ext (d1 d2 : list byte) :
  len d1 = len d2 ->
  (forall i : nat,
     Z.of_nat i = len d1 - 1 \/
     announced_padding d1 <= 16 /\ len d1 - announced_padding d1 <= Z.of_nat i < len d1 ->
     nth i d1 x00 = nth i d2 x00) ->
  pkcs7Unpad d2 =
  match pkcs7Unpad d1 with
  | Ok _ => Ok (firstn (Z.to_nat (len d1 - announced_padding d1)) d2)
  | other => other
  end.
Proof.
  intros Hlen H.
  assert (Hlast : last d2 x00 = last d1 x00).
  { rewrite !last_as_nth. destruct d1 as [|a d1].
    - destruct d2; [reflexivity|]. unfold len in Hlen. cbn in Hlen. lia.
    - assert (E : List.length d2 = List.length (a :: d1)) by (unfold len in Hlen; lia).
      rewrite E. symmetry. apply H. left. unfold len. cbn [List.length]. lia. }
  unfold pkcs7Unpad. rewrite <- Hlen, Hlast. fold (announced_padding d1).
  set (p := announced_padding d1) in *.
  destruct (len d1 =? 0); [reflexivity|].
  destruct ((p =? 0) || (p >? aes_BlockSize)) eqn:E1; [reflexivity|].
  destruct (p >? len d1) eqn:E3; [reflexivity|].
  rewrite Z.gtb_ltb in E3. apply Z.ltb_ge in E3.
  apply orb_false_iff in E1. destruct E1 as [E1 E2]. apply Z.eqb_neq in E1.
  rewrite Z.gtb_ltb in E2. apply Z.ltb_ge in E2. unfold aes_BlockSize in E2.
  pose proof (Z_of_byte_range (last d1 x00)) as Hp.
  fold (announced_padding d1) in Hp. fold p in Hp.
  assert (Hs : skipn (Z.to_nat (len d1 - p)) d2 = skipn (Z.to_nat (len d1 - p)) d1).
  { symmetry. apply (skipn_ext x00); [unfold len in Hlen; lia|].
    intros i Hi. apply H. right. unfold len in *. lia. }
  rewrite Hs. destruct (check_padding _ _ _); reflexivity.
Qed.

(* ================================================================== *)
(** * What the errors of [Decrypt] reveal *)

Lemma Decrypt_decrypted_buffer (c : cryptoImpl) (encrypted : string) :
  Decrypt c encrypted =
  (decrypted <- decrypted_buffer c encrypted ;; unpad_and_parse c decrypted).
Proof.
  rewrite Decrypt_unfold. unfold decrypted_buffer.
  destruct (wrap_err "base64 decode: " (base64.DecodeString encrypted))
    as [ct|e|p]; cbn [bind]; try reflexivity.
  destruct (_ || _); [reflexivity|].
  destruct (wrap_err "new aes cipher: " (aes.NewCipher (aesKey c)))
    as [bl|e|p]; cbn [bind]; try reflexivity.
  destruct (subslice (aesKey c) 0 aes_BlockSize) as [iv|e|p]; cbn [bind];
    try reflexivity.
  destruct (cipher.NewCBCDecrypter bl iv) as [mode|e|p]; cbn [bind]; reflexivity.
Qed.

Lemma nth_firstn_lt {A : Type} (n i : nat) (l : list A) (d : A) :
  (i < n)%nat -> nth i (firstn n l) d = nth i l d.
Proof. intros H. rewrite nth_firstn. now apply Nat.ltb_lt in H as ->. Qed.

Lemma uint32_sum_cases (L : Z) :
  0 <= L < 4294967296 ->
  uint32 (20 + L) = 20 + L \/ uint32 (20 + L) < 20.
Proof.
  intros H. unfold uint32. change (2 ^ 32) with 4294967296.
  Z.div_mod_to_equations. lia.
Qed.

(** The parsing steps return the same error on two buffers that differ only
    in the random prefix and the message body, whatever the keys and tokens
    of the two cipher instances. *)
Lemma unpad_and_parse_same_error (c1 c2 : cryptoImpl) (d1 d2 : list byte) (e : error) :
  corpID c1 = corpID c2 ->
  32 <= len d1 < 4294967296 ->
  same_outside_prefix_and_body d1 d2 ->
  unpad_and_parse c1 d1 = Err e -> unpad_and_parse c2 d2 = Err e.
Proof.
  intros Hc Hn [Hlen Hag]. unfold message_body_end in Hag.
  unfold unpad_and_parse.
  destruct (pkcs7Unpad d1) as [P1|e0|m] eqn:Hu1.
  - destruct (pkcs7Unpad_Ok_inv _ _ Hu1) as [Hp [Hpl [HP1 _]]].
    set (p := announced_padding d1) in *.
    assert (HlenP1 : len P1 = len d1 - p)
      by (rewrite HP1; apply len_firstn_le; lia).
    assert (Hu2 : pkcs7Unpad d2 = Ok (firstn (Z.to_nat (len d1 - p)) d2)).
    { rewrite (pkcs7Unpad_ext d1 d2 Hlen), Hu1; [reflexivity|].
      intros i Hi. apply Hag. fold p in Hi.
      destruct (20 + declared_length P1 <=? len P1) eqn:E;
        [apply Z.leb_le in E|]; lia. }
    rewrite Hu2. set (P2 := firstn (Z.to_nat (len d1 - p)) d2).
    assert (HlenP2 : len P2 = len d1 - p)
      by (apply len_firstn_le; lia).
    assert (HnthP : forall i, (Z.of_nat i < len d1 - p) ->
              nth i P1 x00 = nth i d1 x00 /\ nth i P2 x00 = nth i d2 x00).
    { intros i Hi. rewrite HP1. unfold P2. split; apply nth_firstn_lt; lia. }
    cbn [wrap_err bind]. rewrite HlenP1, HlenP2.
    destruct (len d1 - p <? 20) eqn:E20; [tauto|]. apply Z.ltb_ge in E20.
    rewrite !subslice_ok by lia. cbn [bind].
    change (Z.to_nat (20 - 16)) with 4%nat. change (Z.to_nat 16) with 16%nat.
    assert (HL : firstn 4 (skipn 16 P2) = firstn 4 (skipn 16 P1)).
    { apply (slice_ext x00); [unfold len in *; lia ..|].
      intros i Hi. destruct (HnthP i ltac:(lia)) as [-> ->].
      symmetry. apply Hag. lia. }
    rewrite HL. fold (declared_length P1) in *.
    set (L := declared_length P1) in *.
    pose proof (BigEndian_Uint32_range (firstn 4 (skipn 16 P1))) as HLr.
    fold (declared_length P1) in HLr. fold L in HLr.
    destruct (uint32 (len d1 - p) <? uint32 (20 + L)) eqn:Echk; [tauto|].
    apply Z.ltb_ge in Echk. rewrite (uint32_small (len d1 - p)) in Echk by lia.
    set (hi := uint32 (20 + L)) in *.
    unfold subslice at 1 3. rewrite <- Hlen.
    destruct ((0 <=? 20) && (20 <=? hi) && (hi <=? len d1)) eqn:Eb1;
      [|discriminate].
    cbn [bind]. apply andb_true_iff in Eb1. destruct Eb1 as [Eb1 _].
    apply andb_true_iff in Eb1. destruct Eb1 as [_ Eb1]. apply Z.leb_le in Eb1.
    assert (Hhi : hi = 20 + L)
      by (pose proof (uint32_sum_cases L HLr); unfold hi in *; lia).
    rewrite !subslice_ok by lia. cbn [bind].
    assert (HT : firstn (Z.to_nat (len d1 - p - hi)) (skipn (Z.to_nat hi) P2)
                 = firstn (Z.to_nat (len d1 - p - hi)) (skipn (Z.to_nat hi) P1)).
    { apply (slice_ext x00); [unfold len in *; lia ..|].
      intros i Hi. destruct (HnthP i ltac:(lia)) as [-> ->].
      symmetry. apply Hag. right.
      replace (20 + L <=? len P1) with true by (symmetry; apply Z.leb_le; lia).
      lia. }
    rewrite HT, <- Hc.
    destruct (negb _); [tauto|discriminate].
  - assert (Hu2 : pkcs7Unpad d2 = Err e0).
    { rewrite (pkcs7Unpad_ext d1 d2 Hlen), Hu1; [reflexivity|].
      intros i Hi. apply Hag. cbv beta iota. lia. }
    rewrite Hu2. cbn [wrap_err bind]. tauto.
  - now apply pkcs7Unpad_no_panic in Hu1.
Qed.

(** C8 (amended).  The error of [Decrypt] does not depend on the random
    prefix, on the message body, or on the key and the token: two inputs
    (under cipher instances with the same tenant identifier) whose decrypted
    buffers, of at least two blocks, differ only in the bytes 0 to 15 and in
    the message body, fail with the same error. *)
Theorem Decrypt_error_hides_prefix_body_and_key
    (c1 c2 : cryptoImpl) (enc1 enc2 : string) (d1 d2 : list byte) (e : error) :
  corpID c1 = corpID c2 ->
  decrypted_buffer c1 enc1 = Ok d1 ->
  decrypted_buffer c2 enc2 = Ok d2 ->
  32 <= len d1 < 4294967296 ->
  same_outside_prefix_and_body d1 d2 ->
  Decrypt c1 enc1 = Err e -> Decrypt c2 enc2 = Err e.
Proof.
  intros Hc H1 H2 Hn Hs. rewrite !Decrypt_decrypted_buffer, H1, H2. cbn [bind].
  now apply unpad_and_parse_same_error.
Qed.

Lemma sample_buffers_same_outside :
  same_outside_prefix_and_body
    (padded_payload "ABCDEFGHIJKLMNOP" "hello" "top-secret-A")
    (padded_payload "0123456789abcdef" "world" "top-secret-A").
Proof.
  split; [reflexivity|].
  intros i Hi.
  replace (message_body_end (padded_payload "ABCDEFGHIJKLMNOP" "hello" "top-secret-A"))
    with 25 in Hi by (vm_compute; reflexivity).
  replace (len (padded_payload "ABCDEFGHIJKLMNOP" "hello" "top-secret-A"))
    with 48 in Hi by (vm_compute; reflexivity).
  do 48 (destruct i as [|i]; [first [reflexivity | exfalso; lia]|]).
  exfalso. lia.
Qed.

(** C8, witness of the amended theorem: two ciphertexts under different
    keys, with different prefixes and messages and the same foreign tenant
    identifier, fail with the same error. *)
Lemma Decrypt_error_hides_prefix_body_and_key_witness :
  Decrypt other_crypto ciphertext_other_tenant_A =
  Err (Errorf "corp_id mismatch: got top-secret-A, want wwcorpid0001").
Proof.
  apply (Decrypt_error_hides_prefix_body_and_key sample_crypto other_crypto
           ciphertext_tenant_A ciphertext_other_tenant_A
           (padded_payload "ABCDEFGHIJKLMNOP" "hello" "top-secret-A")
           (padded_payload "0123456789abcdef" "world" "top-secret-A")).
  - reflexivity.
  - vm_compute. reflexivity.
  - vm_compute. reflexivity.
  - vm_compute. split; [discriminate|reflexivity].
  - exact sample_buffers_same_outside.
  - vm_compute. reflexivity.
Defined.

(** C8 as stated fails: the tenant-mismatch error quotes the bytes of the
    decrypted plaintext that follow the message body (and the configured
    tenant identifier), and the handler logs it; two failing inputs whose
    plaintexts differ only there are told apart by their errors. *)
Lemma error_quotes_decrypted_plaintext :
  decrypted_buffer sample_crypto ciphertext_tenant_A =
    Ok (padded_payload "ABCDEFGHIJKLMNOP" "hello" "top-secret-A") /\
  decrypted_buffer sample_crypto ciphertext_tenant_B =
    Ok (padded_payload "ABCDEFGHIJKLMNOP" "hello" "top-secret-B") /\
  Decrypt sample_crypto ciphertext_tenant_A =
    Err (Errorf "corp_id mismatch: got top-secret-A, want wwcorpid0001") /\
  Decrypt sample_crypto ciphertext_tenant_B =
    Err (Errorf "corp_id mismatch: got top-secret-B, want wwcorpid0001") /\
  In (Do (Log "ERROR" "failed to decrypt message"
            [("error", "corp_id mismatch: got top-secret-A, want wwcorpid0001")]))
     (fst (handleCallback (sample_Unmarshal_EncryptedBody ciphertext_tenant_A)
             (sample_Unmarshal_Message "hello") sample_service
             (sample_post (sample_signature ciphertext_tenant_A) ciphertext_tenant_A))).
Proof.
  split; [vm_compute; reflexivity|].
  split; [vm_compute; reflexivity|].
  split; [vm_compute; reflexivity|].
  split; [vm_compute; reflexivity|].
  vm_compute. right. right. left. reflexivity.
Qed.

(* ================================================================== *)
(** * Tampering with the first ciphertext block *)





Section TamperedBlocks.

Import aes aes_facts cipher cipher_facts.








End TamperedBlocks.



(** On the base64 text of a ciphertext of full blocks, [Decrypt] is the CBC
    decryption followed by the parsing steps. *)
Lemma Decrypt_raw (c : cryptoImpl) (ct : list byte) :
  valid_key c -> 0 < len ct -> Z.rem (len ct) aes_BlockSize = 0 ->
  Decrypt c (base64.EncodeToString ct) = unpad_and_parse c (cbc_decrypted c ct).
Proof.
  intros Hk Hpos Hrem. apply Decrypt_encoded; [assumption ..|].
  unfold cipher.CryptBlocks_decrypt. rewrite Hrem. reflexivity.
Qed.


(** The buffers the parsing steps accept: 16 bytes, a length field, the
    message, the tenant identifier and the padding. *)
Lemma unpad_and_parse_Ok_inv (c : cryptoImpl) (d m : list byte) :
  unpad_and_parse c d = Ok m ->
  exists (g l4 : list byte) (p : Z),
    List.length g = 16%nat /\ List.length l4 = 4%nat /\ 1 <= p <= 16 /\
    d = (g ++ l4 ++ m ++ list_byte_of_string (corpID c))
          ++ repeat (byte_of_Z p) (Z.to_nat p) /\
    uint32 (20 + BigEndian_Uint32 l4) = 20 + len m /\
    20 + len m <= uint32 (20 + len m + slen (corpID c)).
Proof.
  unfold unpad_and_parse.
  destruct (pkcs7Unpad d) as [P|e|s] eqn:Hu; cbn [wrap_err bind]; try discriminate.
  destruct (pkcs7Unpad_Ok_inv _ _ Hu) as [Hp [Hpl [HP Hd]]].
  set (p := announced_padding d) in *. clearbody p. clear HP Hu.
  destruct (len P <? 20) eqn:E20; [discriminate|]. apply Z.ltb_ge in E20.
  rewrite subslice_ok by lia. cbn [bind].
  change (Z.to_nat (20 - 16)) with 4%nat. change (Z.to_nat 16) with 16%nat.
  set (l4 := firstn 4 (skipn 16 P)).
  set (hi := uint32 (20 + BigEndian_Uint32 l4)).
  destruct (uint32 (len P) <? hi) eqn:Echk; [discriminate|]. apply Z.ltb_ge in Echk.
  unfold subslice.
  destruct ((0 <=? 20) && (20 <=? hi) && (hi <=? len d)) eqn:Eb1; [|discriminate].
  cbn [bind].
  destruct ((0 <=? hi) && (hi <=? len P) && (len P <=? len P)) eqn:Eb2; [|discriminate].
  cbn [bind].
  apply andb_true_iff in Eb1. destruct Eb1 as [Eb1 _].
  apply andb_true_iff in Eb1. destruct Eb1 as [_ Eb1]. apply Z.leb_le in Eb1.
  apply andb_true_iff in Eb2. destruct Eb2 as [Eb2 _].
  apply andb_true_iff in Eb2. destruct Eb2 as [_ Eb2]. apply Z.leb_le in Eb2.
  destruct (String.eqb _ (corpID c)) eqn:Ecorp; cbn [negb]; [|discriminate].
  intros Hm.
  assert (Hm' : firstn (Z.to_nat (hi - 20)) (skipn (Z.to_nat 20) d) = m) by congruence.
  clear Hm.
  apply String.eqb_eq in Ecorp.
  assert (Htail : skipn (Z.to_nat hi) P = list_byte_of_string (corpID c)).
  { rewrite <- Ecorp, list_byte_of_string_of_list_byte.
    symmetry. apply firstn_all2. rewrite length_skipn. unfold len in *. lia. }
  assert (Hmsg : m = firstn (Z.to_nat (hi - 20)) (skipn 20 P)).
  { rewrite <- Hm', Hd.
    change (Z.to_nat 20) with 20%nat.
    rewrite skipn_app, firstn_app.
    replace (Z.to_nat (hi - 20) - List.length (skipn 20 P))%nat with 0%nat
      by (rewrite length_skipn; unfold len in *; lia).
    now rewrite firstn_O, app_nil_r. }
  assert (Hlm : len m = hi - 20).
  { rewrite Hmsg. apply len_firstn_le.
    change 20%nat with (Z.to_nat 20). rewrite len_skipn; lia. }
  assert (HPsplit : P = firstn 16 P ++ l4 ++ m ++ list_byte_of_string (corpID c)).
  { rewrite <- Htail, Hmsg. unfold l4.
    replace (skipn (Z.to_nat hi) P)
      with (skipn (Z.to_nat (hi - 20)) (skipn 20 P))
      by (rewrite skipn_skipn; f_equal; lia).
    rewrite firstn_skipn.
    replace (skipn 20 P) with (skipn 4 (skipn 16 P)) by now rewrite skipn_skipn.
    now rewrite !firstn_skipn. }
  exists (firstn 16 P), l4, p. repeat split; try lia.
  - rewrite length_firstn. unfold len in *. lia.
  - unfold l4. rewrite length_firstn, length_skipn. unfold len in *. lia.
  - rewrite <- HPsplit. exact Hd.
  - replace (20 + len m + slen (corpID c)) with (len P).
    + lia.
    + rewrite HPsplit at 1. rewrite !len_app, len_list_byte_of_string.
      unfold len at 1 2. rewrite length_firstn.
      unfold l4. rewrite length_firstn, length_skipn. unfold len in *. lia.
Qed.

(** Conversely, what the parsing steps return on a buffer of that form. *)
Lemma unpad_and_parse_build (c : cryptoImpl) (g l4 body tail : list byte) (p : Z) :
  List.length g = 16%nat -> List.length l4 = 4%nat -> 1 <= p <= 16 ->
  uint32 (20 + BigEndian_Uint32 l4) = 20 + len body ->
  20 + len body <= uint32 (20 + len body + len tail) ->
  unpad_and_parse c ((g ++ l4 ++ body ++ tail) ++ repeat (byte_of_Z p) (Z.to_nat p)) =
  if negb (String.eqb (string_of_list_byte tail) (corpID c)) then
    Err (Errorf ("corp_id mismatch: got " +s+ string_of_list_byte tail
                 +s+ ", want " +s+ corpID c))
  else Ok body.
Proof.
  intros Hg Hl Hp Hhi Hchk. unfold unpad_and_parse.
  rewrite pkcs7Unpad_app_repeat by assumption. cbn [wrap_err bind].
  set (P := g ++ l4 ++ body ++ tail).
  assert (HlenP : len P = 20 + len body + len tail).
  { unfold P. rewrite !len_app. unfold len at 1 2. lia. }
  pose proof (len_nonneg body). pose proof (len_nonneg tail).
  replace (len P <? 20) with false by (symmetry; apply Z.ltb_ge; lia).
  rewrite subslice_ok by lia. cbn [bind].
  change (Z.to_nat (20 - 16)) with 4%nat. change (Z.to_nat 16) with 16%nat.
  assert (Hf : firstn 4 (skipn 16 P) = l4).
  { unfold P. rewrite skipn_app_exact by assumption.
    now apply firstn_app_exact. }
  rewrite Hf, Hhi, HlenP.
  replace (uint32 (20 + len body + len tail) <? 20 + len body) with false
    by (symmetry; apply Z.ltb_ge; lia).
  rewrite subslice_ok by (rewrite ?len_app, ?HlenP, ?len_repeat; lia). cbn [bind].
  rewrite subslice_ok by lia. cbn [bind].
  assert (Hmsg : firstn (Z.to_nat (20 + len body - 20))
                   (skipn (Z.to_nat 20) (P ++ repeat (byte_of_Z p) (Z.to_nat p))) = body).
  { unfold P. rewrite (app_assoc g), <- !app_assoc, (app_assoc g).
    rewrite skipn_app_exact by (rewrite length_app; lia).
    apply firstn_app_exact. unfold len. lia. }
  assert (Htail : firstn (Z.to_nat (20 + len body + len tail - (20 + len body)))
                    (skipn (Z.to_nat (20 + len body)) P) = tail).
  { unfold P. rewrite (app_assoc g), (app_assoc (g ++ l4)).
    rewrite skipn_app_exact by (rewrite !length_app; unfold len; lia).
    apply firstn_all2. unfold len. lia. }
  rewrite Hmsg, Htail. reflexivity.
Qed.

(* ================================================================== *)
(** * The other answers of the delivery flow *)

(** A body that is not an envelope is answered 400, before any signature
    check. *)
Lemma envelope_parse_failure_400
    (xml_Unmarshal_EncryptedBody : list byte -> result EncryptedBody.t)
    (xml_Unmarshal_Message : list byte -> result Message.t)
    (svc : serviceImpl) (r : Request) (body : list byte) (err : error) :
  Body r = Ok body ->
  xml_Unmarshal_EncryptedBody body = Err err ->
  handleCallback xml_Unmarshal_EncryptedBody xml_Unmarshal_Message svc r =
  ([Do (Log "WARN" "callback XML parse failed"
          [("error", "unmarshal encrypted body: " +s+ Error err)])],
   http_Error "bad request" StatusBadRequest).
Proof.
  intros Hb He. unfold handleCallback, HandleCallback. rewrite Hb, He.
  reflexivity.
Qed.

(** A decrypted message that is not a message document is answered 400. *)
Lemma message_parse_failure_400
    (xml_Unmarshal_EncryptedBody : list byte -> result EncryptedBody.t)
    (xml_Unmarshal_Message : list byte -> result Message.t)
    (svc : serviceImpl) (r : Request) (body plaintext : list byte)
    (encBody : EncryptedBody.t) (err : error) :
  Body r = Ok body ->
  xml_Unmarshal_EncryptedBody body = Ok encBody ->
  Crypto_VerifySignature (crypto svc) (Query r "msg_signature") (Query r "timestamp")
    (Query r "nonce") (EncryptedBody.Encrypt encBody) = true ->
  Crypto_Decrypt (crypto svc) (EncryptedBody.Encrypt encBody) = Ok plaintext ->
  xml_Unmarshal_Message plaintext = Err err ->
  snd (handleCallback xml_Unmarshal_EncryptedBody xml_Unmarshal_Message svc r) =
  http_Error "bad request" StatusBadRequest.
Proof.
  intros Hb He Hv Hd Hm. unfold handleCallback, HandleCallback.
  rewrite Hb, He. cbn [wrap_err lift io_bind tell app MsgSignature Timestamp Nonce].
  rewrite Hv. cbn [negb]. rewrite Hd.
  cbn [wrap_err lift io_bind tell app]. rewrite Hm. reflexivity.
Qed.

(** A signature that does not verify is answered 403, and [Decrypt] is not
    called. *)
Lemma signature_failure_403
    (xml_Unmarshal_EncryptedBody : list byte -> result EncryptedBody.t)
    (xml_Unmarshal_Message : list byte -> result Message.t)
    (svc : serviceImpl) (r : Request) (body : list byte) (encBody : EncryptedBody.t) :
  Body r = Ok body ->
  xml_Unmarshal_EncryptedBody body = Ok encBody ->
  Crypto_VerifySignature (crypto svc) (Query r "msg_signature") (Query r "timestamp")
    (Query r "nonce") (EncryptedBody.Encrypt encBody) = false ->
  snd (handleCallback xml_Unmarshal_EncryptedBody xml_Unmarshal_Message svc r) =
    http_Error "forbidden" StatusForbidden /\
  decrypt_calls
    (fst (handleCallback xml_Unmarshal_EncryptedBody xml_Unmarshal_Message svc r)) = [].
Proof.
  intros Hb He Hv. unfold handleCallback, HandleCallback.
  rewrite Hb, He. cbn [wrap_err lift io_bind tell app MsgSignature Timestamp Nonce].
  rewrite Hv. split; reflexivity.
Qed.

(* ================================================================== *)
(** * Test vectors of the library functions *)

(** RFC 4648, section 10. *)
Example base64_foobar :
  base64.EncodeToString (list_byte_of_string "foobar") = "Zm9vYmFy" /\
  base64.EncodeToString (list_byte_of_string "fooba") = "Zm9vYmE=" /\
  base64.EncodeToString (list_byte_of_string "foob") = "Zm9vYg==" /\
  base64.DecodeString "Zm9vYg==" = Ok (list_byte_of_string "foob") /\
  base64.DecodeString "Zm9vYg=" = Err (CorruptInputError 7).
Proof. vm_compute. repeat split. Qed.

(** FIPS 197, appendix C: the plaintext [00 11 22 .. ff] under the keys
    [00 01 02 ..] of 16, 24 and 32 bytes. *)
Example aes_fips197 :
  let pt := map (fun n => aes.byte_of_N (N.of_nat (17 * n))) (seq 0 16) in
  let key n := map (fun i => aes.byte_of_N (N.of_nat i)) (seq 0 n) in
  Sprintf_x (aes.Encrypt (aes.KeyExpansion (key 16%nat)) pt)
    = "69c4e0d86a7b0430d8cdb78070b4c55a" /\
  Sprintf_x (aes.Encrypt (aes.KeyExpansion (key 24%nat)) pt)
    = "dda97ca4864cdfe06eaf70a0ec0d7191" /\
  Sprintf_x (aes.Encrypt (aes.KeyExpansion (key 32%nat)) pt)
    = "8ea2b7ca516745bfeafc49904b496089" /\
  aes.Decrypt (aes.KeyExpansion (key 32%nat))
    (aes.Encrypt (aes.KeyExpansion (key 32%nat)) pt) = pt.
Proof. vm_compute. repeat split. Qed.

(** FIPS 180-4: the digests of [abc] and of the empty message. *)
Example sha1_abc :
  Sprintf_x (sha1.Sum (list_byte_of_string "abc"))
    = "a9993e364706816aba3e25717850c26c9cd0d89d" /\
  Sprintf_x (sha1.Sum [])
    = "da39a3ee5e6b4b0d3255bfef95601890afd80709".
Proof. vm_compute. repeat split. Qed.

(** The sample ciphertexts are what [Encrypt] produces. *)
Example sample_ciphertexts :
  Encrypt sample_crypto (Ok sample_random) (list_byte_of_string "hello")
    = Ok ciphertext_hello /\
  Encrypt sample_crypto (Ok sample_random) (list_byte_of_string "1234567890")
    = Ok ciphertext_echostr /\
  Encrypt sample_crypto (Ok sample_random)
    (list_byte_of_string (sample_message_xml sample_mention)) = Ok ciphertext_mention /\
  Encrypt sample_crypto (Ok sample_random)
    (list_byte_of_string (sample_message_xml "hello")) = Ok ciphertext_plain.
Proof. vm_compute. repeat split. Qed.

(** The signature check on the sample callback, and on the uppercase
    rendering of its signature. *)
Example sample_signature_verifies :
  sample_signature ciphertext_mention = "f606de3b42a7f17ce5ab5e1d921482dccb343288" /\
  VerifySignature sample_crypto "f606de3b42a7f17ce5ab5e1d921482dccb343288"
    sample_timestamp sample_nonce ciphertext_mention = true /\
  VerifySignature sample_crypto "F606DE3B42A7F17CE5AB5E1D921482DCCB343288"
    sample_timestamp sample_nonce ciphertext_mention = false.
Proof. vm_compute. repeat split. Qed.

(* ================================================================== *)
(** * Further properties of the message cipher *)

(** ** Padding *)

Lemma pad_length_general (data : list byte) (blockSize : Z) :
  1 <= blockSize ->
  1 <= blockSize - Z.rem (len data) blockSize <= blockSize.
Proof.
  intros Hb. pose proof (len_nonneg data).
  pose proof (Z.rem_bound_pos (len data) blockSize). lia.
Qed.

(** X1.  For every block size from 1 to 16, [pkcs7Pad] adds between one
    byte and a full block, the padded length is a multiple of the block
    size, and [pkcs7Unpad] gives the data back. *)
Theorem pkcs7Unpad_pkcs7Pad_blockSize (data : list byte) (blockSize : Z) :
  1 <= blockSize <= 16 ->
  pkcs7Unpad (pkcs7Pad data blockSize) = Ok data /\
  Z.rem (len (pkcs7Pad data blockSize)) blockSize = 0 /\
  len data < len (pkcs7Pad data blockSize) <= len data + blockSize.
Proof.
  intros Hb. pose proof (pad_length_general data blockSize ltac:(lia)) as Hp.
  pose proof (len_nonneg data) as Hn.
  unfold pkcs7Pad. cbv zeta.
  set (p := blockSize - Z.rem (len data) blockSize) in *.
  split; [apply pkcs7Unpad_app_repeat; lia|].
  rewrite len_app, len_repeat, Z2Nat.id by lia.
  split; [|lia].
  unfold p. rewrite !Z.rem_mod_nonneg by (try lia;
    rewrite Z.rem_mod_nonneg by lia;
    pose proof (Z.mod_pos_bound (len data) blockSize); lia).
  replace (len data + (blockSize - len data mod blockSize))
    with (len data - len data mod blockSize + 1 * blockSize) by lia.
  rewrite Z.mod_add by lia.
  rewrite Zminus_mod_idemp_r, Z.sub_diag. apply Z.mod_0_l. lia.
Qed.

Lemma pkcs7Unpad_pkcs7Pad_blockSize_witness :
  pkcs7Unpad (pkcs7Pad (list_byte_of_string "abc") 8) = Ok (list_byte_of_string "abc") /\
  Z.rem (len (pkcs7Pad (list_byte_of_string "abc") 8)) 8 = 0 /\
  len (list_byte_of_string "abc") < len (pkcs7Pad (list_byte_of_string "abc") 8)
    <= len (list_byte_of_string "abc") + 8.
Proof. apply (pkcs7Unpad_pkcs7Pad_blockSize (list_byte_of_string "abc") 8). lia. Defined.

(** ** The steps of [Decrypt] before the parsing *)

Lemma decode_no_panic (src : list byte) :
  forall si dbuf m, base64.decode src si dbuf <> Panic m.
Proof.
  induction src as [|ch tl IH]; intros si dbuf m; cbn [base64.decode].
  - destruct dbuf; discriminate.
  - destruct (base64.decodeMap ch).
    + destruct (_ =? 4).
      * destruct (base64.decode tl (si + 1) []) eqn:E; cbn [bind]; try discriminate.
        exfalso. eapply IH. exact E.
      * apply IH.
    + destruct (base64.is_newline ch); [apply IH|].
      destruct (negb _); [discriminate|].
      unfold base64.after_padding.
      destruct dbuf as [|d0 [|d1 [|d2 dbuf]]]; try discriminate.
      * destruct (base64.skip_newlines tl (si + 1)) as [[|c2 tl2] si'];
          [discriminate|].
        destruct (negb _); [discriminate|].
        destruct (base64.skip_newlines tl2 (si' + 1)) as [[|] ?]; discriminate.
      * destruct (base64.skip_newlines tl (si + 1)) as [[|] ?]; discriminate.
Qed.

Lemma decode_Err_inv (src : list byte) :
  forall si dbuf e, base64.decode src si dbuf = Err e ->
  exists pos, e = CorruptInputError pos.
Proof.
  induction src as [|ch tl IH]; intros si dbuf e; cbn [base64.decode].
  - destruct dbuf; [discriminate|]. intros H. injection H as <-. eauto.
  - destruct (base64.decodeMap ch).
    + destruct (_ =? 4).
      * destruct (base64.decode tl (si + 1) []) eqn:E; cbn [bind]; try discriminate.
        intros H. injection H as <-. eapply IH. exact E.
      * apply IH.
    + destruct (base64.is_newline ch); [apply IH|].
      destruct (negb _); [intros H; injection H as <-; eauto|].
      unfold base64.after_padding.
      destruct dbuf as [|d0 [|d1 [|d2 dbuf]]];
        try (intros H; injection H as <-; eauto; fail).
      * destruct (base64.skip_newlines tl (si + 1)) as [[|c2 tl2] si'];
          [intros H; injection H as <-; eauto|].
        destruct (negb _); [intros H; injection H as <-; eauto|].
        destruct (base64.skip_newlines tl2 (si' + 1)) as [[|] ?];
          [discriminate|intros H; injection H as <-; eauto].
      * destruct (base64.skip_newlines tl (si + 1)) as [[|] ?];
          [discriminate|intros H; injection H as <-; eauto].
Qed.

(** With a key of 32 bytes the steps up to the block decryption do not
    panic, and the buffer they fill has the length of the ciphertext. *)
Lemma decrypted_buffer_valid (c : cryptoImpl) (encrypted : string) :
  valid_key c ->
  decrypted_buffer c encrypted =
  (ciphertext <- wrap_err "base64 decode: " (base64.DecodeString encrypted) ;;
   if (len ciphertext =? 0) || negb (Z.rem (len ciphertext) aes_BlockSize =? 0) then
     Err (Errorf ("ciphertext length " +s+ itoa (len ciphertext)
                  +s+ " is not a multiple of block size " +s+ itoa aes_BlockSize))
   else Ok (cbc_decrypted c ciphertext)).
Proof.
  intros Hk. unfold decrypted_buffer.
  destruct (wrap_err "base64 decode: " (base64.DecodeString encrypted))
    as [ct|e|p]; cbn [bind]; try reflexivity.
  destruct (len ct =? 0); [reflexivity|]. cbn [orb].
  destruct (Z.rem (len ct) aes_BlockSize =? 0) eqn:E; [|reflexivity]. cbn [negb].
  rewrite (NewCipher_valid c Hk). cbn [wrap_err bind].
  rewrite (iv_valid c Hk). cbn [bind].
  unfold cipher.NewCBCDecrypter. rewrite (len_iv c Hk).
  cbn [Z.eqb Pos.eqb aes_BlockSize bind].
  unfold cipher.CryptBlocks_decrypt. cbn [cipher.mode_block cipher.mode_iv].
  change (Z.rem (len ct) 16) with (Z.rem (len ct) aes_BlockSize). rewrite E.
  reflexivity.
Qed.

Lemma len_cbc_decrypted (c : cryptoImpl) (ct : list byte) :
  Z.rem (len ct) aes_BlockSize = 0 -> len (cbc_decrypted c ct) = len ct.
Proof.
  intros Hrem. unfold cbc_decrypted.
  rewrite cipher_facts.len_join_blocks. unfold len at 1.
  rewrite cipher_facts.length_cbc_decrypt.
  apply (cipher_facts.len_split_blocks ct Hrem).
Qed.

Lemma decrypted_buffer_Ok_inv (c : cryptoImpl) (encrypted : string) (d : list byte) :
  valid_key c -> decrypted_buffer c encrypted = Ok d ->
  exists ct, base64.DecodeString encrypted = Ok ct /\ 0 < len ct /\
             Z.rem (len ct) aes_BlockSize = 0 /\ d = cbc_decrypted c ct /\
             len d = len ct.
Proof.
  intros Hk. rewrite (decrypted_buffer_valid c encrypted Hk).
  destruct (base64.DecodeString encrypted) as [ct|e|p]; cbn [wrap_err bind];
    try discriminate.
  pose proof (len_nonneg ct) as Hn.
  destruct (len ct =? 0) eqn:E0; [discriminate|]. cbn [orb].
  destruct (Z.rem (len ct) aes_BlockSize =? 0) eqn:E1; [|discriminate]. cbn [negb].
  apply Z.eqb_neq in E0. apply Z.eqb_eq in E1.
  intros H. injection H as <-. exists ct.
  repeat split; try assumption; try lia. now apply len_cbc_decrypted.
Qed.

Lemma decrypted_buffer_no_panic (c : cryptoImpl) (encrypted : string) (m : string) :
  valid_key c -> decrypted_buffer c encrypted <> Panic m.
Proof.
  intros Hk. rewrite (decrypted_buffer_valid c encrypted Hk).
  unfold base64.DecodeString.
  destruct (base64.decode (list_byte_of_string encrypted) 0 []) as [ct|e|p] eqn:E;
    cbn [wrap_err bind]; try discriminate.
  - destruct (_ || _); discriminate.
  - exfalso. eapply decode_no_panic. exact E.
Qed.

(** ** The errors of [Decrypt] *)

Lemma pkcs7Unpad_Err_inv (c : cryptoImpl) (data : list byte) (e : error) :
  pkcs7Unpad data = Err e -> decrypt_error c (Errorf_w "pkcs7 unpad: " e).
Proof.
  unfold pkcs7Unpad.
  destruct (len data =? 0); [intros H; injection H as <-; constructor|].
  destruct (_ || _); [intros H; injection H as <-; constructor|].
  destruct (_ >? _); [intros H; injection H as <-; constructor|].
  destruct (check_padding _ _ _); [intros H; injection H as <-; constructor|].
  discriminate.
Qed.

Lemma unpad_and_parse_Err_inv (c : cryptoImpl) (d : list byte) (e : error) :
  unpad_and_parse c d = Err e -> decrypt_error c e.
Proof.
  unfold unpad_and_parse.
  destruct (pkcs7Unpad d) as [pt|e0|p] eqn:Eu; cbn [wrap_err bind]; try discriminate.
  2:{ intros H. injection H as <-. eapply pkcs7Unpad_Err_inv. exact Eu. }
  destruct (len pt <? 20); [intros H; injection H as <-; constructor|].
  destruct (subslice pt 16 20) as [lf|e1|p1] eqn:E1; cbn [bind]; try discriminate.
  2:{ unfold subslice in E1. destruct (_ && _); discriminate. }
  destruct (_ <? _); [intros H; injection H as <-; constructor|].
  destruct (subslice d 20 _) as [msg|e2|p2] eqn:E2; cbn [bind]; try discriminate.
  2:{ unfold subslice in E2. destruct (_ && _); discriminate. }
  destruct (subslice pt (uint32 _) _) as [tl|e3|p3] eqn:E3; cbn [bind];
    try discriminate.
  2:{ unfold subslice in E3. destruct (_ && _); discriminate. }
  destruct (String.eqb _ _) eqn:Eq; cbn [negb]; [discriminate|].
  intros H. injection H as <-. constructor. now apply String.eqb_neq.
Qed.

Lemma Decrypt_Err_inv (c : cryptoImpl) (encrypted : string) (e : error) :
  Decrypt c encrypted = Err e -> decrypt_error c e.
Proof.
  rewrite Decrypt_unfold. unfold base64.DecodeString.
  destruct (base64.decode (list_byte_of_string encrypted) 0 []) as [ct|e0|p] eqn:E;
    cbn [wrap_err bind]; try discriminate.
  2:{ intros H. injection H as <-.
      destruct (decode_Err_inv _ _ _ _ E) as [pos ->]. constructor. }
  destruct (_ || _); [intros H; injection H as <-; constructor|].
  unfold aes.NewCipher.
  destruct (_ || _); cbn [wrap_err bind];
    [|intros H; injection H as <-; constructor].
  destruct (subslice (aesKey c) 0 aes_BlockSize) as [iv|e1|p1] eqn:E1; cbn [bind];
    try discriminate.
  2:{ unfold subslice in E1. destruct (_ && _); discriminate. }
  unfold cipher.NewCBCDecrypter. destruct (len iv =? aes_BlockSize); cbn [bind];
    [|discriminate].
  unfold cipher.CryptBlocks_decrypt. cbn [cipher.mode_block cipher.mode_iv].
  destruct (Z.rem (len ct) aes_BlockSize =? 0); cbn [bind]; [|discriminate].
  apply unpad_and_parse_Err_inv.
Qed.

Lemma decrypt_error_not_signature (c : cryptoImpl) (e : error) :
  decrypt_error c e -> errors_Is_ErrInvalidSignature e = false.
Proof. intros H. destruct H; reflexivity. Qed.

(** X2.  Every error of [Decrypt] is one of the ten of its steps (base64,
    block alignment, key size, the four padding defects, short plaintext,
    length field, tenant identifier), and none of them is, or wraps, the
    sentinel [ErrInvalidSignature]. *)
Theorem Decrypt_error_catalogue (c : cryptoImpl) (encrypted : string) (e : error) :
  Decrypt c encrypted = Err e ->
  decrypt_error c e /\ errors_Is_ErrInvalidSignature e = false.
Proof.
  intros H. apply Decrypt_Err_inv in H. split; [assumption|].
  eapply decrypt_error_not_signature. eassumption.
Qed.

Lemma Decrypt_error_catalogue_witness :
  decrypt_error sample_crypto
    (Errorf "ciphertext length 0 is not a multiple of block size 16") /\
  errors_Is_ErrInvalidSignature
    (Errorf "ciphertext length 0 is not a multiple of block size 16") = false.
Proof.
  apply (Decrypt_error_catalogue sample_crypto ""). vm_compute. reflexivity.
Defined.

(** ** What [Decrypt] accepts *)

(** X3.  A ciphertext that is empty or not made of full blocks is refused
    with the block alignment error, whatever the key is (the check comes
    before the cipher is built). *)
Theorem Decrypt_partial_blocks (c : cryptoImpl) (ciphertext : list byte) :
  len ciphertext = 0 \/ Z.rem (len ciphertext) aes_BlockSize <> 0 ->
  Decrypt c (base64.EncodeToString ciphertext) =
  Err (Errorf ("ciphertext length " +s+ itoa (len ciphertext)
               +s+ " is not a multiple of block size 16")).
Proof.
  intros H. rewrite Decrypt_unfold, base64_facts.DecodeString_EncodeToString.
  cbn [wrap_err bind].
  destruct (len ciphertext =? 0) eqn:E0; [reflexivity|].
  destruct (Z.rem (len ciphertext) aes_BlockSize =? 0) eqn:E1; [|reflexivity].
  apply Z.eqb_neq in E0. apply Z.eqb_eq in E1. destruct H; contradiction.
Qed.

Lemma Decrypt_partial_blocks_witness :
  Decrypt other_crypto (base64.EncodeToString (list_byte_of_string "seventeen bytes!!")) =
  Err (Errorf "ciphertext length 17 is not a multiple of block size 16").
Proof.
  apply (Decrypt_partial_blocks other_crypto (list_byte_of_string "seventeen bytes!!")).
  right. vm_compute. discriminate.
Defined.

(** X4.  No ciphertext of fewer than 32 bytes is accepted: with a key of 32
    bytes, [Decrypt] answers each of them with an error. *)
Theorem Decrypt_short_ciphertext (c : cryptoImpl) (ciphertext : list byte) :
  valid_key c -> len ciphertext < 32 ->
  exists e, Decrypt c (base64.EncodeToString ciphertext) = Err e.
Proof.
  intros Hk Hlen. pose proof (len_nonneg ciphertext) as Hn.
  destruct (Z.eq_dec (len ciphertext) 16) as [H16|Hne].
  - rewrite Decrypt_raw;
      [|assumption|rewrite H16; lia|rewrite H16; reflexivity].
    assert (Hd : len (cbc_decrypted c ciphertext) = 16).
    { rewrite len_cbc_decrypted; [assumption|]. rewrite H16. reflexivity. }
    unfold unpad_and_parse.
    destruct (pkcs7Unpad (cbc_decrypted c ciphertext)) as [pt|e0|p] eqn:Eu;
      cbn [wrap_err bind].
    + destruct (pkcs7Unpad_Ok_inv _ _ Eu) as [Hp [_ [Hpt _]]].
      assert (Hs : len pt < 20).
      { rewrite Hpt. rewrite len_firstn_le; lia. }
      apply Z.ltb_lt in Hs. rewrite Hs. eauto.
    + eauto.
    + exfalso. eapply pkcs7Unpad_no_panic. exact Eu.
  - rewrite Decrypt_unfold, base64_facts.DecodeString_EncodeToString.
    cbn [wrap_err bind].
    destruct (len ciphertext =? 0) eqn:E0; [cbn [orb]; eauto|].
    destruct (Z.rem (len ciphertext) aes_BlockSize =? 0) eqn:E1; [|cbn [orb negb]; eauto].
    exfalso. apply Z.eqb_neq in E0. apply Z.eqb_eq in E1.
    rewrite rem_16 in E1 by lia.
    revert E1. Z.div_mod_to_equations. lia.
Qed.

Lemma Decrypt_short_ciphertext_witness :
  exists e, Decrypt sample_crypto
              (base64.EncodeToString (list_byte_of_string "sixteen bytes !!")) = Err e.
Proof.
  apply (Decrypt_short_ciphertext sample_crypto (list_byte_of_string "sixteen bytes !!"));
    vm_compute; reflexivity.
Defined.

(** X5.  What [Decrypt] returns was found in the decrypted buffer between a
    prefix of 16 bytes with a 4-byte length field that declares its length,
    and the tenant identifier of the cipher followed by a valid padding of
    1 to 16 bytes; nothing else is in the buffer. *)
Theorem Decrypt_Ok_layout (c : cryptoImpl) (encrypted : string) (msg : list byte) :
  Decrypt c encrypted = Ok msg ->
  exists (decrypted prefix lenField : list byte) (padding : Z),
    decrypted_buffer c encrypted = Ok decrypted /\
    len prefix = 16 /\ len lenField = 4 /\ 1 <= padding <= 16 /\
    decrypted = (prefix ++ lenField ++ msg ++ list_byte_of_string (corpID c))
                  ++ repeat (byte_of_Z padding) (Z.to_nat padding) /\
    uint32 (20 + BigEndian_Uint32 lenField) = 20 + len msg.
Proof.
  rewrite Decrypt_decrypted_buffer.
  destruct (decrypted_buffer c encrypted) as [d|e|p]; cbn [bind]; try discriminate.
  intros H. destruct (unpad_and_parse_Ok_inv c d msg H)
    as [g [l4 [p [Hg [Hl [Hp [Hd [Hu _]]]]]]]].
  exists d, g, l4, p. unfold len. rewrite Hg, Hl.
  repeat split; try assumption; try lia.
Qed.

Lemma Decrypt_Ok_layout_witness :
  exists (decrypted prefix lenField : list byte) (padding : Z),
    decrypted_buffer sample_crypto ciphertext_hello = Ok decrypted /\
    len prefix = 16 /\ len lenField = 4 /\ 1 <= padding <= 16 /\
    decrypted = (prefix ++ lenField ++ list_byte_of_string "hello"
                   ++ list_byte_of_string (corpID sample_crypto))
                  ++ repeat (byte_of_Z padding) (Z.to_nat padding) /\
    uint32 (20 + BigEndian_Uint32 lenField) = 20 + len (list_byte_of_string "hello").
Proof.
  apply (Decrypt_Ok_layout sample_crypto ciphertext_hello (list_byte_of_string "hello")).
  vm_compute. reflexivity.
Defined.

(** ** Panics *)

Lemma uint32_le (z : Z) : 0 <= z -> uint32 z <= z.
Proof. intros H. unfold uint32. apply Z.mod_le; lia. Qed.

Lemma declared_length_lenField (plaintext : list byte) :
  20 <= len plaintext ->
  subslice plaintext 16 20 = Ok (firstn 4 (skipn 16 plaintext)).
Proof. intros H. rewrite subslice_ok by lia. reflexivity. Qed.

Lemma unpad_and_parse_panic (c : cryptoImpl) (d : list byte) :
  (exists m, unpad_and_parse c d = Panic m) <->
  exists plaintext,
    pkcs7Unpad d = Ok plaintext /\ 20 <= len plaintext /\
    4294967296 - 20 <= declared_length plaintext /\
    uint32 (20 + declared_length plaintext) <= uint32 (len plaintext).
Proof.
  unfold unpad_and_parse. split.
  - intros [m H].
    destruct (pkcs7Unpad d) as [pt|e0|p] eqn:Eu; cbn [wrap_err bind] in H;
      try discriminate.
    2:{ exfalso. eapply pkcs7Unpad_no_panic. exact Eu. }
    destruct (len pt <? 20) eqn:E20; [discriminate|].
    apply Z.ltb_ge in E20.
    rewrite (declared_length_lenField pt E20) in H. cbn [bind] in H.
    fold (declared_length pt) in H.
    destruct (uint32 (len pt) <? uint32 (20 + declared_length pt)) eqn:Ec;
      [discriminate|].
    apply Z.ltb_ge in Ec.
    exists pt. split; [reflexivity|]. split; [assumption|]. split; [|assumption].
    pose proof (BigEndian_Uint32_range (firstn 4 (skipn 16 pt))) as Hr.
    fold (declared_length pt) in Hr.
    destruct (uint32_sum_cases _ Hr) as [Hs|Hs].
    + exfalso.
      destruct (pkcs7Unpad_Ok_inv _ _ Eu) as [Hp [_ [_ Hd]]].
      pose proof (uint32_le (len pt) ltac:(lia)) as Hle.
      assert (Hdl : len pt <= len d).
      { pose proof (f_equal len Hd) as Hl. rewrite len_app in Hl.
        pose proof (len_nonneg
          (repeat (byte_of_Z (announced_padding d)) (Z.to_nat (announced_padding d)))).
        lia. }
      rewrite Hs in H, Ec.
      rewrite (subslice_ok d) in H by lia. cbn [bind] in H.
      rewrite (subslice_ok pt) in H by lia. cbn [bind] in H.
      destruct (negb _) in H; discriminate.
    + unfold uint32 in Hs.
      pose proof (Z.mod_small (20 + declared_length pt) (2 ^ 32)) as Hm.
      change (2 ^ 32) with 4294967296 in *.
      destruct (Z_lt_dec (20 + declared_length pt) 4294967296); [|lia].
      rewrite Hm in Hs by lia. lia.
  - intros [pt [Eu [E20 [Hw Hc]]]]. rewrite Eu. cbn [wrap_err bind].
    replace (len pt <? 20) with false by (symmetry; apply Z.ltb_ge; assumption).
    rewrite (declared_length_lenField pt E20). cbn [bind].
    fold (declared_length pt).
    replace (uint32 (len pt) <? uint32 (20 + declared_length pt)) with false
      by (symmetry; apply Z.ltb_ge; assumption).
    pose proof (BigEndian_Uint32_range (firstn 4 (skipn 16 pt))) as Hr.
    fold (declared_length pt) in Hr.
    assert (Hlt : uint32 (20 + declared_length pt) < 20).
    { unfold uint32. change (2 ^ 32) with 4294967296.
      replace (20 + declared_length pt)
        with (20 + declared_length pt - 4294967296 + 1 * 4294967296) by lia.
      rewrite Z.mod_add by lia. rewrite Z.mod_small; lia. }
    destruct (subslice_inverted d 20 (uint32 (20 + declared_length pt)) Hlt)
      as [m Hm].
    rewrite Hm. cbn [bind]. eauto.
Qed.

(** X6.  With a key of 32 bytes, [Decrypt] panics exactly when the padding
    of the decrypted buffer is valid, the plaintext has its 20 leading
    bytes, and the length field is at least [2^32 - 20], so that [20 +
    msgLen] wraps around below 20 and passes the length check. *)
Theorem Decrypt_panics_iff (c : cryptoImpl) (encrypted : string) :
  valid_key c ->
  ((exists m, Decrypt c encrypted = Panic m) <->
   exists decrypted plaintext,
     decrypted_buffer c encrypted = Ok decrypted /\
     pkcs7Unpad decrypted = Ok plaintext /\ 20 <= len plaintext /\
     4294967296 - 20 <= declared_length plaintext /\
     uint32 (20 + declared_length plaintext) <= uint32 (len plaintext)).
Proof.
  intros Hk. rewrite Decrypt_decrypted_buffer. split.
  - intros [m H].
    destruct (decrypted_buffer c encrypted) as [d|e|p] eqn:Ed; cbn [bind] in H;
      try discriminate.
    + destruct (proj1 (unpad_and_parse_panic c d) (ex_intro _ m H)) as [pt Hpt].
      exists d, pt. split; [reflexivity|assumption].
    + exfalso. eapply decrypted_buffer_no_panic; eassumption.
  - intros [d [pt [Ed Hpt]]]. rewrite Ed. cbn [bind].
    apply (proj2 (unpad_and_parse_panic c d)). exists pt. assumption.
Qed.

Lemma Decrypt_panics_iff_witness :
  (exists m, Decrypt sample_crypto ciphertext_length_ffffffff = Panic m) <->
  exists decrypted plaintext,
    decrypted_buffer sample_crypto ciphertext_length_ffffffff = Ok decrypted /\
    pkcs7Unpad decrypted = Ok plaintext /\ 20 <= len plaintext /\
    4294967296 - 20 <= declared_length plaintext /\
    uint32 (20 + declared_length plaintext) <= uint32 (len plaintext).
Proof.
  apply (Decrypt_panics_iff sample_crypto ciphertext_length_ffffffff).
  vm_compute. reflexivity.
Defined.

(** ** Two tenants *)

Lemma mode_of_same_key (c1 c2 : cryptoImpl) :
  aesKey c2 = aesKey c1 -> mode_of c2 = mode_of c1.
Proof. intros H. unfold mode_of. rewrite H. reflexivity. Qed.

(** What [Encrypt] produces under one cipher, as a second cipher with the
    same key reads it. *)
Lemma Decrypt_Encrypt_tenants (c1 c2 : cryptoImpl) (randomBytes plaintext : list byte) :
  valid_key c1 -> aesKey c2 = aesKey c1 ->
  len randomBytes = 16 ->
  20 + len plaintext + slen (corpID c1) < 4294967296 ->
  exists encrypted,
    Encrypt c1 (Ok randomBytes) plaintext = Ok encrypted /\
    Decrypt c2 encrypted =
    if negb (String.eqb (corpID c1) (corpID c2)) then
      Err (Errorf ("corp_id mismatch: got " +s+ corpID c1 +s+ ", want " +s+ corpID c2))
    else Ok plaintext.
Proof.
  intros Hk Hkey Hr Hb.
  assert (Hk2 : valid_key c2) by (unfold valid_key in *; now rewrite Hkey).
  pose proof (len_nonneg plaintext) as Hn.
  assert (Hsl : 0 <= slen (corpID c1)) by (unfold slen; lia).
  unfold Encrypt. cbn [wrap_err bind].
  rewrite (NewCipher_valid c1 Hk). cbn [wrap_err bind].
  rewrite (iv_valid c1 Hk). cbn [bind].
  unfold cipher.NewCBCEncrypter. rewrite (len_iv c1 Hk).
  cbn [Z.eqb Pos.eqb aes_BlockSize bind].
  fold (mode_of c1). fold (WirePayload randomBytes plaintext (corpID c1)).
  set (payload := WirePayload randomBytes plaintext (corpID c1)).
  destruct (cipher_facts.CryptBlocks_encrypt_ok (mode_of c1)
              (pkcs7Pad payload aes_BlockSize) (pkcs7Pad_full_blocks _))
    as [ct [He [Hl Hd]]].
  rewrite He. cbn [bind]. eexists. split; [reflexivity|].
  pose proof (pad_length_range payload) as Hp.
  rewrite (Decrypt_encoded c2 ct (pkcs7Pad payload aes_BlockSize)); try assumption.
  2:{ rewrite Hl, len_pkcs7Pad. pose proof (len_nonneg payload). lia. }
  2:{ rewrite (mode_of_same_key c1 c2 Hkey). assumption. }
  unfold pkcs7Pad. cbv zeta.
  set (p := aes_BlockSize - Z.rem (len payload) aes_BlockSize) in *.
  unfold payload, WirePayload.
  rewrite unpad_and_parse_build.
  - rewrite string_of_list_byte_of_string. reflexivity.
  - unfold len in Hr. lia.
  - apply len_PutUint32.
  - assumption.
  - rewrite BigEndian_Uint32_PutUint32 by apply uint32_range.
    rewrite (uint32_small (len plaintext)) by lia. apply uint32_small. lia.
  - rewrite len_list_byte_of_string. rewrite uint32_small; lia.
Qed.

(** X7.  The tenant identifier is enforced: what [Encrypt] produces for one
    tenant is refused by a cipher that has the same key and another tenant
    identifier, with an error that names both identifiers. *)
Theorem Decrypt_other_tenant (c1 c2 : cryptoImpl) (randomBytes plaintext : list byte) :
  valid_key c1 -> aesKey c2 = aesKey c1 -> corpID c1 <> corpID c2 ->
  len randomBytes = 16 ->
  20 + len plaintext + slen (corpID c1) < 4294967296 ->
  exists encrypted,
    Encrypt c1 (Ok randomBytes) plaintext = Ok encrypted /\
    Decrypt c2 encrypted =
    Err (Errorf ("corp_id mismatch: got " +s+ corpID c1 +s+ ", want " +s+ corpID c2)).
Proof.
  intros Hk Hkey Hne Hr Hb.
  destruct (Decrypt_Encrypt_tenants c1 c2 randomBytes plaintext Hk Hkey Hr Hb)
    as [enc [He Hd]].
  exists enc. split; [assumption|]. rewrite Hd.
  replace (String.eqb (corpID c1) (corpID c2)) with false
    by (symmetry; now apply String.eqb_neq).
  reflexivity.
Qed.

Lemma Decrypt_other_tenant_witness :
  exists encrypted,
    Encrypt sample_crypto (Ok sample_random) (list_byte_of_string "hello") = Ok encrypted /\
    Decrypt {| token := "QDG6eK"; aesKey := sample_key; corpID := "wwcorpid0002" |}
      encrypted =
    Err (Errorf ("corp_id mismatch: got " +s+ corpID sample_crypto +s+ ", want "
                 +s+ "wwcorpid0002")).
Proof.
  apply (Decrypt_other_tenant sample_crypto
           {| token := "QDG6eK"; aesKey := sample_key; corpID := "wwcorpid0002" |}
           sample_random (list_byte_of_string "hello"));
    try (vm_compute; reflexivity).
  vm_compute. discriminate.
Defined.

(** ** The signature *)

(** X8.  The signature does not depend on which of the four strings is the
    token, the timestamp, the nonce or the ciphertext: two requests whose
    four strings are the same up to their order verify alike. *)
Theorem VerifySignature_permutation (c c' : cryptoImpl)
    (signature timestamp nonce msgEncrypt timestamp' nonce' msgEncrypt' : string) :
  Permutation [token c; timestamp; nonce; msgEncrypt]
              [token c'; timestamp'; nonce'; msgEncrypt'] ->
  VerifySignature c signature timestamp nonce msgEncrypt =
  VerifySignature c' signature timestamp' nonce' msgEncrypt'.
Proof.
  intros Hp. unfold VerifySignature. cbv zeta.
  replace (sort_Strings [token c'; timestamp'; nonce'; msgEncrypt'])
    with (sort_Strings [token c; timestamp; nonce; msgEncrypt]); [reflexivity|].
  apply sorted_unique; try apply sort_Strings_sorted.
  eapply Permutation_trans; [apply sort_Strings_perm|].
  eapply Permutation_trans; [exact Hp|].
  apply Permutation_sym, sort_Strings_perm.
Qed.

Lemma VerifySignature_permutation_witness :
  VerifySignature sample_crypto (sample_signature ciphertext_hello)
    sample_timestamp sample_nonce ciphertext_hello =
  VerifySignature sample_crypto (sample_signature ciphertext_hello)
    sample_nonce sample_timestamp ciphertext_hello.
Proof.
  apply (VerifySignature_permutation sample_crypto sample_crypto).
  apply perm_skip. apply perm_swap.
Defined.

(* ================================================================== *)
(** * From the configuration to the cipher *)

Lemma NewCrypto_Ok_inv (tok key corp : string) (c : cryptoImpl) :
  NewCrypto tok key corp = Ok c ->
  valid_key c /\ token c = tok /\ corpID c = corp /\
  base64.DecodeString (key +s+ "=") = Ok (aesKey c).
Proof.
  unfold NewCrypto.
  destruct (base64.DecodeString (key +s+ "=")) as [k|e|p]; cbn [wrap_err bind];
    try discriminate.
  destruct (len k =? 32) eqn:E; cbn [negb]; [|discriminate].
  intros H. injection H as <-. apply Z.eqb_eq in E.
  unfold valid_key. cbn. auto.
Qed.

Lemma len_Encrypt_padded (randomBytes plaintext : list byte) (corp : string) :
  let n := len randomBytes + 4 + len plaintext + slen corp in
  n < len (pkcs7Pad (WirePayload randomBytes plaintext corp) aes_BlockSize) <= n + 16.
Proof.
  cbv zeta. rewrite len_pkcs7Pad.
  pose proof (pad_length_range (WirePayload randomBytes plaintext corp)) as Hp.
  set (p := aes_BlockSize - _) in *. rewrite len_WirePayload. lia.
Qed.

(** X9.  On a cipher that [NewCrypto] has built, [Encrypt] fails only with
    the random source: with 16 random bytes it returns the base64 text of a
    ciphertext of full blocks, 1 to 16 bytes longer than the random prefix,
    the length field, the message and the tenant identifier together; an
    error of the random source is returned wrapped. *)
Theorem Encrypt_succeeds (tok key corp : string) (c : cryptoImpl)
    (randomBytes plaintext : list byte) :
  NewCrypto tok key corp = Ok c ->
  (exists ciphertext,
     Encrypt c (Ok randomBytes) plaintext = Ok (base64.EncodeToString ciphertext) /\
     Z.rem (len ciphertext) aes_BlockSize = 0 /\
     let n := len randomBytes + 4 + len plaintext + slen corp in
     n < len ciphertext <= n + 16) /\
  (forall err, Encrypt c (Err err) plaintext =
               Err (Errorf_w "generate random bytes: " err)).
Proof.
  intros H. destruct (NewCrypto_Ok_inv _ _ _ _ H) as [Hk [_ [Hc _]]].
  split; [|reflexivity].
  unfold Encrypt. cbn [wrap_err bind].
  rewrite (NewCipher_valid c Hk). cbn [wrap_err bind].
  rewrite (iv_valid c Hk). cbn [bind].
  unfold cipher.NewCBCEncrypter. rewrite (len_iv c Hk).
  cbn [Z.eqb Pos.eqb aes_BlockSize bind].
  fold (mode_of c). fold (WirePayload randomBytes plaintext (corpID c)).
  destruct (cipher_facts.CryptBlocks_encrypt_ok (mode_of c)
              (pkcs7Pad (WirePayload randomBytes plaintext (corpID c)) aes_BlockSize)
              (pkcs7Pad_full_blocks _)) as [ct [He [Hl _]]].
  rewrite He. cbn [bind]. exists ct. split; [reflexivity|].
  rewrite Hl, Hc. split; [apply pkcs7Pad_full_blocks|apply len_Encrypt_padded].
Qed.

Lemma Encrypt_succeeds_witness :
  (exists ciphertext,
     Encrypt sample_crypto (Ok sample_random) (list_byte_of_string "hello")
       = Ok (base64.EncodeToString ciphertext) /\
     Z.rem (len ciphertext) aes_BlockSize = 0 /\
     let n := len sample_random + 4 + len (list_byte_of_string "hello")
              + slen "wwcorpid0001" in
     n < len ciphertext <= n + 16) /\
  (forall err, Encrypt sample_crypto (Err err) (list_byte_of_string "hello") =
               Err (Errorf_w "generate random bytes: " err)).
Proof.
  apply (Encrypt_succeeds "QDG6eK" "AAECAwQFBgcICQoLDA0ODxAREhMUFRYXGBkaGxwdHh8"
           "wwcorpid0001" sample_crypto sample_random (list_byte_of_string "hello")).
  vm_compute. reflexivity.
Defined.

(** ** Keys of 43 alphanumeric characters *)

Lemma decodeMap_alphanumeric (a : ascii) :
  shared.alphanumeric a = true ->
  exists v, base64.decodeMap (byte_of_ascii a) = Some v.
Proof.
  unfold shared.alphanumeric, base64.decodeMap. rewrite Z_of_byte_of_ascii.
  cbv zeta. intros H.
  destruct ((65 <=? _) && _) eqn:E1; [eauto|].
  destruct ((97 <=? _) && _) eqn:E2; [eauto|].
  destruct ((48 <=? _) && _) eqn:E3; [eauto|].
  discriminate.
Qed.

Lemma bind_Ok_r {A : Type} (r : result A) : (x <- r ;; Ok x) = r.
Proof. destruct r; reflexivity. Qed.

Lemma bind_assoc {A B C : Type} (r : result A) (f : A -> result B) (g : B -> result C) :
  (y <- (x <- r ;; f x) ;; g y) = (x <- r ;; (y <- f x ;; g y)).
Proof. destruct r; reflexivity. Qed.

Ltac digit_step H :=
  rewrite (base64_facts.decode_digit _ _ _ _ _ H);
  cbn [app len List.length Z.of_nat Pos.of_succ_nat Pos.succ Z.eqb Pos.eqb].

(** Full quanta of characters of the alphabet decode to three bytes each,
    and the decoding goes on behind them. *)
Lemma decode_quanta (k : nat) :
  forall (l tl : list byte) (si : Z),
  List.length l = (4 * k)%nat ->
  Forall (fun b => exists v, base64.decodeMap b = Some v) l ->
  exists out si',
    List.length out = (3 * k)%nat /\
    base64.decode (l ++ tl) si [] =
    (rest <- base64.decode tl si' [] ;; Ok (out ++ rest)).
Proof.
  induction k as [|k IH]; intros l tl si Hl Hf.
  - destruct l; [|discriminate]. exists [], si. split; [reflexivity|].
    cbn [app]. symmetry. apply bind_Ok_r.
  - destruct l as [|b0 [|b1 [|b2 [|b3 l]]]]; try (cbn in Hl; lia).
    inversion Hf as [|? ? [v0 H0] Hf0]; subst.
    inversion Hf0 as [|? ? [v1 H1] Hf1]; subst.
    inversion Hf1 as [|? ? [v2 H2] Hf2]; subst.
    inversion Hf2 as [|? ? [v3 H3] Hf3]; subst.
    destruct (IH l tl (si + 1 + 1 + 1 + 1) ltac:(cbn in Hl; lia) Hf3)
      as [out [si' [Ho Hd]]].
    eexists (_ :: _ :: _ :: out), si'.
    split; [cbn [List.length]; lia|].
    cbn [app]. digit_step H0. digit_step H1. digit_step H2. digit_step H3.
    rewrite Hd, bind_assoc. reflexivity.
Qed.

Lemma list_byte_of_string_app (s t : string) :
  list_byte_of_string (s +s+ t) = list_byte_of_string s ++ list_byte_of_string t.
Proof.
  induction s as [|a s IH]; [reflexivity|].
  unfold sappend in *. cbn [String.append]. rewrite !list_byte_of_String, IH.
  reflexivity.
Qed.

Lemma length_list_byte_of_string (s : string) :
  List.length (list_byte_of_string s) = String.length s.
Proof.
  induction s as [|a s IH]; [reflexivity|].
  rewrite list_byte_of_String. cbn [List.length String.length]. now rewrite IH.
Qed.

Lemma Forall_list_byte_of_string (s : string) :
  forallb shared.alphanumeric (list_ascii_of_string s) = true ->
  Forall (fun b => exists v, base64.decodeMap b = Some v) (list_byte_of_string s).
Proof.
  induction s as [|a s IH]; [constructor|].
  cbn [list_ascii_of_string forallb]. rewrite list_byte_of_String.
  intros H. apply andb_true_iff in H. destruct H as [Ha Hs].
  constructor; [now apply decodeMap_alphanumeric|now apply IH].
Qed.

(** A key of 43 alphanumeric characters, with the padding character that
    [NewCrypto] appends, is the base64 text of 32 bytes. *)
Lemma alphanumeric_key_decodes (key : string) :
  slen key = 43 ->
  shared.alphanumericRegex_MatchString key = true ->
  exists aesKey, base64.DecodeString (key +s+ "=") = Ok aesKey /\ len aesKey = 32.
Proof.
  intros Hl Hm. unfold shared.alphanumericRegex_MatchString in Hm.
  apply andb_true_iff in Hm. destruct Hm as [_ Hm].
  apply Forall_list_byte_of_string in Hm.
  unfold base64.DecodeString. rewrite list_byte_of_string_app.
  assert (Hn : List.length (list_byte_of_string key) = 43%nat).
  { rewrite length_list_byte_of_string. unfold slen in Hl. lia. }
  set (l := list_byte_of_string key) in *.
  rewrite <- (firstn_skipn 40 l) in Hm |- *.
  apply Forall_app in Hm. destruct Hm as [Hm1 Hm2].
  assert (H1 : List.length (firstn 40 l) = (4 * 10)%nat).
  { rewrite length_firstn. lia. }
  assert (H2 : List.length (skipn 40 l) = 3%nat).
  { rewrite length_skipn. lia. }
  destruct (skipn 40 l) as [|a [|b [|d [|? ?]]]]; try discriminate.
  rewrite <- app_assoc.
  destruct (decode_quanta 10 (firstn 40 l)
              ([a; b; d] ++ list_byte_of_string "=") 0 H1 Hm1)
    as [out [si' [Ho Hd]]].
  rewrite Hd.
  inversion Hm2 as [|? ? [v0 E0] Hf0]; subst.
  inversion Hf0 as [|? ? [v1 E1] Hf1]; subst.
  inversion Hf1 as [|? ? [v2 E2] _]; subst.
  change ([a; b; d] ++ list_byte_of_string "=") with [a; b; d; base64.padChar].
  digit_step E0. digit_step E1. digit_step E2.
  rewrite base64_facts.decode_pad_three. cbn [bind].
  eexists. split; [reflexivity|].
  rewrite len_app. unfold len. rewrite Ho. reflexivity.
Qed.

Section Startup.

Variable net_SplitHostPort : string -> result (string * string).
Variable url_Parse : string -> result shared.URL.
Variable os_ReadFile : string -> result (list byte).
Variable yaml_Unmarshal : list byte -> result shared.Config.

Lemma validate_Ok_inv (cfg : shared.Config) :
  shared.validate net_SplitHostPort url_Parse cfg = Ok tt ->
  shared.CorpID (shared.WeWork cfg) <> "" /\
  1 <= slen (shared.Token (shared.WeWork cfg)) <= 32 /\
  shared.alphanumericRegex_MatchString (shared.Token (shared.WeWork cfg)) = true /\
  slen (shared.EncodingAESKey (shared.WeWork cfg)) = 43 /\
  shared.alphanumericRegex_MatchString (shared.EncodingAESKey (shared.WeWork cfg)) = true.
Proof.
  unfold shared.validate.
  destruct (wrap_err "server.addr: " _) as [[]|e|p]; cbn [bind]; try discriminate.
  destruct (String.eqb (shared.CorpID _) "") eqn:E1; [discriminate|].
  destruct (String.eqb (shared.Token _) "") eqn:E2; [discriminate|].
  destruct (slen (shared.Token _) >? 32) eqn:E3; [discriminate|].
  destruct (shared.alphanumericRegex_MatchString (shared.Token _)) eqn:E4;
    cbn [negb]; [|discriminate].
  destruct (slen (shared.EncodingAESKey _) =? 43) eqn:E5; cbn [negb]; [|discriminate].
  destruct (shared.alphanumericRegex_MatchString (shared.EncodingAESKey _)) eqn:E6;
    cbn [negb]; [|discriminate].
  intros _. apply String.eqb_neq in E1. apply String.eqb_neq in E2.
  apply Z.eqb_eq in E5.
  repeat split; try assumption.
  - destruct (shared.Token (shared.WeWork cfg)); [contradiction|].
    unfold slen. cbn [String.length]. lia.
  - rewrite Z.gtb_ltb in E3. apply Z.ltb_ge in E3. assumption.
Qed.

Lemma LoadConfig_Ok_inv (path : string) (cfg : shared.Config) :
  shared.LoadConfig net_SplitHostPort url_Parse os_ReadFile yaml_Unmarshal path = Ok cfg ->
  shared.validate net_SplitHostPort url_Parse cfg = Ok tt.
Proof.
  unfold shared.LoadConfig.
  destruct (wrap_err "read config file: " _) as [data|e|p]; cbn [bind];
    try discriminate.
  destruct (wrap_err "parse config file: " _) as [cfg'|e|p]; cbn [bind];
    try discriminate.
  destruct (shared.validate _ _ cfg') as [[]|e|p] eqn:Ev; cbn [bind];
    try discriminate.
  intros H. injection H as <-. assumption.
Qed.

(** X10.  The start of the service cannot fail at the cipher: for every
    configuration that [LoadConfig] returns, [NewApp] succeeds, and the
    cipher it builds has a key of 32 bytes and the token and the (non-empty)
    tenant identifier of the configuration. *)
Theorem loaded_config_builds_app (path : string) (cfg : shared.Config) :
  shared.LoadConfig net_SplitHostPort url_Parse os_ReadFile yaml_Unmarshal path = Ok cfg ->
  exists app,
    bootstrap.NewApp cfg = Ok app /\
    valid_key (bootstrap.app_crypto app) /\
    token (bootstrap.app_crypto app) = shared.Token (shared.WeWork cfg) /\
    corpID (bootstrap.app_crypto app) = shared.CorpID (shared.WeWork cfg) /\
    corpID (bootstrap.app_crypto app) <> "".
Proof.
  intros H. apply LoadConfig_Ok_inv in H.
  destruct (validate_Ok_inv cfg H) as [Hc [_ [_ [Hl Hm]]]].
  destruct (alphanumeric_key_decodes _ Hl Hm) as [k [Hd Hk]].
  unfold bootstrap.NewApp, NewCrypto. rewrite Hd. cbn [wrap_err bind].
  rewrite Hk. cbn [Z.eqb Pos.eqb negb wrap_err bind].
  eexists. split; [reflexivity|]. cbn. unfold valid_key. cbn. auto.
Qed.

End Startup.

Lemma loaded_config_builds_app_witness :
  let cfg :=
    {| shared.Server := {| shared.Addr := ":8080"; shared.ReadTimeout := 10;
                           shared.WriteTimeout := 10 |};
       shared.WeWork := {| shared.CorpID := "wwcorpid0001"; shared.Token := "QDG6eK";
                           shared.EncodingAESKey :=
                             "AAECAwQFBgcICQoLDA0ODxAREhMUFRYXGBkaGxwdHh8";
                           shared.AgentID := 1000002 |};
       shared.AI := {| shared.BaseURL := "http://ai.local"; shared.Timeout := 30;
                       shared.Retry := 2 |};
       shared.Log := {| shared.Level := "info"; shared.Format := "json" |} |} in
  exists app,
    bootstrap.NewApp cfg = Ok app /\
    valid_key (bootstrap.app_crypto app) /\
    token (bootstrap.app_crypto app) = shared.Token (shared.WeWork cfg) /\
    corpID (bootstrap.app_crypto app) = shared.CorpID (shared.WeWork cfg) /\
    corpID (bootstrap.app_crypto app) <> "".
Proof.
  intros cfg.
  apply (loaded_config_builds_app
           (fun _ => Ok ("", "8080"))
           (fun _ => Ok {| shared.Scheme := "http"; shared.Host := "ai.local" |})
           (fun _ => Ok [])
           (fun _ => Ok cfg)
           "configs/config.yaml" cfg).
  vm_compute. reflexivity.
Defined.

(* ================================================================== *)
(** * Further properties of the callback handler *)

Section Handler.

Variable xml_Unmarshal_EncryptedBody : list byte -> result EncryptedBody.t.
Variable xml_Unmarshal_Message : list byte -> result Message.t.

(** The paths of [handleCallback], each with its trace and its answer. *)
Lemma handleCallback_paths (svc : serviceImpl) (r : Request) :
  handleCallback xml_Unmarshal_EncryptedBody xml_Unmarshal_Message svc r =
  match Body r with
  | Err err =>
      ([Do (Log "ERROR" "failed to read request body" [("error", Error err)])],
       http_Error "internal server error" StatusInternalServerError)
  | Panic p => ([], Aborted p)
  | Ok body =>
      match xml_Unmarshal_EncryptedBody body with
      | Err err =>
          ([Do (Log "WARN" "callback XML parse failed"
                  [("error", "unmarshal encrypted body: " +s+ Error err)])],
           http_Error "bad request" StatusBadRequest)
      | Panic p => ([], Aborted p)
      | Ok encBody =>
          let check :=
            Do (CallVerifySignature (Query r "msg_signature") (Query r "timestamp")
                  (Query r "nonce") (EncryptedBody.Encrypt encBody)) in
          let decrypt := Do (CallDecrypt (EncryptedBody.Encrypt encBody)) in
          if signature_checked svc r (EncryptedBody.Encrypt encBody) then
            match Crypto_Decrypt (crypto svc) (EncryptedBody.Encrypt encBody) with
            | Err err =>
                let msg := "decrypt message: " +s+ Error err in
                let tr := [check; decrypt;
                           Do (Log "ERROR" "failed to decrypt message"
                                 [("error", Error err)])] in
                if strings_Contains msg "unmarshal" then
                  (tr ++ [Do (Log "WARN" "callback XML parse failed" [("error", msg)])],
                   http_Error "bad request" StatusBadRequest)
                else if errors_Is_ErrInvalidSignature err then
                  (tr ++ [Do (Log "WARN" "callback signature failed"
                                [("timestamp", Query r "timestamp");
                                 ("nonce", Query r "nonce")])],
                   http_Error "forbidden" StatusForbidden)
                else
                  (tr ++ [Do (Log "ERROR" "callback processing failed" [("error", msg)])],
                   http_Error "internal server error" StatusInternalServerError)
            | Panic p => ([check; decrypt], Aborted p)
            | Ok plaintext =>
                match xml_Unmarshal_Message plaintext with
                | Err err =>
                    ([check; decrypt;
                      Do (Log "WARN" "callback XML parse failed"
                            [("error", "unmarshal message: " +s+ Error err)])],
                     http_Error "bad request" StatusBadRequest)
                | Panic p => ([check; decrypt], Aborted p)
                | Ok msg =>
                    ([check; decrypt]
                     ++ (if String.eqb (Message.MsgType msg) MsgTypeText
                            && containsMention (Message.Content msg)
                         then [Go (forwardToAI svc msg)] else []),
                     Respond StatusOK "success")
                end
            end
          else
            ([check;
              Do (Log "WARN" "signature verification failed"
                    [("timestamp", Query r "timestamp"); ("nonce", Query r "nonce")]);
              Do (Log "WARN" "callback signature failed"
                    [("timestamp", Query r "timestamp"); ("nonce", Query r "nonce")])],
             http_Error "forbidden" StatusForbidden)
      end
  end.
Proof.
  unfold handleCallback, HandleCallback, signature_checked.
  destruct (Body r) as [body|e|p]; try reflexivity.
  destruct (xml_Unmarshal_EncryptedBody body) as [encBody|e|p]; try reflexivity.
  cbn [wrap_err lift io_bind tell app MsgSignature Timestamp Nonce].
  destruct (Crypto_VerifySignature _ _ _ _ _); cbn [negb]; [|reflexivity].
  destruct (Crypto_Decrypt _ _) as [pt|e|p];
    cbn [wrap_err lift io_bind tell fail app Error]; try reflexivity.
  destruct (xml_Unmarshal_Message pt) as [msg|e|p];
    cbn [wrap_err lift io_bind tell app]; try reflexivity.
  destruct (String.eqb (Message.MsgType msg) MsgTypeText); cbn [negb andb];
    [destruct (containsMention (Message.Content msg)); cbn [negb]|]; reflexivity.
Qed.

(** The paths of [handleVerifyURL]. *)
Lemma handleVerifyURL_paths (svc : serviceImpl) (r : Request) :
  handleVerifyURL svc r =
  let check :=
    Do (CallVerifySignature (Query r "msg_signature") (Query r "timestamp")
          (Query r "nonce") (Query r "echostr")) in
  let decrypt := Do (CallDecrypt (Query r "echostr")) in
  if signature_checked svc r (Query r "echostr") then
    match Crypto_Decrypt (crypto svc) (Query r "echostr") with
    | Ok plaintext => ([check; decrypt], Respond StatusOK (string_of_list_byte plaintext))
    | Err err =>
        if errors_Is_ErrInvalidSignature err then
          ([check; decrypt;
            Do (Log "WARN" "URL verification signature failed"
                  [("timestamp", Query r "timestamp"); ("nonce", Query r "nonce")])],
           http_Error "forbidden" StatusForbidden)
        else
          ([check; decrypt;
            Do (Log "ERROR" "URL verification failed"
                  [("error", "decrypt echostr: " +s+ Error err)])],
           http_Error "internal server error" StatusInternalServerError)
    | Panic p => ([check; decrypt], Aborted p)
    end
  else
    ([check;
      Do (Log "WARN" "URL verification signature failed"
            [("timestamp", Query r "timestamp"); ("nonce", Query r "nonce")])],
     http_Error "forbidden" StatusForbidden).
Proof.
  unfold handleVerifyURL, VerifyURL, signature_checked.
  cbn [wrap_err lift io_bind tell fail app MsgSignature Timestamp Nonce Echostr].
  destruct (Crypto_VerifySignature _ _ _ _ _); cbn [negb]; [|reflexivity].
  destruct (Crypto_Decrypt _ _) as [pt|e|p];
    cbn [wrap_err lift io_bind io_ret tell fail app Error errors_Is_ErrInvalidSignature];
    reflexivity.
Qed.

Lemma decrypt_calls_forwardToAI (svc : serviceImpl) (msg : Message.t) :
  decrypt_calls [Go (forwardToAI svc msg)] = [].
Proof.
  unfold forwardToAI. destruct (aiSvc svc _); reflexivity.
Qed.

Lemma decrypt_calls_delivered (svc : serviceImpl) (msg : Message.t) (a b : event) (t : bool) :
  decrypt_calls ([a; b] ++ (if t then [Go (forwardToAI svc msg)] else [])) =
  decrypt_calls [a; b].
Proof.
  rewrite decrypt_calls_app. destruct t.
  - rewrite decrypt_calls_forwardToAI. apply app_nil_r.
  - apply app_nil_r.
Qed.

(** X11.  No request makes the handler decrypt what it has not verified:
    whatever the method, the body and the collaborators, every string
    handed to [Decrypt] has passed [VerifySignature] with the signature,
    timestamp and nonce of the request, and there is at most one such
    call. *)
Theorem Decrypt_only_after_signature (svc : serviceImpl) (r : Request)
    (encrypted : string) :
  In encrypted
    (decrypt_calls
       (fst (ServeHTTP xml_Unmarshal_EncryptedBody xml_Unmarshal_Message svc r))) ->
  signature_checked svc r encrypted = true /\
  decrypt_calls (fst (ServeHTTP xml_Unmarshal_EncryptedBody xml_Unmarshal_Message svc r))
  = [encrypted].
Proof.
  unfold ServeHTTP.
  destruct (String.eqb (Method r) "GET").
  { rewrite handleVerifyURL_paths. cbv zeta.
    destruct (signature_checked svc r (Query r "echostr")) eqn:Hv.
    - destruct (Crypto_Decrypt _ _) as [pt|e|p];
        [| destruct (errors_Is_ErrInvalidSignature e) |];
        cbn; intros [<-|[]]; auto.
    - cbn. intros []. }
  destruct (String.eqb (Method r) "POST"); [|cbn; intros []].
  rewrite handleCallback_paths.
  destruct (Body r) as [body|e|p]; [|cbn; intros []..].
  destruct (xml_Unmarshal_EncryptedBody body) as [encBody|e|p]; [|cbn; intros []..].
  cbv zeta.
  destruct (signature_checked svc r (EncryptedBody.Encrypt encBody)) eqn:Hv;
    [|cbn; intros []].
  destruct (Crypto_Decrypt _ _) as [pt|e|p].
  - destruct (xml_Unmarshal_Message pt) as [msg|e|p];
      [cbn [fst]; rewrite decrypt_calls_delivered| |];
      cbn; intros [<-|[]]; auto.
  - destruct (strings_Contains _ _); [|destruct (errors_Is_ErrInvalidSignature e)];
      cbn; intros [<-|[]]; auto.
  - cbn. intros [<-|[]]; auto.
Qed.

(** X12.  The handler answers 200 only to a request it has authenticated:
    on GET the signature of [echostr] verified, [echostr] was decrypted and
    the body of the answer is the decrypted text; on POST the envelope was
    parsed, the signature of its ciphertext verified, the ciphertext
    decrypted and the message parsed, and the body is [success]. *)
Theorem status_200_authenticated (svc : serviceImpl) (r : Request) (answer : string) :
  snd (ServeHTTP xml_Unmarshal_EncryptedBody xml_Unmarshal_Message svc r)
  = Respond StatusOK answer ->
  (Method r = "GET" /\
   signature_checked svc r (Query r "echostr") = true /\
   exists plaintext,
     Crypto_Decrypt (crypto svc) (Query r "echostr") = Ok plaintext /\
     answer = string_of_list_byte plaintext) \/
  (Method r = "POST" /\ answer = "success" /\
   exists body encBody plaintext msg,
     Body r = Ok body /\
     xml_Unmarshal_EncryptedBody body = Ok encBody /\
     signature_checked svc r (EncryptedBody.Encrypt encBody) = true /\
     Crypto_Decrypt (crypto svc) (EncryptedBody.Encrypt encBody) = Ok plaintext /\
     xml_Unmarshal_Message plaintext = Ok msg).
Proof.
  unfold ServeHTTP.
  destruct (String.eqb (Method r) "GET") eqn:Eg.
  { apply String.eqb_eq in Eg. rewrite handleVerifyURL_paths. cbv zeta.
    destruct (signature_checked svc r (Query r "echostr")) eqn:Hv; [|discriminate].
    destruct (Crypto_Decrypt _ _) as [pt|e|p] eqn:Ed;
      [| destruct (errors_Is_ErrInvalidSignature e); discriminate | discriminate].
    cbn [snd]. intros H. injection H as <-. left. eauto 6. }
  destruct (String.eqb (Method r) "POST") eqn:Ep; [|discriminate].
  apply String.eqb_eq in Ep.
  rewrite handleCallback_paths.
  destruct (Body r) as [body|e|p]; try discriminate.
  destruct (xml_Unmarshal_EncryptedBody body) as [encBody|e|p] eqn:Ee; try discriminate.
  cbv zeta.
  destruct (signature_checked svc r (EncryptedBody.Encrypt encBody)) eqn:Hv;
    [|discriminate].
  destruct (Crypto_Decrypt _ _) as [pt|e|p] eqn:Ed.
  - destruct (xml_Unmarshal_Message pt) as [msg|e|p] eqn:Em; try discriminate.
    cbn [snd]. intros H. injection H as <-. right.
    split; [assumption|]. split; [reflexivity|]. exists body, encBody, pt, msg. auto.
  - destruct (strings_Contains _ _); [|destruct (errors_Is_ErrInvalidSignature e)];
      discriminate.
  - discriminate.
Qed.

(** X13.  Requests that are refused before any call on the cipher: one
    whose method is neither GET nor POST is answered 405, a POST whose body
    cannot be read is answered 500 and a POST whose body is not an envelope
    is answered 400; in all three cases the handler does nothing but log. *)
Theorem refused_before_crypto (svc : serviceImpl) (r : Request) :
  let out := ServeHTTP xml_Unmarshal_EncryptedBody xml_Unmarshal_Message svc r in
  (Method r <> "GET" /\ Method r <> "POST" ->
   out = ([], http_Error "method not allowed" StatusMethodNotAllowed)) /\
  (Method r = "POST" ->
   (forall err, Body r = Err err ->
      snd out = http_Error "internal server error" StatusInternalServerError /\
      forall a, In a (all_actions (fst out)) -> exists l m attrs, a = Log l m attrs) /\
   (forall body err, Body r = Ok body -> xml_Unmarshal_EncryptedBody body = Err err ->
      snd out = http_Error "bad request" StatusBadRequest /\
      forall a, In a (all_actions (fst out)) -> exists l m attrs, a = Log l m attrs)).
Proof.
  cbv zeta. unfold ServeHTTP. split.
  - intros [Hg Hp]. apply String.eqb_neq in Hg. apply String.eqb_neq in Hp.
    rewrite Hg, Hp. reflexivity.
  - intros Hp. rewrite Hp. cbn [String.eqb Ascii.eqb Bool.eqb].
    rewrite handleCallback_paths. split.
    + intros err Hb. rewrite Hb. split; [reflexivity|].
      cbn. intros a [<-|[]]. eauto.
    + intros body err Hb He. rewrite Hb, He. split; [reflexivity|].
      cbn. intros a [<-|[]]. eauto.
Qed.

(** X14.  A text message that contains [@] is forwarded exactly once: the
    handler verifies, decrypts, starts one goroutine that sends one request
    built from the message, and answers 200 [success] whatever the AI
    service does with it. *)
Theorem mention_forwarded_once (svc : serviceImpl) (r : Request)
    (body plaintext : list byte) (encBody : EncryptedBody.t) (msg : Message.t) :
  Body r = Ok body ->
  xml_Unmarshal_EncryptedBody body = Ok encBody ->
  signature_checked svc r (EncryptedBody.Encrypt encBody) = true ->
  Crypto_Decrypt (crypto svc) (EncryptedBody.Encrypt encBody) = Ok plaintext ->
  xml_Unmarshal_Message plaintext = Ok msg ->
  Message.MsgType msg = "text" ->
  In "@"%char (list_ascii_of_string (Message.Content msg)) ->
  handleCallback xml_Unmarshal_EncryptedBody xml_Unmarshal_Message svc r =
  ([Do (CallVerifySignature (Query r "msg_signature") (Query r "timestamp")
          (Query r "nonce") (EncryptedBody.Encrypt encBody));
    Do (CallDecrypt (EncryptedBody.Encrypt encBody));
    Go (forwardToAI svc msg)],
   Respond StatusOK "success") /\
  sent_requests (fst (handleCallback xml_Unmarshal_EncryptedBody xml_Unmarshal_Message svc r)) =
  [{| ai.UserID := Message.FromUserName msg;
      ai.Content := Message.Content msg;
      ai.Source := "wework";
      ai.GroupID := "" |}].
Proof.
  intros Hb He Hv Hd Hm Ht Hc.
  assert (E : handleCallback xml_Unmarshal_EncryptedBody xml_Unmarshal_Message svc r =
    ([Do (CallVerifySignature (Query r "msg_signature") (Query r "timestamp")
            (Query r "nonce") (EncryptedBody.Encrypt encBody));
      Do (CallDecrypt (EncryptedBody.Encrypt encBody));
      Go (forwardToAI svc msg)],
     Respond StatusOK "success")).
  { rewrite handleCallback_paths, Hb, He. cbv zeta. rewrite Hv, Hd, Hm, Ht.
    apply containsMention_iff in Hc. rewrite Hc. reflexivity. }
  split; [exact E|]. rewrite E. cbn [fst].
  exact (sent_requests_forwardToAI svc msg).
Qed.

(** X15.  The answer does not wait for the AI service nor depend on it: two
    services that differ only in their AI service give the same answer to
    every request, do the same calls on the cipher and send the same
    requests. *)
Theorem answer_independent_of_ai (cr : Crypto) (ai1 ai2 : ai.Service) (r : Request) :
  (forall req m, ai1 req <> Panic m) -> (forall req m, ai2 req <> Panic m) ->
  let out1 := ServeHTTP xml_Unmarshal_EncryptedBody xml_Unmarshal_Message
                {| crypto := cr; aiSvc := ai1 |} r in
  let out2 := ServeHTTP xml_Unmarshal_EncryptedBody xml_Unmarshal_Message
                {| crypto := cr; aiSvc := ai2 |} r in
  snd out1 = snd out2 /\
  decrypt_calls (fst out1) = decrypt_calls (fst out2) /\
  sent_requests (fst out1) = sent_requests (fst out2) /\
  List.length (fst out1) = List.length (fst out2).
Proof.
  intros _ _. cbv zeta. unfold ServeHTTP.
  destruct (String.eqb (Method r) "GET").
  { rewrite !handleVerifyURL_paths. unfold signature_checked. cbn [crypto]. auto. }
  destruct (String.eqb (Method r) "POST"); [|auto].
  rewrite !handleCallback_paths.
  unfold signature_checked. cbn [crypto].
  destruct (Body r) as [body|e|p]; auto.
  destruct (xml_Unmarshal_EncryptedBody body) as [encBody|e|p]; auto.
  cbv zeta.
  destruct (Crypto_VerifySignature cr _ _ _ _); auto.
  destruct (Crypto_Decrypt cr _) as [pt|e|p]; auto.
  destruct (xml_Unmarshal_Message pt) as [msg|e|p]; auto.
  destruct (_ && _); auto.
  cbn [fst snd]. rewrite !decrypt_calls_app, !decrypt_calls_forwardToAI.
  rewrite !sent_requests_app, !sent_requests_forwardToAI. auto.
Qed.

End Handler.

Lemma refused_before_crypto_witness :
  let out := ServeHTTP (sample_Unmarshal_EncryptedBody ciphertext_hello)
               (sample_Unmarshal_Message "hello") sample_service
               {| Method := "PUT"; Query := fun _ => ""; Body := Ok [] |} in
  out = ([], http_Error "method not allowed" StatusMethodNotAllowed).
Proof.
  intros out.
  apply (proj1 (refused_before_crypto (sample_Unmarshal_EncryptedBody ciphertext_hello)
                  (sample_Unmarshal_Message "hello") sample_service
                  {| Method := "PUT"; Query := fun _ => ""; Body := Ok [] |})).
  split; discriminate.
Defined.


Lemma Decrypt_only_after_signature_witness :
  let out := ServeHTTP (sample_Unmarshal_EncryptedBody ciphertext_hello)
               (sample_Unmarshal_Message "hello") sample_service
               (sample_get (sample_signature ciphertext_echostr) ciphertext_echostr) in
  signature_checked sample_service
    (sample_get (sample_signature ciphertext_echostr) ciphertext_echostr)
    ciphertext_echostr = true /\
  decrypt_calls (fst out) = [ciphertext_echostr].
Proof.
  apply (Decrypt_only_after_signature (sample_Unmarshal_EncryptedBody ciphertext_hello)
           (sample_Unmarshal_Message "hello") sample_service
           (sample_get (sample_signature ciphertext_echostr) ciphertext_echostr)
           ciphertext_echostr).
  vm_compute. left. reflexivity.
Defined.

Lemma status_200_authenticated_witness :
  let r := sample_get (sample_signature ciphertext_echostr) ciphertext_echostr in
  (Method r = "GET" /\
   signature_checked sample_service r (Query r "echostr") = true /\
   exists plaintext,
     Crypto_Decrypt (crypto sample_service) (Query r "echostr") = Ok plaintext /\
     "1234567890" = string_of_list_byte plaintext) \/
  (Method r = "POST" /\ "1234567890" = "success" /\
   exists body encBody plaintext msg,
     Body r = Ok body /\
     sample_Unmarshal_EncryptedBody ciphertext_hello body = Ok encBody /\
     signature_checked sample_service r (EncryptedBody.Encrypt encBody) = true /\
     Crypto_Decrypt (crypto sample_service) (EncryptedBody.Encrypt encBody) = Ok plaintext /\
     sample_Unmarshal_Message "hello" plaintext = Ok msg).
Proof.
  apply (status_200_authenticated (sample_Unmarshal_EncryptedBody ciphertext_hello)
           (sample_Unmarshal_Message "hello") sample_service
           (sample_get (sample_signature ciphertext_echostr) ciphertext_echostr)
           "1234567890").
  vm_compute. reflexivity.
Defined.

Lemma mention_forwarded_once_witness :
  let r := sample_post (sample_signature ciphertext_mention) ciphertext_mention in
  let out := handleCallback (sample_Unmarshal_EncryptedBody ciphertext_mention)
               (sample_Unmarshal_Message sample_mention) sample_service r in
  out =
  ([Do (CallVerifySignature (Query r "msg_signature") (Query r "timestamp")
          (Query r "nonce") ciphertext_mention);
    Do (CallDecrypt ciphertext_mention);
    Go (forwardToAI sample_service (sample_message sample_mention))],
   Respond StatusOK "success") /\
  sent_requests (fst out) =
  [{| ai.UserID := "zhangsan"; ai.Content := sample_mention;
      ai.Source := "wework"; ai.GroupID := "" |}].
Proof.
  apply (mention_forwarded_once (sample_Unmarshal_EncryptedBody ciphertext_mention)
           (sample_Unmarshal_Message sample_mention) sample_service
           (sample_post (sample_signature ciphertext_mention) ciphertext_mention)
           (list_byte_of_string (sample_envelope_xml ciphertext_mention))
           (list_byte_of_string (sample_message_xml sample_mention))
           (sample_envelope ciphertext_mention) (sample_message sample_mention)).
  - reflexivity.
  - vm_compute. reflexivity.
  - vm_compute. reflexivity.
  - vm_compute. reflexivity.
  - vm_compute. reflexivity.
  - reflexivity.
  - vm_compute. left. reflexivity.
Defined.

Lemma answer_independent_of_ai_witness :
  let r := sample_post (sample_signature ciphertext_mention) ciphertext_mention in
  let serve (ai0 : ai.Service) :=
    ServeHTTP (sample_Unmarshal_EncryptedBody ciphertext_mention)
      (sample_Unmarshal_Message sample_mention)
      {| crypto := Crypto_of_cryptoImpl sample_crypto; aiSvc := ai0 |} r in
  let out1 := serve (fun _ => Ok {| ai.Reply := "hi" |}) in
  let out2 := serve (fun _ => Err (LibError "connection refused")) in
  snd out1 = snd out2 /\
  decrypt_calls (fst out1) = decrypt_calls (fst out2) /\
  sent_requests (fst out1) = sent_requests (fst out2) /\
  List.length (fst out1) = List.length (fst out2).
Proof.
  apply (answer_independent_of_ai (sample_Unmarshal_EncryptedBody ciphertext_mention)
           (sample_Unmarshal_Message sample_mention)
           (Crypto_of_cryptoImpl sample_crypto)
           (fun _ => Ok {| ai.Reply := "hi" |})
           (fun _ => Err (LibError "connection refused"))
           (sample_post (sample_signature ciphertext_mention) ciphertext_mention));
    discriminate.
Defined.

(* ================================================================== *)
(** * The answers to a failed decryption *)

(** ** Where the word [unmarshal] can occur in an error text *)

Lemma prefix_app_sep (p : string) :
  forall (a b : string) (sep : ascii),
  ~ In sep (list_ascii_of_string p) ->
  String.prefix p (String.append a (String sep b)) = String.prefix p a.
Proof.
  induction p as [|ch p IH]; intros a b sep Hs.
  - destruct a; reflexivity.
  - destruct a as [|x a]; cbn [String.append String.prefix].
    + destruct (ascii_dec ch sep) as [->|_]; [|reflexivity].
      exfalso. apply Hs. left. reflexivity.
    + destruct (ascii_dec ch x); [|reflexivity].
      apply IH. intros H. apply Hs. right. exact H.
Qed.

(** A substring that does not contain the character [sep] lies on one side
    of it. *)
Lemma Contains_app_sep (p a b : string) (sep : ascii) :
  ~ In sep (list_ascii_of_string p) ->
  strings_Contains (String.append a (String sep b)) p =
  strings_Contains a p || strings_Contains b p.
Proof.
  intros Hs. induction a as [|x a IH].
  - cbn [String.append strings_Contains].
    pose proof (prefix_app_sep p "" b sep Hs) as H. cbn [String.append] in H.
    rewrite H. now rewrite orb_false_r.
  - change (String.append (String x a) (String sep b))
      with (String x (String.append a (String sep b))).
    cbn [strings_Contains]. rewrite IH.
    change (String x (String.append a (String sep b)))
      with (String.append (String x a) (String sep b)).
    rewrite (prefix_app_sep p (String x a) b sep Hs).
    now rewrite orb_assoc.
Qed.

Lemma Contains_skip (x : ascii) (rest p : string) :
  String.prefix p (String x rest) = false ->
  strings_Contains (String x rest) p = strings_Contains rest p.
Proof. intros H. cbn [strings_Contains]. now rewrite H. Qed.

Lemma Contains_first (ch : ascii) (p s : string) :
  strings_Contains s (String ch p) = true -> In ch (list_ascii_of_string s).
Proof.
  induction s as [|x s IH]; cbn [strings_Contains String.prefix list_ascii_of_string].
  - discriminate.
  - intros H. apply orb_true_iff in H. destruct H as [H|H].
    + destruct (ascii_dec ch x) as [->|_]; [left; reflexivity|discriminate].
    + right. now apply IH.
Qed.

Lemma string_of_uint_chars (d : Decimal.uint) (ch : ascii) :
  In ch (list_ascii_of_string (NilEmpty.string_of_uint d)) ->
  In ch (list_ascii_of_string "0123456789").
Proof.
  induction d; cbn [NilEmpty.string_of_uint list_ascii_of_string];
    try (intros [<-|H]; [cbn; tauto|now apply IHd]).
  intros [].
Qed.

(** The characters of [%d]: a sign and digits. *)
Lemma itoa_chars (z : Z) (ch : ascii) :
  In ch (list_ascii_of_string (itoa z)) ->
  In ch (list_ascii_of_string "-0123456789").
Proof.
  unfold itoa, NilZero.string_of_int, NilZero.string_of_uint.
  destruct (Z.to_int z) as [d|d].
  - intros H. right. destruct d; try (now apply string_of_uint_chars in H).
    cbn in H. cbn. tauto.
  - cbn [list_ascii_of_string]. intros [<-|H]; [left; reflexivity|].
    right. destruct d; try (now apply string_of_uint_chars in H).
    cbn in H. cbn. tauto.
Qed.

Lemma Contains_itoa (z : Z) : strings_Contains (itoa z) "unmarshal" = false.
Proof.
  destruct (strings_Contains (itoa z) "unmarshal") eqn:E; [|reflexivity].
  apply Contains_first, itoa_chars in E. exfalso.
  cbn in E. repeat (destruct E as [E|E]; [discriminate E|]). exact E.
Qed.

Lemma space_not_in_unmarshal : ~ In " "%char (list_ascii_of_string "unmarshal").
Proof. cbn. intros H. repeat (destruct H as [H|H]; [discriminate H|]). exact H. Qed.

Lemma comma_not_in_unmarshal : ~ In ","%char (list_ascii_of_string "unmarshal").
Proof. cbn. intros H. repeat (destruct H as [H|H]; [discriminate H|]). exact H. Qed.

Ltac scan_text :=
  repeat first
    [ progress unfold sappend
    | progress cbn [Error String.append orb]
    | rewrite Contains_skip by reflexivity
    | rewrite Contains_app_sep by (first [exact space_not_in_unmarshal
                                         |exact comma_not_in_unmarshal])
    | rewrite Contains_itoa ].

(** The text of an error of [Decrypt] contains [unmarshal] only where it
    quotes a tenant identifier. *)
Lemma decrypt_error_unmarshal (c : cryptoImpl) (e : error) :
  decrypt_error c e ->
  strings_Contains (corpID c) "unmarshal" = false ->
  (forall got,
     e = Errorf ("corp_id mismatch: got " +s+ got +s+ ", want " +s+ corpID c) ->
     strings_Contains got "unmarshal" = false) ->
  strings_Contains ("decrypt message: " +s+ Error e) "unmarshal" = false.
Proof.
  intros He Hc Hg.
  destruct He as [pos|n| | |p|p n|i|n|l n|got Hne];
    try (clear Hg; scan_text; try reflexivity; fail).
  pose proof (Hg got eq_refl) as Hgot. scan_text. now rewrite Hgot, Hc.
Qed.

Section Answers.

Variable xml_Unmarshal_EncryptedBody : list byte -> result EncryptedBody.t.
Variable xml_Unmarshal_Message : list byte -> result Message.t.

(** X16.  With the cipher of the service, a callback whose ciphertext
    passes the signature check and then fails to decrypt is answered 500,
    unless the failure is a tenant mismatch that quotes the word
    [unmarshal]: every other error of [Decrypt] is told from a parse error
    of the message documents. *)
Theorem decrypt_failure_status (c : cryptoImpl) (ai0 : ai.Service) (r : Request)
    (body : list byte) (encBody : EncryptedBody.t) (err : error) :
  let svc := {| crypto := Crypto_of_cryptoImpl c; aiSvc := ai0 |} in
  Body r = Ok body ->
  xml_Unmarshal_EncryptedBody body = Ok encBody ->
  signature_checked svc r (EncryptedBody.Encrypt encBody) = true ->
  Decrypt c (EncryptedBody.Encrypt encBody) = Err err ->
  strings_Contains (corpID c) "unmarshal" = false ->
  (forall got,
     err = Errorf ("corp_id mismatch: got " +s+ got +s+ ", want " +s+ corpID c) ->
     strings_Contains got "unmarshal" = false) ->
  snd (handleCallback xml_Unmarshal_EncryptedBody xml_Unmarshal_Message svc r) =
  http_Error "internal server error" StatusInternalServerError.
Proof.
  intros svc Hb He Hv Hd Hc Hg.
  rewrite handleCallback_paths, Hb, He. cbv zeta. rewrite Hv.
  unfold svc. cbn [crypto Crypto_Decrypt Crypto_of_cryptoImpl]. rewrite Hd.
  pose proof (Decrypt_Err_inv c _ _ Hd) as Hde.
  rewrite (decrypt_error_unmarshal c err Hde Hc Hg).
  rewrite (decrypt_error_not_signature c err Hde). reflexivity.
Qed.

End Answers.

Lemma decrypt_failure_status_witness :
  snd (handleCallback (sample_Unmarshal_EncryptedBody "AAAA")
         (sample_Unmarshal_Message "hello")
         {| crypto := Crypto_of_cryptoImpl sample_crypto;
            aiSvc := fun _ => Ok {| ai.Reply := "ok" |} |}
         (sample_post (sample_signature "AAAA") "AAAA")) =
  http_Error "internal server error" StatusInternalServerError.
Proof.
  apply (decrypt_failure_status (sample_Unmarshal_EncryptedBody "AAAA")
           (sample_Unmarshal_Message "hello") sample_crypto
           (fun _ => Ok {| ai.Reply := "ok" |})
           (sample_post (sample_signature "AAAA") "AAAA")
           (list_byte_of_string (sample_envelope_xml "AAAA"))
           (sample_envelope "AAAA")
           (Errorf "ciphertext length 3 is not a multiple of block size 16")).
  - reflexivity.
  - vm_compute. reflexivity.
  - vm_compute. reflexivity.
  - vm_compute. reflexivity.
  - vm_compute. reflexivity.
  - intros got H. discriminate H.
Defined.

(* ================================================================== *)
(** * The URL verification handshake, end to end *)

(** X17.  With the cipher of the service, the handshake has three answers:
    403 when the signature does not verify, 200 with the decrypted text of
    [echostr] when it verifies and [Decrypt] succeeds, and 500 for every
    error of [Decrypt] (none of them counts as a signature failure). *)
Theorem handshake_answers (c : cryptoImpl) (ai0 : ai.Service) (r : Request) :
  snd (handleVerifyURL {| crypto := Crypto_of_cryptoImpl c; aiSvc := ai0 |} r) =
  if VerifySignature c (Query r "msg_signature") (Query r "timestamp")
       (Query r "nonce") (Query r "echostr")
  then
    match Decrypt c (Query r "echostr") with
    | Ok plaintext => Respond StatusOK (string_of_list_byte plaintext)
    | Err _ => http_Error "internal server error" StatusInternalServerError
    | Panic p => Aborted p
    end
  else http_Error "forbidden" StatusForbidden.
Proof.
  rewrite handleVerifyURL_paths. cbv zeta. unfold signature_checked.
  cbn [crypto Crypto_VerifySignature Crypto_Decrypt Crypto_of_cryptoImpl].
  destruct (VerifySignature c _ _ _ _); [|reflexivity].
  destruct (Decrypt c (Query r "echostr")) as [pt|e|p] eqn:Hd; try reflexivity.
  rewrite (decrypt_error_not_signature c e (Decrypt_Err_inv c _ _ Hd)).
  reflexivity.
Qed.

(** X18.  The handshake succeeds on what the platform sends: when
    [echostr] is what [Encrypt] produces for a text under the key and the
    tenant identifier of the service and the signature verifies, the
    handler calls [VerifySignature] and [Decrypt] once each and answers 200
    with that text. *)
Theorem handshake_echo (c : cryptoImpl) (ai0 : ai.Service) (r : Request)
    (randomBytes plaintext : list byte) :
  valid_key c -> len randomBytes = 16 ->
  20 + len plaintext + slen (corpID c) < 4294967296 ->
  Encrypt c (Ok randomBytes) plaintext = Ok (Query r "echostr") ->
  VerifySignature c (Query r "msg_signature") (Query r "timestamp")
    (Query r "nonce") (Query r "echostr") = true ->
  handleVerifyURL {| crypto := Crypto_of_cryptoImpl c; aiSvc := ai0 |} r =
  ([Do (CallVerifySignature (Query r "msg_signature") (Query r "timestamp")
          (Query r "nonce") (Query r "echostr"));
    Do (CallDecrypt (Query r "echostr"))],
   Respond StatusOK (string_of_list_byte plaintext)).
Proof.
  intros Hk Hr Hb He Hv.
  destruct (Decrypt_Encrypt_tenants c c randomBytes plaintext Hk eq_refl Hr Hb)
    as [enc [He' Hd]].
  rewrite He in He'. injection He' as <-.
  rewrite String.eqb_refl in Hd. cbn [negb] in Hd.
  rewrite handleVerifyURL_paths. cbv zeta. unfold signature_checked.
  cbn [crypto Crypto_VerifySignature Crypto_Decrypt Crypto_of_cryptoImpl].
  rewrite Hv, Hd. reflexivity.
Qed.

Lemma handshake_echo_witness :
  let r := sample_get (sample_signature ciphertext_echostr) ciphertext_echostr in
  handleVerifyURL {| crypto := Crypto_of_cryptoImpl sample_crypto;
                     aiSvc := fun _ => Ok {| ai.Reply := "ok" |} |} r =
  ([Do (CallVerifySignature (Query r "msg_signature") (Query r "timestamp")
          (Query r "nonce") (Query r "echostr"));
    Do (CallDecrypt (Query r "echostr"))],
   Respond StatusOK (string_of_list_byte (list_byte_of_string "1234567890"))).
Proof.
  intros r.
  apply (handshake_echo sample_crypto (fun _ => Ok {| ai.Reply := "ok" |}) r
           sample_random (list_byte_of_string "1234567890"));
    vm_compute; reflexivity.
Defined.

(* ================================================================== *)
(** * The AI client: attempts, waits and answers *)

Lemma int64_small (z : Z) :
  - 9223372036854775808 <= z < 9223372036854775808 -> int64 z = z.
Proof.
  intros H. unfold int64. change (2 ^ 63) with 9223372036854775808.
  change (2 ^ 64) with 18446744073709551616.
  rewrite Z.mod_small; lia.
Qed.

Lemma int64_le (z : Z) :
  - 9223372036854775808 <= z <= 9223372036854775808 -> int64 z <= z.
Proof.
  intros H. destruct (Z.eq_dec z 9223372036854775808) as [->|Hne].
  - vm_compute. discriminate.
  - rewrite int64_small; lia.
Qed.

(** X19.  The backoff: the wait after the attempt [i] lasts [500 * 2^i]
    milliseconds up to [i = 34]; it is negative for [i = 35], where the
    product leaves the 64-bit range, and zero from [i = 64] on, where the
    shift does. *)
Theorem delay_backoff (i : Z) :
  (0 <= i <= 34 -> client.delay i = 500 * 2 ^ i * 1000000) /\
  (i = 35 -> client.delay i < 0) /\
  (64 <= i -> client.delay i = 0).
Proof.
  unfold client.delay. repeat split.
  - intros Hi. rewrite Z.shiftl_mul_pow2 by lia.
    assert (H1 : 0 < 2 ^ i) by (apply Z.pow_pos_nonneg; lia).
    assert (H2 : 2 ^ i <= 2 ^ 34) by (apply Z.pow_le_mono_r; lia).
    change (2 ^ 34) with 17179869184 in H2.
    rewrite (int64_small (500 * 2 ^ i)) by lia.
    apply int64_small. lia.
  - intros ->. vm_compute. reflexivity.
  - intros Hi. rewrite Z.shiftl_mul_pow2 by lia.
    replace i with (i - 64 + 64) by lia.
    rewrite Z.pow_add_r by lia.
    assert (E : int64 (500 * (2 ^ (i - 64) * 2 ^ 64)) = 0).
    { unfold int64.
      replace (500 * (2 ^ (i - 64) * 2 ^ 64) + 2 ^ 63)
        with (2 ^ 63 + 500 * 2 ^ (i - 64) * 2 ^ 64) by lia.
      rewrite Z.mod_add by (vm_compute; discriminate).
      vm_compute. reflexivity. }
    rewrite E. vm_compute. reflexivity.
Qed.

Lemma delay_backoff_witness :
  client.delay 0 = 500 * 2 ^ 0 * 1000000 /\
  client.delay 34 = 500 * 2 ^ 34 * 1000000 /\
  client.delay 35 < 0 /\ client.delay 64 = 0.
Proof.
  split; [apply (proj1 (delay_backoff 0)); lia|].
  split; [apply (proj1 (delay_backoff 34)); lia|].
  split; [apply (proj1 (proj2 (delay_backoff 35))); reflexivity|].
  apply (proj2 (proj2 (delay_backoff 64))). lia.
Defined.

Section ClientFacts.

Variable w : client.World.
Variable c : client.AIClient.

Lemma last_app_two {A : Type} (l : list A) (a b d : A) : last (l ++ [a; b]) d = b.
Proof. change [a; b] with ([a] ++ [b]). rewrite app_assoc. apply last_last. Qed.

Lemma requests_failed_attempts (k : nat) :
  forall i, client.requests (client.failed_attempts k i) =
            map (fun t => i + Z.of_nat t) (seq 0 k).
Proof.
  induction k as [|k IH]; intros i; [reflexivity|].
  cbn [client.failed_attempts client.requests flat_map app seq map].
  fold (client.requests (client.failed_attempts k (i + 1))).
  rewrite IH, <- seq_shift, map_map, Z.add_0_r.
  apply f_equal. apply map_ext. intros t. lia.
Qed.

Lemma waits_failed_attempts (k : nat) :
  forall i, client.waits (client.failed_attempts k i) =
            map (fun t => client.delay (i + Z.of_nat t)) (seq 0 k).
Proof.
  induction k as [|k IH]; intros i; [reflexivity|].
  cbn [client.failed_attempts client.waits flat_map app seq map].
  fold (client.waits (client.failed_attempts k (i + 1))).
  rewrite IH, <- seq_shift, map_map, Z.add_0_r.
  apply f_equal. apply map_ext. intros t. apply f_equal. lia.
Qed.

(** A first run of failed attempts, each one retried after its wait. *)
Lemma attempts_failed (body : list byte) (n : nat) :
  forall (k : nat) (i : Z) (lastErr : option error),
  (forall j, i <= j < i + Z.of_nat k ->
     (exists e, client.doRequest w c j body = Err e) /\
     j < client.retry c /\ client.ctx_Done w j = None) ->
  exists lastErr',
    client.attempts_from w c body (k + n) i lastErr =
    (client.failed_attempts k i
       ++ fst (client.attempts_from w c body n (i + Z.of_nat k) lastErr'),
     snd (client.attempts_from w c body n (i + Z.of_nat k) lastErr')).
Proof.
  induction k as [|k IH]; intros i lastErr H.
  - exists lastErr. cbn [Nat.add client.failed_attempts app Z.of_nat].
    rewrite Z.add_0_r. now destruct (client.attempts_from _ _ _ _ _ _).
  - destruct (H i ltac:(lia)) as [[e He] [Hr Hd]].
    destruct (IH (i + 1) (Some e)) as [last' Hl].
    { intros j Hj. apply H. lia. }
    exists last'. cbn [Nat.add client.attempts_from]. rewrite He.
    apply Z.ltb_lt in Hr. rewrite Hr, Hd, Hl.
    replace (i + 1 + Z.of_nat k) with (i + Z.of_nat (S k)) by lia.
    reflexivity.
Qed.

Lemma SendMessage_unfold (req : ai.ChatRequest) (body : list byte) :
  client.json_Marshal w req = Ok body ->
  - 9223372036854775808 <= client.retry c < 9223372036854775807 ->
  client.SendMessage w c req =
  match client.attempts_from w c body (Z.to_nat (client.retry c + 1)) 0 None with
  | (tr, inl r) => (tr, r)
  | (tr, inr lastErr) =>
      (tr ++ [client.LogRecord "ERROR" "all retries failed for AI request"
                [("user_id", ai.UserID req);
                 ("attempts", itoa (client.retry c + 1));
                 ("error", match lastErr with
                           | Some err => Error err
                           | None => "<nil>"
                           end)]],
       Err (match lastErr with
            | Some err =>
                Errorf_w ("send message after " +s+ itoa (client.retry c + 1)
                          +s+ " attempts: ") err
            | None =>
                Errorf ("send message after " +s+ itoa (client.retry c + 1)
                        +s+ " attempts: %!w(<nil>)")
            end))
  end.
Proof.
  intros Hm Hr. unfold client.SendMessage. rewrite Hm. cbv zeta.
  rewrite int64_small by lia. reflexivity.
Qed.

(** X20.  The first success ends the loop: when the attempts before the
    attempt [k] fail and their waits are not cut short by the context, and
    the attempt [k] succeeds, [SendMessage] returns its response after
    exactly [k + 1] requests and [k] waits, and logs nothing. *)
Theorem SendMessage_first_success (req : ai.ChatRequest) (body : list byte)
    (k : Z) (resp : ai.ChatResponse) :
  client.json_Marshal w req = Ok body ->
  0 <= k <= client.retry c -> client.retry c < 9223372036854775807 ->
  (forall j, 0 <= j < k ->
     (exists e, client.doRequest w c j body = Err e) /\ client.ctx_Done w j = None) ->
  client.doRequest w c k body = Ok resp ->
  client.SendMessage w c req =
  (client.failed_attempts (Z.to_nat k) 0 ++ [client.DoRequest k], Ok resp).
Proof.
  intros Hm Hk Hr Hf Hs. rewrite (SendMessage_unfold req body Hm) by lia.
  replace (Z.to_nat (client.retry c + 1))
    with (Z.to_nat k + S (Z.to_nat (client.retry c - k)))%nat by lia.
  destruct (attempts_failed body (S (Z.to_nat (client.retry c - k))) (Z.to_nat k) 0 None)
    as [last' Hl].
  { intros j Hj. destruct (Hf j ltac:(lia)) as [He Hd].
    repeat split; try assumption. lia. }
  rewrite Hl. rewrite Z2Nat.id, Z.add_0_l by lia.
  cbn [client.attempts_from]. rewrite Hs. reflexivity.
Qed.

(** The run of [SendMessage] when every attempt fails and no wait is cut
    short. *)
Lemma SendMessage_exhausted (req : ai.ChatRequest) (body : list byte)
    (lastErr : error) :
  client.json_Marshal w req = Ok body ->
  0 <= client.retry c < 9223372036854775807 ->
  (forall j, 0 <= j < client.retry c ->
     (exists e, client.doRequest w c j body = Err e) /\ client.ctx_Done w j = None) ->
  client.doRequest w c (client.retry c) body = Err lastErr ->
  client.SendMessage w c req =
  (client.failed_attempts (Z.to_nat (client.retry c)) 0
     ++ [client.DoRequest (client.retry c);
         client.LogRecord "ERROR" "all retries failed for AI request"
           [("user_id", ai.UserID req);
            ("attempts", itoa (client.retry c + 1));
            ("error", Error lastErr)]],
   Err (Errorf_w ("send message after " +s+ itoa (client.retry c + 1) +s+ " attempts: ")
          lastErr)).
Proof.
  intros Hm Hr Hf Hl. rewrite (SendMessage_unfold req body Hm) by lia.
  replace (Z.to_nat (client.retry c + 1))
    with (Z.to_nat (client.retry c) + 1)%nat by lia.
  destruct (attempts_failed body 1 (Z.to_nat (client.retry c)) 0 None)
    as [last' Hl'].
  { intros j Hj. destruct (Hf j ltac:(lia)) as [He Hd].
    repeat split; try assumption. lia. }
  rewrite Hl'. rewrite Z2Nat.id, Z.add_0_l by lia.
  cbn [client.attempts_from]. rewrite Hl, Z.ltb_irrefl.
  cbn [fst snd]. rewrite <- app_assoc. reflexivity.
Qed.

(** X21.  When every attempt fails and no wait is cut short, [SendMessage]
    makes exactly [retry + 1] requests with a wait after each but the last,
    logs the failure once and returns the error of the last attempt,
    wrapped with the number of attempts. *)
Theorem SendMessage_all_attempts_fail (req : ai.ChatRequest) (body : list byte)
    (lastErr : error) :
  client.json_Marshal w req = Ok body ->
  0 <= client.retry c < 9223372036854775807 ->
  (forall j, 0 <= j < client.retry c ->
     (exists e, client.doRequest w c j body = Err e) /\ client.ctx_Done w j = None) ->
  client.doRequest w c (client.retry c) body = Err lastErr ->
  let tr := fst (client.SendMessage w c req) in
  client.requests tr = map Z.of_nat (seq 0 (Z.to_nat (client.retry c + 1))) /\
  client.waits tr =
    map (fun t => client.delay (Z.of_nat t)) (seq 0 (Z.to_nat (client.retry c))) /\
  last tr (client.DoRequest 0) =
    client.LogRecord "ERROR" "all retries failed for AI request"
      [("user_id", ai.UserID req); ("attempts", itoa (client.retry c + 1));
       ("error", Error lastErr)] /\
  snd (client.SendMessage w c req) =
    Err (Errorf_w ("send message after " +s+ itoa (client.retry c + 1) +s+ " attempts: ")
           lastErr).
Proof.
  intros Hm Hr Hf Hl. cbv zeta.
  rewrite (SendMessage_exhausted req body lastErr Hm Hr Hf Hl). cbn [fst snd].
  unfold client.requests, client.waits. rewrite !flat_map_app.
  fold (client.requests (client.failed_attempts (Z.to_nat (client.retry c)) 0)).
  fold (client.waits (client.failed_attempts (Z.to_nat (client.retry c)) 0)).
  rewrite requests_failed_attempts, waits_failed_attempts.
  cbn [flat_map app]. rewrite app_nil_r.
  repeat split.
  - replace (Z.to_nat (client.retry c + 1)) with (Z.to_nat (client.retry c) + 1)%nat
      by lia.
    rewrite seq_app, map_app. cbn [seq map Nat.add].
    rewrite Z2Nat.id by lia. apply f_equal2; [|reflexivity].
    apply map_ext. intros t. lia.
  - apply last_app_two.
Qed.

(** X22.  A context that is done during a wait ends [SendMessage] at once:
    it returns [ctx.Err()] itself, not wrapped, makes no further request and
    does not log. *)
Theorem SendMessage_cancelled (req : ai.ChatRequest) (body : list byte)
    (k : Z) (ctxErr : error) :
  client.json_Marshal w req = Ok body ->
  0 <= k < client.retry c -> client.retry c < 9223372036854775807 ->
  (forall j, 0 <= j <= k -> exists e, client.doRequest w c j body = Err e) ->
  (forall j, 0 <= j < k -> client.ctx_Done w j = None) ->
  client.ctx_Done w k = Some ctxErr ->
  client.SendMessage w c req =
  (client.failed_attempts (Z.to_nat k) 0
     ++ [client.DoRequest k; client.Select (client.delay k)],
   Err ctxErr).
Proof.
  intros Hm Hk Hr Hf Hd Hc. rewrite (SendMessage_unfold req body Hm) by lia.
  replace (Z.to_nat (client.retry c + 1))
    with (Z.to_nat k + S (Z.to_nat (client.retry c - k)))%nat by lia.
  destruct (attempts_failed body (S (Z.to_nat (client.retry c - k))) (Z.to_nat k) 0 None)
    as [last' Hl].
  { intros j Hj. repeat split; [apply Hf|..|apply Hd]; lia. }
  rewrite Hl. rewrite Z2Nat.id, Z.add_0_l by lia.
  cbn [client.attempts_from].
  destruct (Hf k ltac:(lia)) as [e He]. rewrite He.
  replace (k <? client.retry c) with true by (symmetry; apply Z.ltb_lt; lia).
  rewrite Hc. reflexivity.
Qed.

(** X23.  The retry count of the configuration is not validated: with a
    negative count the loop does not run, so [SendMessage] makes no request
    at all, logs the failure and returns an error that has no cause. *)
Theorem SendMessage_negative_retry (req : ai.ChatRequest) (body : list byte) :
  client.json_Marshal w req = Ok body ->
  - 9223372036854775808 <= client.retry c < 0 ->
  client.SendMessage w c req =
  ([client.LogRecord "ERROR" "all retries failed for AI request"
      [("user_id", ai.UserID req); ("attempts", itoa (client.retry c + 1));
       ("error", "<nil>")]],
   Err (Errorf ("send message after " +s+ itoa (client.retry c + 1)
                +s+ " attempts: %!w(<nil>)"))).
Proof.
  intros Hm Hr. rewrite (SendMessage_unfold req body Hm) by lia.
  replace (Z.to_nat (client.retry c + 1)) with 0%nat by lia.
  reflexivity.
Qed.

Lemma attempts_from_Ok_inv (body : list byte) (n : nat) :
  forall (i : Z) (lastErr : option error) (tr : list client.step)
         (resp : ai.ChatResponse),
  client.attempts_from w c body n i lastErr = (tr, inl (Ok resp)) ->
  exists j, i <= j < i + Z.of_nat n /\ client.doRequest w c j body = Ok resp.
Proof.
  induction n as [|n IH]; intros i lastErr tr resp; cbn [client.attempts_from].
  - discriminate.
  - destruct (client.doRequest w c i body) as [r|e|p] eqn:Ed.
    + intros H. injection H as <- <-. exists i. split; [lia|assumption].
    + destruct (i <? client.retry c).
      * destruct (client.ctx_Done w i); [discriminate|].
        destruct (client.attempts_from w c body n (i + 1) (Some e)) as [tr' r'] eqn:Ea.
        intros H. injection H as <- ->.
        destruct (IH _ _ _ _ Ea) as [j [Hj Ho]]. exists j. split; [lia|assumption].
      * destruct (client.attempts_from w c body n (i + 1) (Some e)) as [tr' r'] eqn:Ea.
        intros H. injection H as <- ->.
        destruct (IH _ _ _ _ Ea) as [j [Hj Ho]]. exists j. split; [lia|assumption].
    + discriminate.
Qed.

Lemma doRequest_Ok_inv (i : Z) (body : list byte) (resp : ai.ChatResponse) :
  client.doRequest w c i body = Ok resp ->
  exists respBody,
    client.http_NewRequest w (client.baseURL c +s+ "/chat") = Ok tt /\
    client.http_Do w i (client.baseURL c +s+ "/chat") body = Ok (200, respBody) /\
    client.json_Decode w respBody = Ok resp.
Proof.
  unfold client.doRequest.
  destruct (client.http_NewRequest w _) as [[]|e|p]; cbn [wrap_err bind];
    try discriminate.
  destruct (client.http_Do w i _ body) as [[status respBody]|e|p];
    cbn [wrap_err bind]; try discriminate.
  destruct (status =? StatusOK) eqn:Es; cbn [negb]; [|discriminate].
  apply Z.eqb_eq in Es. subst status.
  destruct (client.json_Decode w respBody) as [r|e|p] eqn:Ej; cbn [wrap_err];
    try discriminate.
  intros H. injection H as <-. exists respBody. auto.
Qed.

(** X24.  A response of [SendMessage] is the decoded body of an answer with
    status 200 to one of the attempts 0 to [retry]: every other status, a
    body that does not decode and every transport error are failures of the
    attempt. *)
Theorem SendMessage_Ok_inv (req : ai.ChatRequest) (resp : ai.ChatResponse) :
  - 9223372036854775808 <= client.retry c < 9223372036854775808 ->
  snd (client.SendMessage w c req) = Ok resp ->
  exists body i respBody,
    client.json_Marshal w req = Ok body /\
    0 <= i <= client.retry c /\
    client.http_Do w i (client.baseURL c +s+ "/chat") body = Ok (200, respBody) /\
    client.json_Decode w respBody = Ok resp.
Proof.
  intros Hr. unfold client.SendMessage.
  destruct (client.json_Marshal w req) as [body|e|p]; try discriminate.
  cbv zeta.
  destruct (client.attempts_from w c body _ 0 None) as [tr [r|last]] eqn:Ea;
    cbn [snd]; [|discriminate].
  intros ->. destruct (attempts_from_Ok_inv _ _ _ _ _ _ Ea) as [j [Hj Ho]].
  destruct (doRequest_Ok_inv _ _ _ Ho) as [rb [_ [Hd Hj']]].
  exists body, j, rb. repeat split; try assumption; try lia.
  pose proof (int64_le (client.retry c + 1) ltac:(lia)). lia.
Qed.

Lemma attempts_from_bounds (body : list byte) (n : nat) :
  forall (i : Z) (lastErr : option error),
  (n = 0)%nat \/ i + Z.of_nat n <= client.retry c + 1 ->
  let tr := fst (client.attempts_from w c body n i lastErr) in
  exists m m' : nat,
    client.requests tr = map (fun t => i + Z.of_nat t) (seq 0 m) /\
    client.waits tr = map (fun t => client.delay (i + Z.of_nat t)) (seq 0 m') /\
    (m' <= m <= n)%nat /\ (m <= m' + 1)%nat /\
    ((0 < m')%nat -> i + Z.of_nat m' <= client.retry c).
Proof.
  induction n as [|n IH]; intros i lastErr Hn; cbn [client.attempts_from].
  - exists 0%nat, 0%nat. cbn. repeat split; lia.
  - destruct Hn as [Hn|Hn]; [discriminate|].
    destruct (client.doRequest w c i body) as [r|e|p].
    + exists 1%nat, 0%nat. cbn. rewrite Z.add_0_r. repeat split; lia.
    + specialize (IH (i + 1) (Some e) ltac:(right; lia)).
      destruct (i <? client.retry c) eqn:El.
      * apply Z.ltb_lt in El. destruct (client.ctx_Done w i).
        { exists 1%nat, 1%nat. cbn. rewrite Z.add_0_r. repeat split; lia. }
        destruct (client.attempts_from w c body n (i + 1) (Some e)) as [tr' r'].
        cbn [fst] in *. destruct IH as [m [m' [Hq [Hw [Hm [Hm' Hr]]]]]].
        exists (S m), (S m'). cbn [client.requests client.waits flat_map app].
        fold (client.requests tr'). fold (client.waits tr').
        rewrite Hq, Hw. cbn [seq map]. rewrite <- !seq_shift, !map_map.
        rewrite Z.add_0_r. repeat split; try lia.
        -- apply f_equal. apply map_ext. intros t. lia.
        -- apply f_equal. apply map_ext. intros t. apply f_equal. lia.
      * destruct (client.attempts_from w c body n (i + 1) (Some e)) as [tr' r'].
        cbn [fst] in *. destruct IH as [m [m' [Hq [Hw [Hm [Hm' Hr]]]]]].
        apply Z.ltb_ge in El.
        assert (m = 0%nat) by lia. assert (m' = 0%nat) by lia. subst m m'.
        exists 1%nat, 0%nat. cbn [client.requests client.waits flat_map app].
        fold (client.requests tr'). fold (client.waits tr').
        rewrite Hq, Hw. cbn. rewrite Z.add_0_r. repeat split; lia.
    + exists 1%nat, 0%nat. cbn. rewrite Z.add_0_r. repeat split; lia.
Qed.

(** X25.  Whatever the outside of the client does, [SendMessage] makes at
    most [retry + 1] requests, numbered from 0, and at most [retry] waits,
    the wait [i] lasting [delay i]; there is never a wait without a request
    before it, and never more than one request without a wait between. *)
Theorem SendMessage_bounded (req : ai.ChatRequest) :
  - 9223372036854775808 <= client.retry c < 9223372036854775808 ->
  let tr := fst (client.SendMessage w c req) in
  exists m m' : nat,
    client.requests tr = map Z.of_nat (seq 0 m) /\
    client.waits tr = map (fun t => client.delay (Z.of_nat t)) (seq 0 m') /\
    (m' <= m <= m' + 1)%nat /\
    Z.of_nat m <= Z.max 0 (client.retry c + 1) /\
    Z.of_nat m' <= Z.max 0 (client.retry c).
Proof.
  intros Hr. cbv zeta. unfold client.SendMessage.
  destruct (client.json_Marshal w req) as [body|e|p];
    try (exists 0%nat, 0%nat; cbn; repeat split; lia).
  cbv zeta.
  pose proof (int64_le (client.retry c + 1) ltac:(lia)) as Hle.
  pose proof (attempts_from_bounds body
                (Z.to_nat (int64 (client.retry c + 1))) 0 None) as H.
  cbv zeta in H.
  assert (Hn : (Z.to_nat (int64 (client.retry c + 1)) = 0)%nat \/
               0 + Z.of_nat (Z.to_nat (int64 (client.retry c + 1)))
               <= client.retry c + 1) by lia.
  specialize (H Hn). clear Hn.
  destruct (client.attempts_from w c body _ 0 None) as [tr [r|last]];
    cbn [fst] in *; destruct H as [m [m' [Hq [Hw [Hm [Hm' Hb]]]]]];
    exists m, m'.
  - repeat split; try lia; assumption.
  - unfold client.requests, client.waits in *. rewrite !flat_map_app.
    cbn [flat_map app]. rewrite !app_nil_r.
    repeat split; try lia; assumption.
Qed.

(** The actions of the domain service in the goroutine that runs the
    client are those of [forwardToAI] over the outcome of [SendMessage]. *)
Lemma forwardToAI_wired_service_actions (app : bootstrap.App) (msg : Message.t) :
  bootstrap.service_actions (bootstrap.forwardToAI_wired w app msg) =
  forwardToAI
    {| crypto := Crypto_of_cryptoImpl (bootstrap.app_crypto app);
       aiSvc := fun req => snd (client.SendMessage w (bootstrap.app_client app) req) |}
    msg.
Proof.
  unfold bootstrap.forwardToAI_wired, forwardToAI. cbn [aiSvc].
  destruct (client.SendMessage w (bootstrap.app_client app) _) as [tr r].
  cbn [snd]. unfold bootstrap.service_actions. cbn [flat_map List.app].
  rewrite flat_map_app. apply f_equal.
  replace (flat_map _ (map bootstrap.Cli tr)) with (@nil action)
    by (induction tr as [|s tr IH]; [reflexivity|exact IH]).
  destruct r; reflexivity.
Qed.

(** X26.  The client behind the domain service, on the logger they share:
    when the AI service fails at every attempt, the goroutine that
    [HandleCallback] starts hands the request to [SendMessage] once, the
    client makes its [retry + 1] attempts with a wait after each but the
    last, and the logger receives two error records: the client's, which
    names the sender, the number of attempts and the error of the last
    attempt, then the domain service's, which names the sender and the
    error [SendMessage] returns.  (The goroutine runs with
    [context.WithoutCancel], so that no wait is cut short.) *)
Theorem forward_failure_logged (app : bootstrap.App) (msg : Message.t)
    (body : list byte) (lastErr : error) :
  bootstrap.app_client app = c ->
  let req := {| ai.UserID := Message.FromUserName msg;
                ai.Content := Message.Content msg;
                ai.Source := "wework";
                ai.GroupID := "" |} in
  client.json_Marshal w req = Ok body ->
  0 <= client.retry c < 9223372036854775807 ->
  (forall j, 0 <= j < client.retry c ->
     (exists e, client.doRequest w c j body = Err e) /\ client.ctx_Done w j = None) ->
  client.doRequest w c (client.retry c) body = Err lastErr ->
  let returned :=
    Errorf_w ("send message after " +s+ itoa (client.retry c + 1) +s+ " attempts: ")
      lastErr in
  bootstrap.forwardToAI_wired w app msg =
  bootstrap.Svc (CallSendMessage req)
  :: map bootstrap.Cli
       (client.failed_attempts (Z.to_nat (client.retry c)) 0
          ++ [client.DoRequest (client.retry c);
              client.LogRecord "ERROR" "all retries failed for AI request"
                [("user_id", Message.FromUserName msg);
                 ("attempts", itoa (client.retry c + 1));
                 ("error", Error lastErr)]])
  ++ [bootstrap.Svc
        (Log "ERROR" "failed to forward message to AI"
           [("user_id", Message.FromUserName msg); ("error", Error returned)])] /\
  bootstrap.logged (bootstrap.forwardToAI_wired w app msg) =
  [("ERROR", "all retries failed for AI request",
    [("user_id", Message.FromUserName msg);
     ("attempts", itoa (client.retry c + 1));
     ("error", Error lastErr)]);
   ("ERROR", "failed to forward message to AI",
    [("user_id", Message.FromUserName msg); ("error", Error returned)])].
Proof.
  intros Hc req Hm Hr Hf Hl returned.
  assert (E : bootstrap.forwardToAI_wired w app msg =
              bootstrap.Svc (CallSendMessage req)
              :: map bootstrap.Cli
                   (client.failed_attempts (Z.to_nat (client.retry c)) 0
                      ++ [client.DoRequest (client.retry c);
                          client.LogRecord "ERROR" "all retries failed for AI request"
                            [("user_id", Message.FromUserName msg);
                             ("attempts", itoa (client.retry c + 1));
                             ("error", Error lastErr)]])
              ++ [bootstrap.Svc
                    (Log "ERROR" "failed to forward message to AI"
                       [("user_id", Message.FromUserName msg);
                        ("error", Error returned)])]).
  { unfold bootstrap.forwardToAI_wired. rewrite Hc. fold req.
    rewrite (SendMessage_exhausted req body lastErr Hm Hr Hf Hl). reflexivity. }
  split; [exact E|]. rewrite E. unfold bootstrap.logged.
  cbn [flat_map List.app]. rewrite flat_map_app, map_app, flat_map_app.
  replace (flat_map _ (map bootstrap.Cli
                         (client.failed_attempts (Z.to_nat (client.retry c)) 0)))
    with (@nil (string * string * list (string * string))).
  - reflexivity.
  - clear E. generalize 0. induction (Z.to_nat (client.retry c)) as [|n IH]; intros i;
      [reflexivity|]. cbn [client.failed_attempts map flat_map List.app]. apply IH.
Qed.

End ClientFacts.

Lemma SendMessage_first_success_witness :
  client.SendMessage (sample_world 2 None) sample_client sample_chat =
  (client.failed_attempts (Z.to_nat 2) 0 ++ [client.DoRequest 2],
   Ok {| ai.Reply := "hi" |}).
Proof.
  apply (SendMessage_first_success (sample_world 2 None) sample_client sample_chat
           (list_byte_of_string "{}") 2 {| ai.Reply := "hi" |}).
  - reflexivity.
  - vm_compute. split; discriminate.
  - reflexivity.
  - intros j Hj. assert (E : j = 0 \/ j = 1) by lia.
    destruct E as [-> | ->]; vm_compute; eauto.
  - reflexivity.
Defined.

Lemma SendMessage_all_attempts_fail_witness :
  let tr := fst (client.SendMessage (sample_world 3 None) sample_client sample_chat) in
  client.requests tr = map Z.of_nat (seq 0 (Z.to_nat (client.retry sample_client + 1))) /\
  client.waits tr =
    map (fun t => client.delay (Z.of_nat t))
      (seq 0 (Z.to_nat (client.retry sample_client))) /\
  last tr (client.DoRequest 0) =
    client.LogRecord "ERROR" "all retries failed for AI request"
      [("user_id", ai.UserID sample_chat);
       ("attempts", itoa (client.retry sample_client + 1));
       ("error", Error (Errorf "unexpected status 503: busy"))] /\
  snd (client.SendMessage (sample_world 3 None) sample_client sample_chat) =
    Err (Errorf_w ("send message after " +s+ itoa (client.retry sample_client + 1)
                   +s+ " attempts: ")
           (Errorf "unexpected status 503: busy")).
Proof.
  apply (SendMessage_all_attempts_fail (sample_world 3 None) sample_client sample_chat
           (list_byte_of_string "{}") (Errorf "unexpected status 503: busy")).
  - reflexivity.
  - vm_compute. split; [discriminate|reflexivity].
  - intros j Hj. assert (E : j = 0 \/ j = 1) by (cbn in Hj; lia).
    destruct E as [-> | ->]; vm_compute; eauto.
  - reflexivity.
Defined.

Lemma SendMessage_cancelled_witness :
  client.SendMessage (sample_world 3 (Some (LibError "context canceled")))
    sample_client sample_chat =
  (client.failed_attempts (Z.to_nat 0) 0
     ++ [client.DoRequest 0; client.Select (client.delay 0)],
   Err (LibError "context canceled")).
Proof.
  apply (SendMessage_cancelled (sample_world 3 (Some (LibError "context canceled")))
           sample_client sample_chat (list_byte_of_string "{}") 0
           (LibError "context canceled")).
  - reflexivity.
  - vm_compute. split; [discriminate|reflexivity].
  - reflexivity.
  - intros j Hj. assert (E : j = 0) by lia. subst j. vm_compute. eauto.
  - intros j Hj. lia.
  - reflexivity.
Defined.

Lemma SendMessage_negative_retry_witness :
  client.SendMessage (sample_world 0 None)
    {| client.baseURL := "http://ai.local"; client.httpTimeout := 30;
       client.retry := -1 |} sample_chat =
  ([client.LogRecord "ERROR" "all retries failed for AI request"
      [("user_id", ai.UserID sample_chat); ("attempts", itoa (-1 + 1));
       ("error", "<nil>")]],
   Err (Errorf ("send message after " +s+ itoa (-1 + 1) +s+ " attempts: %!w(<nil>)"))).
Proof.
  apply (SendMessage_negative_retry (sample_world 0 None)
           {| client.baseURL := "http://ai.local"; client.httpTimeout := 30;
              client.retry := -1 |} sample_chat (list_byte_of_string "{}")).
  - reflexivity.
  - vm_compute. split; [discriminate|reflexivity].
Defined.

Lemma SendMessage_Ok_inv_witness :
  exists body i respBody,
    client.json_Marshal (sample_world 2 None) sample_chat = Ok body /\
    0 <= i <= client.retry sample_client /\
    client.http_Do (sample_world 2 None) i (client.baseURL sample_client +s+ "/chat") body
      = Ok (200, respBody) /\
    client.json_Decode (sample_world 2 None) respBody = Ok {| ai.Reply := "hi" |}.
Proof.
  apply (SendMessage_Ok_inv (sample_world 2 None) sample_client sample_chat
           {| ai.Reply := "hi" |}).
  - vm_compute. split; [discriminate|reflexivity].
  - vm_compute. reflexivity.
Defined.

Lemma SendMessage_bounded_witness :
  let tr := fst (client.SendMessage (sample_world 3 None) sample_client sample_chat) in
  exists m m' : nat,
    client.requests tr = map Z.of_nat (seq 0 m) /\
    client.waits tr = map (fun t => client.delay (Z.of_nat t)) (seq 0 m') /\
    (m' <= m <= m' + 1)%nat /\
    Z.of_nat m <= Z.max 0 (client.retry sample_client + 1) /\
    Z.of_nat m' <= Z.max 0 (client.retry sample_client).
Proof.
  apply (SendMessage_bounded (sample_world 3 None) sample_client sample_chat).
  vm_compute. split; [discriminate|reflexivity].
Defined.

Lemma forward_failure_logged_witness :
  let app := {| bootstrap.app_crypto := sample_crypto;
                bootstrap.app_client := sample_client;
                bootstrap.server_Addr := ":8080";
                bootstrap.server_ReadTimeout := 10;
                bootstrap.server_WriteTimeout := 10 |} in
  let msg := sample_message sample_mention in
  let req := {| ai.UserID := Message.FromUserName msg;
                ai.Content := Message.Content msg;
                ai.Source := "wework"; ai.GroupID := "" |} in
  let lastErr := Errorf "unexpected status 503: busy" in
  let returned :=
    Errorf_w ("send message after " +s+ itoa (client.retry sample_client + 1)
              +s+ " attempts: ") lastErr in
  bootstrap.forwardToAI_wired (sample_world 3 None) app msg =
  bootstrap.Svc (CallSendMessage req)
  :: map bootstrap.Cli
       (client.failed_attempts (Z.to_nat (client.retry sample_client)) 0
          ++ [client.DoRequest (client.retry sample_client);
              client.LogRecord "ERROR" "all retries failed for AI request"
                [("user_id", Message.FromUserName msg);
                 ("attempts", itoa (client.retry sample_client + 1));
                 ("error", Error lastErr)]])
  ++ [bootstrap.Svc
        (Log "ERROR" "failed to forward message to AI"
           [("user_id", Message.FromUserName msg); ("error", Error returned)])] /\
  bootstrap.logged (bootstrap.forwardToAI_wired (sample_world 3 None) app msg) =
  [("ERROR", "all retries failed for AI request",
    [("user_id", Message.FromUserName msg);
     ("attempts", itoa (client.retry sample_client + 1));
     ("error", Error lastErr)]);
   ("ERROR", "failed to forward message to AI",
    [("user_id", Message.FromUserName msg); ("error", Error returned)])].
Proof.
  intros app msg req lastErr returned.
  apply (forward_failure_logged (sample_world 3 None) sample_client app msg
           (list_byte_of_string "{}") lastErr).
  - reflexivity.
  - reflexivity.
  - vm_compute. split; [discriminate|reflexivity].
  - intros j Hj. assert (E : j = 0 \/ j = 1) by (cbn in Hj; lia).
    destruct E as [-> | ->]; vm_compute; eauto.
  - reflexivity.
Defined.
(* ================================================================== *)
(** * A bit flip in the first block of an accepted ciphertext *)






Section TamperedBytes.

Import aes aes_facts.






End TamperedBytes.




(** The whole sample ciphertext of [hello], three blocks: of its 384
    single-bit flips, those that [Decrypt] does not refuse with an error are
    the 40 flips of the bytes 4 to 8 of the first block, which reach the
    five bytes of the message. *)
Lemma sample_ciphertext_flips :
  filter (fun jk : nat * nat =>
            match Decrypt sample_crypto
                    (base64.EncodeToString
                       (flip_bit (raw_bytes ciphertext_hello) (fst jk) (snd jk)))
            with
            | Err _ => false
            | _ => true
            end)
         (list_prod (seq 0 48) (seq 0 8)) =
  list_prod (seq 4 5) (seq 0 8) /\
  List.length (raw_bytes ciphertext_hello) = 48%nat.
Proof.
  split; vm_compute; reflexivity.
Qed.
